(** * Chat-System-Backend: the real-time session and broadcast engine

    A shallow embedding of [src/socket/socket.ts] (both variants of the
    handler file: the one calling the OpenAI HTTP endpoint and the one calling
    the Groq SDK), of [src/services/chatService.ts], of the controllers of
    [src/controllers/chatController.ts] and of the constraints that
    [src/models/ChatSession.ts] and [src/models/Message.ts] declare, followed
    by the properties of the event protocol.

    Conventions.
    - A JavaScript string is a [string]; its characters are code units in the
      range 0..255, on which [String.length] is the JavaScript [length].
    - A payload field that may be [undefined] or [null] is an [option string];
      an event that arrives with no payload at all is [no_data].
    - Asynchronous handlers are run to completion one after the other: every
      handler is a function from the state before to the state after together
      with the list of externally visible actions, in the order the code
      performs them.
    - The store is the PostgreSQL database the models are synchronised to
      ([dialect: 'postgres'] in [db/connection.ts]). The validators of the
      models see the values as the service passes them. What reaches the
      database is what Sequelize's postgres dialect makes of them (no code
      unit 0), and what a column holds is what PostgreSQL makes of that (a
      [VARCHAR(n)] cuts an excess made of spaces and refuses any other). The
      widths of the columns, the unique index of [chat_sessions.session_id]
      and the foreign key of [messages.session_id] decide whether a write
      succeeds. *)

From Stdlib Require Import String Ascii List Bool Arith Lia.
From stdpp Require Import base option gmap strings list sorting.
Import ListNotations.
Local Open Scope string_scope.
Local Open Scope list_scope.
Local Open Scope nat_scope.
Set Warnings "-abstract-large-number".

(** ** JavaScript strings *)

Module Js.

(** [!!x] for a value that is a string, [undefined] or [null]. *)
Definition truthy (x : option string) : bool :=
  match x with
  | Some s => negb (String.eqb s "")
  | None => false
  end.

(** [x || d] with a string default. *)
Definition or_else (x : option string) (d : string) : string :=
  match x with
  | Some s => if String.eqb s "" then d else s
  | None => d
  end.

(** [x || y] where [y] may itself be [null]; [x || null] is [or_opt x None]. *)
Definition or_opt (x y : option string) : option string :=
  if truthy x then x else y.

(** White space of [String.prototype.trim] and of the regular expression
    class [\s], among the code units below 256: TAB, LF, VT, FF, CR, SP and
    NBSP. *)
Definition is_ws (c : ascii) : bool :=
  let n := nat_of_ascii c in
  (n =? 9) || (n =? 10) || (n =? 11) || (n =? 12) || (n =? 13)
  || (n =? 32) || (n =? 160).

Fixpoint trimStart (s : string) : string :=
  match s with
  | EmptyString => EmptyString
  | String c r => if is_ws c then trimStart r else s
  end.

Fixpoint trimEnd (s : string) : string :=
  match s with
  | EmptyString => EmptyString
  | String c r =>
      match trimEnd r with
      | EmptyString => if is_ws c then EmptyString else String c EmptyString
      | r' => String c r'
      end
  end.

Definition trim (s : string) : string := trimEnd (trimStart s).

(** Every character of the string is white space (the empty string
    included). *)
Fixpoint blank (s : string) : bool :=
  match s with
  | EmptyString => true
  | String c r => is_ws c && blank r
  end.

(** [s.startsWith(p)]. *)
Definition startsWith (s p : string) : bool := String.prefix p s.

Fixpoint drop (n : nat) (s : string) : string :=
  match n, s with
  | O, _ => s
  | S _, EmptyString => EmptyString
  | S k, String _ r => drop k r
  end.

(** [s.replace(pat, rep)] with a string pattern: the first occurrence only. *)
Fixpoint replace (pat rep s : string) : string :=
  if String.prefix pat s then String.append rep (drop (String.length pat) s)
  else match s with
       | EmptyString => EmptyString
       | String c r => String c (replace pat rep r)
       end.

(** A string of [n] copies of one character. *)
Fixpoint repeat (c : ascii) (n : nat) : string :=
  match n with
  | O => EmptyString
  | S k => String c (repeat c k)
  end.

End Js.

(** ** What the database receives and what a column holds *)

Module Pg.

Definition NUL : ascii := ascii_of_nat 0.
Definition backslash : ascii := ascii_of_nat 92.

(** PostgreSQL stores no code unit 0. Sequelize's postgres dialect therefore
    rewrites every string it sends, the bound values of an [INSERT] or
    [UPDATE] and the literals of a [WHERE] alike, with
    [value.replace(/\0/g, '\\0')]: each code unit 0 becomes the two
    characters backslash and 0. *)
Fixpoint escape (s : string) : string :=
  match s with
  | EmptyString => EmptyString
  | String c r =>
      if Ascii.eqb c NUL then String backslash (String "0"%char (escape r))
      else String c (escape r)
  end.

Fixpoint spaces (s : string) : bool :=
  match s with
  | EmptyString => true
  | String c r => Ascii.eqb c " "%char && spaces r
  end.

Fixpoint take (n : nat) (s : string) : string :=
  match n, s with
  | S k, String c r => String c (take k r)
  | _, _ => EmptyString
  end.

(** No code unit 0 occurs in the string. *)
Fixpoint clean (s : string) : bool :=
  match s with
  | EmptyString => true
  | String c r => negb (Ascii.eqb c NUL) && clean r
  end.

(** What a column of type [STRING(n)], a [VARCHAR(n)], holds after [s] was
    written to it: [s] itself when it has at most [n] characters; its first
    [n] characters when all the others are spaces; otherwise the write is an
    error. *)
Definition varchar (n : nat) (s : string) : option string :=
  if String.length s <=? n then Some s
  else if spaces (Js.drop n s) then Some (take n s)
  else None.

(** The same for a column that admits [NULL]. *)
Definition varchar_null (n : nat) (x : option string) : option (option string) :=
  match x with
  | Some s => Some <$> varchar n s
  | None => Some None
  end.

End Pg.

(** ** Errors and the result of a fallible call *)

Inductive Error :=
| SequelizeValidationError
| SequelizeDatabaseError
| SequelizeUniqueConstraintError
| SequelizeForeignKeyConstraintError
| SessionNotFound.

Inductive result (A : Type) :=
| Ok (a : A)
| Throw (e : Error).
Arguments Ok {A} a.
Arguments Throw {A} e.

Definition bind {A B : Type} (r : result A) (k : A -> result B) : result B :=
  match r with
  | Ok a => k a
  | Throw e => Throw e
  end.

Notation "'let*' x ':=' r 'in' k" := (bind r (fun x => k))
  (at level 10, x pattern, r at level 100, k at level 200).

(** [if (!ok) throw e]. *)
Definition check (ok : bool) (e : Error) : result unit :=
  if ok then Ok tt else Throw e.

(** A value the database returns, or the error of a write it refuses. *)
Definition written {A : Type} (x : option A) : result A :=
  match x with
  | Some a => Ok a
  | None => Throw SequelizeDatabaseError
  end.

(** ** The models *)

Inductive SessionStatus := active | inactive | closed.
Inductive SenderType := user | admin.

#[global] Instance SessionStatus_eq_dec : EqDecision SessionStatus.
Proof. solve_decision. Defined.
#[global] Instance SenderType_eq_dec : EqDecision SenderType.
Proof. solve_decision. Defined.

Module ChatSession.
(** [models/ChatSession.ts]; the surrogate key [id] plays no role in any
    handler and is left out. *)
Record t := mk {
  sessionId : string;
  userIp : option string;
  userAgent : option string;
  status : SessionStatus;
  aiEnabled : bool;
  createdAt : nat;
  updatedAt : nat
}.
End ChatSession.

Module Message.
(** [models/Message.ts], without the surrogate key [id]. *)
Record t := mk {
  sessionId : string;
  message : string;
  sender : string;
  senderType : SenderType;
  isAi : bool;
  attachmentUrl : option string;
  attachmentType : option string;
  createdAt : nat
}.
End Message.

Module Validator.
(** Sequelize's validators: [notEmpty] rejects a string that matches
    [/^[\s\t\r\n]*$/]; [len: [lo, hi]] bounds the length. *)
Definition notEmpty (s : string) : bool := negb (Js.blank s).
Definition len (s : string) (lo hi : nat) : bool :=
  (lo <=? String.length s) && (String.length s <=? hi).
End Validator.

(** ** The Persistence Gateway: [services/chatService.ts] *)

(** The table [chat_sessions] under its unique index: every row under the
    [session_id] it holds. The table [messages] in insertion order. *)
Record Db := mkDb {
  chat_sessions : gmap string ChatSession.t;
  messages : list Message.t
}.

Definition set_sessions (d : Db) (m : gmap string ChatSession.t) : Db :=
  mkDb m (messages d).

(** The [validate] entries of [models/Message.ts]: [message] has
    [notEmpty] and [len: [1, 5001]], [sender] has [notEmpty] and
    [len: [1, 50]]; the [isIn] of [senderType] holds by typing. They are
    applied to the values of the instance, before the query is built. *)
Definition message_validate (m : Message.t) : bool :=
  Validator.notEmpty (Message.message m) && Validator.len (Message.message m) 1 5001
  && Validator.notEmpty (Message.sender m) && Validator.len (Message.sender m) 1 50.

(** The row of [messages] that the [INSERT] of the values [m] leaves, if the
    columns take them: [session_id STRING(255)], [sender STRING(50)],
    [attachment_url STRING(1024)], [attachment_type STRING(100)]; [message]
    is [TEXT]. *)
Definition message_columns (m : Message.t) : option Message.t :=
  session_id ← Pg.varchar 255 (Pg.escape (Message.sessionId m));
  sender ← Pg.varchar 50 (Pg.escape (Message.sender m));
  attachment_url ← Pg.varchar_null 1024 (Pg.escape <$> Message.attachmentUrl m);
  attachment_type ← Pg.varchar_null 100 (Pg.escape <$> Message.attachmentType m);
  Some (Message.mk session_id (Pg.escape (Message.message m)) sender
          (Message.senderType m) (Message.isAi m) attachment_url attachment_type
          (Message.createdAt m)).

(** [Message.create(values)]: validate, then insert; [session_id] references
    [chat_sessions.session_id]. The instance that is returned carries the
    values of the inserted row ([INSERT ... RETURNING]). *)
Definition Message_create (d : Db) (m : Message.t) : result (Db * Message.t) :=
  let* _ := check (message_validate m) SequelizeValidationError in
  let* row := written (message_columns m) in
  let* _ := check (bool_decide (is_Some (chat_sessions d !! Message.sessionId row)))
                  SequelizeForeignKeyConstraintError in
  Ok (mkDb (chat_sessions d) (messages d ++ [row]), row).

(** [ChatSession.update({ updatedAt: new Date() }, { where: { sessionId } })].
    Sequelize's [Model.update] sets [updatedAt] by itself on every bulk
    update, and it returns without a query when that column is the only one
    it is given a value for. The call changes no row. *)
Definition touch_session (now : nat) (sid : string) (d : Db) : Db := d.

Record MessageArgs := mkArgs {
  a_sessionId : string;
  a_message : string;
  a_sender : string;
  a_senderType : SenderType;
  a_isAi : option bool;
  a_attachmentUrl : option string;
  a_attachmentType : option string
}.

(** The values [createMessage] hands to [Message.create]. *)
Definition message_row (now : nat) (a : MessageArgs) : Message.t :=
  Message.mk (a_sessionId a) (a_message a) (a_sender a) (a_senderType a)
    (default false (a_isAi a))
    (Js.or_opt (a_attachmentUrl a) None)
    (Js.or_opt (a_attachmentType a) None)
    now.

(** [createMessage]: the returned object carries the fields of the created
    row under snake-case names; the row itself stands for it. *)
Definition createMessage (now : nat) (a : MessageArgs) (d : Db)
  : result (Db * Message.t) :=
  match Message_create d (message_row now a) with
  | Ok (d1, message) => Ok (touch_session now (a_sessionId a) d1, message)
  | Throw e => Throw e
  end.

(** [getSession]: the row found by [where: { sessionId }], or [null]. *)
Definition getSession (sid : string) (d : Db) : option ChatSession.t :=
  chat_sessions d !! Pg.escape sid.

(** [session.update({ status, userIp, userAgent })] on the row [s] found
    under [key]. An instance none of whose values changes is not saved.
    Otherwise the three columns and [updated_at] are written; the new
    [user_ip] must fit its column ([STRING(45)]; [user_agent] is [TEXT]). *)
Definition session_update (now : nat) (key : string) (s : ChatSession.t)
    (st : SessionStatus) (ip agent : option string) (d : Db) : result Db :=
  if bool_decide (ChatSession.status s = st /\ ChatSession.userIp s = ip
                  /\ ChatSession.userAgent s = agent)
  then Ok d
  else
    let* user_ip := written (Pg.varchar_null 45 (Pg.escape <$> ip)) in
    Ok (set_sessions d
          (<[key := ChatSession.mk (ChatSession.sessionId s) user_ip
                      (Pg.escape <$> agent) st (ChatSession.aiEnabled s)
                      (ChatSession.createdAt s) now]> (chat_sessions d))).

(** [session.update({ status })]: the column and [updated_at] are written
    when the status changes. *)
Definition session_set_status (now : nat) (key : string) (s : ChatSession.t)
    (st : SessionStatus) (d : Db) : Db :=
  if bool_decide (ChatSession.status s = st) then d
  else set_sessions d
         (<[key := ChatSession.mk (ChatSession.sessionId s) (ChatSession.userIp s)
                     (ChatSession.userAgent s) st (ChatSession.aiEnabled s)
                     (ChatSession.createdAt s) now]> (chat_sessions d)).

(** [session.update({ aiEnabled })]. *)
Definition session_set_aiEnabled (now : nat) (key : string) (s : ChatSession.t)
    (enabled : bool) (d : Db) : Db :=
  if bool_decide (ChatSession.aiEnabled s = enabled) then d
  else set_sessions d
         (<[key := ChatSession.mk (ChatSession.sessionId s) (ChatSession.userIp s)
                     (ChatSession.userAgent s) (ChatSession.status s) enabled
                     (ChatSession.createdAt s) now]> (chat_sessions d)).

Record SessionData := mkSessionData {
  sd_sessionId : string;
  sd_userIp : option string;
  sd_userAgent : option string;
  sd_status : option SessionStatus
}.

(** The row of [chat_sessions] that the [INSERT] of [findOrCreate] leaves, if
    the columns take the values: [session_id STRING(255)],
    [user_ip STRING(45)]; [user_agent] is [TEXT]; [ai_enabled] has its
    default, [false]. *)
Definition session_columns (now : nat) (sd : SessionData) : option ChatSession.t :=
  session_id ← Pg.varchar 255 (Pg.escape (sd_sessionId sd));
  user_ip ← Pg.varchar_null 45 (Pg.escape <$> Js.or_opt (sd_userIp sd) None);
  Some (ChatSession.mk session_id user_ip
          (Pg.escape <$> Js.or_opt (sd_userAgent sd) None)
          (default active (sd_status sd)) false now now).

(** [createOrUpdateSession]: [findOrCreate] looks the session id up; when no
    row has it, a row is inserted (the [notEmpty] validator of [sessionId]
    runs first, and a row whose stored id another row already has violates
    the unique index, which [findOrCreate] turns into an error of its own).
    A row that was found is updated. *)
Definition createOrUpdateSession (now : nat) (sd : SessionData) (d : Db)
  : result Db :=
  match chat_sessions d !! Pg.escape (sd_sessionId sd) with
  | None =>
      let* _ := check (Validator.notEmpty (sd_sessionId sd)) SequelizeValidationError in
      let* row := written (session_columns now sd) in
      let* _ := check (negb (bool_decide
                               (is_Some (chat_sessions d !! ChatSession.sessionId row))))
                      SequelizeUniqueConstraintError in
      Ok (set_sessions d (<[ChatSession.sessionId row := row]> (chat_sessions d)))
  | Some session =>
      session_update now (Pg.escape (sd_sessionId sd)) session
        (default active (sd_status sd))
        (Js.or_opt (sd_userIp sd) (ChatSession.userIp session))
        (Js.or_opt (sd_userAgent sd) (ChatSession.userAgent session))
        d
  end.

(** [updateSessionStatus]. *)
Definition updateSessionStatus (now : nat) (sid : string) (st : SessionStatus) (d : Db)
  : result Db :=
  match chat_sessions d !! Pg.escape sid with
  | None => Throw SessionNotFound
  | Some session => Ok (session_set_status now (Pg.escape sid) session st d)
  end.

(** [toggleAiForSession] of [controllers/chatController.ts], the HTTP
    operation that sets the auto-reply flag: a session that does not exist is
    answered with 404 and nothing is written. *)
Definition toggleAiForSession (now : nat) (sid : string) (enabled : bool) (d : Db) : Db :=
  match chat_sessions d !! Pg.escape sid with
  | None => d
  | Some s => session_set_aiEnabled now (Pg.escape sid) s enabled d
  end.

(** *** Reading the store *)

(** [order: [['createdAt', 'ASC']]]. Rows with the same creation time come
    in an order PostgreSQL leaves open; the sort used here fixes one. *)
Definition older (m1 m2 : Message.t) : Prop :=
  Message.createdAt m1 <= Message.createdAt m2.

(** [order: [['updatedAt', 'DESC']]]. *)
Definition fresher (s1 s2 : ChatSession.t) : Prop :=
  ChatSession.updatedAt s2 <= ChatSession.updatedAt s1.

#[global] Instance older_dec m1 m2 : Decision (older m1 m2).
Proof. unfold older. apply _. Defined.
#[global] Instance fresher_dec s1 s2 : Decision (fresher s1 s2).
Proof. unfold fresher. apply _. Defined.

(** [where: { sessionId }] on the table of messages. *)
Definition messages_of (sid : string) (d : Db) : list Message.t :=
  List.filter (fun m => bool_decide (Message.sessionId m = Pg.escape sid)) (messages d).

(** [getMessagesBySession]: the returned objects carry the fields of the
    rows under snake-case names; the rows stand for them. *)
Definition getMessagesBySession (sid : string) (d : Db) : list Message.t :=
  merge_sort older (messages_of sid d).

(** [Message.findOne({ where: { sessionId }, order: [['createdAt', 'DESC']] })]. *)
Definition lastMessage (sid : string) (d : Db) : option Message.t :=
  head (merge_sort (flip older) (messages_of sid d)).

(** An element of the arrays [getAllSessions], [getActiveSessions] and
    [getPastSessions] return: the fields of the session, then the statistics. *)
Record SessionStats := mkStats {
  ss_session : ChatSession.t;
  message_count : nat;
  last_message_at : nat;
  last_message : string;
  last_sender_type : option SenderType
}.

(** The body of [sessions.map(async (session) => ...)]. *)
Definition session_stats (d : Db) (session : ChatSession.t) : SessionStats :=
  let messageCount := length (messages_of (ChatSession.sessionId session) d) in
  let lastMessage := lastMessage (ChatSession.sessionId session) d in
  mkStats session messageCount
    (from_option Message.createdAt (ChatSession.updatedAt session) lastMessage)
    (Js.or_else (Message.message <$> lastMessage) "")
    (Message.senderType <$> lastMessage).

(** [ChatSession.findAll({ where: { status }, order: [['updatedAt', 'DESC']] })]
    for the statuses [keep] accepts. *)
Definition findAll_sessions (keep : SessionStatus -> bool) (d : Db) : list ChatSession.t :=
  merge_sort fresher
    (List.filter (fun s => keep (ChatSession.status s)) (map_to_list (chat_sessions d)).*2).

Definition getAllSessions (d : Db) : list SessionStats :=
  session_stats d <$> findAll_sessions (fun _ => true) d.

Definition getActiveSessions (d : Db) : list SessionStats :=
  session_stats d <$> findAll_sessions (fun st => bool_decide (st = active)) d.

Definition getPastSessions (d : Db) : list SessionStats :=
  session_stats d
  <$> findAll_sessions (fun st => bool_decide (st = inactive \/ st = closed)) d.

(** ** The HTTP controllers: [controllers/chatController.ts] *)

Module Controller.

(** [res.json(body)], or [res.status(code).json({ error })]. The answer 500
    of the [catch] blocks needs a query that fails, and the queries of these
    controllers do not. *)
Inductive Response (A : Type) :=
| json (body : A)
| failure (code : nat) (error : string).
Arguments json {A} body.
Arguments failure {A} code error.

(** [getSessionMessages], for the route parameter [sessionId]. *)
Definition getSessionMessages (sessionId : string) (d : Db)
  : Response (list Message.t) :=
  if negb (Js.truthy (Some sessionId)) then failure 400 "Session ID is required"
  else json (getMessagesBySession sessionId d).

(** [getSessionById]. *)
Definition getSessionById (sessionId : string) (d : Db) : Response ChatSession.t :=
  if negb (Js.truthy (Some sessionId)) then failure 400 "Session ID is required"
  else match getSession sessionId d with
       | None => failure 404 "Session not found"
       | Some session => json session
       end.

(** [toggleAiForSession], with its answer: [enabled] is [None] when the
    body has no boolean under that name; the body of the answer is
    [{ session_id, ai_enabled }]. *)
Definition toggleAiForSession (now : nat) (sessionId : string)
    (enabled : option bool) (d : Db) : Db * Response (string * bool) :=
  match enabled with
  | None => (d, failure 400 "enabled (boolean) is required")
  | Some enabled =>
      match getSession sessionId d with
      | None => (d, failure 404 "Session not found")
      | Some session =>
          (toggleAiForSession now sessionId enabled d, json (sessionId, enabled))
      end
  end.

End Controller.

(** ** The Session Registry and the Broadcast Router: Socket.IO rooms *)

(** The in-memory adapter: for every room the set of connections in it. A
    room that is not in the map has no member. The private room every socket
    has under its own id is left out: a socket id never starts with
    ["session:"]. *)
Record State := mkState {
  db : Db;
  rooms : gmap string (gset nat)
}.

Definition set_db (st : State) (d : Db) : State := mkState d (rooms st).

(** [io.in(room).fetchSockets()]. *)
Definition fetchSockets (room : string) (st : State) : list nat :=
  elements (default ∅ (rooms st !! room)).

(** [socket.rooms]: the rooms the connection is in. *)
Definition socket_rooms (c : nat) (st : State) : list string :=
  List.filter (fun room => bool_decide (c ∈ default ∅ (rooms st !! room)))
              (map_to_list (rooms st)).*1.

(** [socket.join(room)]. *)
Definition join (c : nat) (room : string) (st : State) : State :=
  mkState (db st) (<[room := {[c]} ∪ default ∅ (rooms st !! room)]> (rooms st)).

(** [socket.leaveAll()], which Socket.IO runs when a connection closes. *)
Definition leaveAll (c : nat) (st : State) : State :=
  mkState (db st) ((fun members => members ∖ {[c]}) <$> rooms st).

Definition session_room (sessionId : string) : string :=
  String.append "session:" sessionId.

(** ** Events *)

(** The payload of [message:user] and [message:admin] as it arrives. The
    fields [senderType] and [isAi] of [ChatMessage] are never read. *)
Record ChatMessage := mkChatMessage {
  sessionId : option string;
  message : option string;
  sender : option string;
  attachmentUrl : option string;
  attachmentType : option string
}.

(** The events whose listener reads its parameter [data]. *)
Inductive Event :=
| ev_user_connect
| ev_message_user
| ev_message_admin
| ev_typing_start
| ev_typing_stop
| ev_session_close.

(** An inbound event with its payload object, or with none: [no_data e] is
    the event [e] sent without an argument (or with [null]), so that the
    parameter [data] of the listener is not an object. *)
Inductive Inbound :=
| user_connect (sessionId userIp userAgent : option string)
| message_user (data : ChatMessage)
| message_admin (data : ChatMessage)
| admin_join
| typing_start (sessionId : option string) (senderType : option SenderType)
| typing_stop (sessionId : option string) (senderType : option SenderType)
| session_close (sessionId : option string)
| disconnect
| no_data (event : Event).

(** The object sent with [message:new], [message:received] and
    [message:sent]; [timestamp] stands for the ISO-8601 rendering of the
    creation time. *)
Record MessageData := mkMessageData {
  md_sessionId : string;
  md_message : string;
  md_sender : string;
  md_senderType : SenderType;
  md_isAi : bool;
  md_attachmentUrl : option string;
  md_attachmentType : option string;
  md_timestamp : nat
}.

Inductive Payload :=
| no_payload
| session_payload (sessionId : string)        (* { sessionId } *)
| error_payload (message : string)            (* { message } *)
| message_payload (d : MessageData).

Inductive Target :=
| to_socket (c : nat)            (* socket.emit *)
| to_room (room : string).       (* io.to(room).emit *)

Inductive JsError := TypeError.

(** What a handler does that is visible outside it, in order: a message row
    written by [createMessage], an event sent, or an exception that leaves
    the listener because nothing in it catches it. *)
Inductive Action :=
| persisted (m : Message.t)
| emit (to : Target) (event : string) (p : Payload)
| throws (e : JsError).

(** ** The Reply Generator and the environment of a handler run *)

(** The outcome of the completion request: it fails (transport error, a
    response that is not ok, an API error with its HTTP status), or it answers
    with the content of the first choice, which may be missing. *)
Inductive Reply :=
| generator_error (http_status : option nat)
| completion (content : option string).

Record Env := mkEnv {
  now : nat;                    (* new Date() when the event is handled *)
  later : nat;                  (* new Date() when the reply is stored *)
  uuidv4 : string;              (* the identifier uuidv4() would mint *)
  api_key : option string;      (* process.env.OPENAI_API_KEY / GROQ_API_KEY *)
  reply : Reply
}.

(** The two versions of the handler file differ in the AI-reply step only. *)
Inductive Variant :=
| OpenAI      (* src/socket/socket.ts *)
| Groq.       (* the second copy of socket.ts, with the Groq SDK *)

(** ** The Session Engine: [setupSocketIO] *)

Definition text (x : option string) : string := default "" x.

Definition invalid_message_data (c : nat) : Action :=
  emit (to_socket c) "error" (error_payload "Invalid message data").

Definition failed_to_send (c : nat) : Action :=
  emit (to_socket c) "error" (error_payload "Failed to send message").

Definition failed_to_connect (c : nat) : Action :=
  emit (to_socket c) "error" (error_payload "Failed to establish connection").

(** [messageData], built from the saved row. *)
Definition messageData (sessionId : string) (senderType : SenderType)
    (saved : Message.t) : MessageData :=
  mkMessageData sessionId (Message.message saved) (Message.sender saved) senderType
    (Message.isAi saved) (Message.attachmentUrl saved) (Message.attachmentType saved)
    (Message.createdAt saved).

(** [aiMessageData]: the sender and the flag are written as literals and the
    object has no attachment field. *)
Definition aiMessageData (sessionId : string) (aiSaved : Message.t) : MessageData :=
  mkMessageData sessionId (Message.message aiSaved) "AI" admin true None None
    (Message.createdAt aiSaved).

Definition typing_admin (sessionId : string) : Action :=
  emit (to_room (session_room sessionId)) "typing:admin" no_payload.

Definition typing_admin_stop (sessionId : string) : Action :=
  emit (to_room (session_room sessionId)) "typing:admin:stop" no_payload.

(** The arguments of the [createMessage] call that stores the reply. *)
Definition aiArgs (sessionId aiText : string) : MessageArgs :=
  mkArgs sessionId aiText "AI" admin (Some true) None None.

(** The inner [try] of the [message:user] handler, entered after the user's
    message was saved, broadcast and acknowledged. A failed request and a
    failed [createMessage] are thrown into a [catch] that emits
    [typing:admin:stop]. When the completion has no text, the OpenAI version
    does nothing more (its [if (aiText)] has no [else] branch), while the
    Groq version throws into the [catch]. *)
Definition ai_reply (v : Variant) (env : Env) (sessionId : string) (st : State)
  : State * list Action :=
  let session := getSession sessionId (db st) in
  let aiEnabled := from_option ChatSession.aiEnabled false session in
  if aiEnabled && Js.truthy (api_key env) then
    match reply env with
    | generator_error _ =>
        (st, [typing_admin sessionId; typing_admin_stop sessionId])
    | completion content =>
        let aiText := Js.trim <$> content in
        if Js.truthy aiText then
          match createMessage (later env) (aiArgs sessionId (text aiText)) (db st) with
          | Ok (d, aiSaved) =>
              (set_db st d,
               [typing_admin sessionId;
                persisted aiSaved;
                emit (to_room (session_room sessionId)) "message:received"
                     (message_payload (aiMessageData sessionId aiSaved));
                emit (to_room "admin") "message:new"
                     (message_payload (aiMessageData sessionId aiSaved));
                typing_admin_stop sessionId])
          | Throw _ =>
              (st, [typing_admin sessionId; typing_admin_stop sessionId])
          end
        else
          match v with
          | OpenAI => (st, [typing_admin sessionId])
          | Groq => (st, [typing_admin sessionId; typing_admin_stop sessionId])
          end
    end
  else (st, []).

(** [socket.on('user:connect', ...)]. *)
Definition on_user_connect (env : Env) (c : nat)
    (sessionId userIp userAgent : option string) (st : State)
  : State * list Action :=
  let sessionId := Js.or_else sessionId (uuidv4 env) in
  match createOrUpdateSession (now env)
          (mkSessionData sessionId
             (Some (Js.or_else userIp "unknown"))
             (Some (Js.or_else userAgent "unknown"))
             (Some active))
          (db st) with
  | Ok d =>
      (join c (session_room sessionId) (set_db st d),
       [emit (to_socket c) "user:connected" (session_payload sessionId)])
  | Throw _ =>
      (st, [emit (to_socket c) "error" (error_payload "Failed to establish connection")])
  end.

(** The arguments of the [createMessage] call of a message handler;
    [fallback] is ['User'] or ['Admin']. *)
Definition messageArgs (data : ChatMessage) (senderType : SenderType)
    (fallback : string) : MessageArgs :=
  mkArgs (text (sessionId data)) (Js.trim (text (message data)))
    (Js.or_else (sender data) fallback) senderType (Some false)
    (attachmentUrl data) (attachmentType data).

(** [!sessionId || !message || !message.trim()]. *)
Definition invalid (data : ChatMessage) : bool :=
  negb (Js.truthy (sessionId data)) || negb (Js.truthy (message data))
  || negb (Js.truthy (Some (Js.trim (text (message data))))).

(** [socket.on('message:user', ...)]. *)
Definition on_message_user (v : Variant) (env : Env) (c : nat)
    (data : ChatMessage) (st : State) : State * list Action :=
  if invalid data then (st, [invalid_message_data c])
  else
    match createMessage (now env) (messageArgs data user "User") (db st) with
    | Ok (d, savedMessage) =>
        let md := messageData (text (sessionId data)) user savedMessage in
        let '(st', ai) := ai_reply v env (text (sessionId data)) (set_db st d) in
        (st',
         ([persisted savedMessage;
           emit (to_room "admin") "message:new" (message_payload md);
           emit (to_socket c) "message:sent" (message_payload md)] ++ ai))
    | Throw _ => (st, [failed_to_send c])
    end.

(** [socket.on('message:admin', ...)]. *)
Definition on_message_admin (env : Env) (c : nat)
    (data : ChatMessage) (st : State) : State * list Action :=
  if invalid data then (st, [invalid_message_data c])
  else
    match createMessage (now env) (messageArgs data admin "Admin") (db st) with
    | Ok (d, savedMessage) =>
        let md := messageData (text (sessionId data)) admin savedMessage in
        (set_db st d,
         [persisted savedMessage;
          emit (to_room (session_room (text (sessionId data)))) "message:received"
               (message_payload md);
          emit (to_socket c) "message:sent" (message_payload md)])
    | Throw _ => (st, [failed_to_send c])
    end.

(** [socket.on('admin:join', ...)]. *)
Definition on_admin_join (c : nat) (st : State) : State * list Action :=
  (join c "admin" st, []).

(** [socket.on('typing:start', ...)], for a payload object. *)
Definition on_typing_start (sessionId : option string)
    (senderType : option SenderType) (st : State) : State * list Action :=
  if negb (Js.truthy sessionId) || negb (bool_decide (is_Some senderType))
  then (st, [])
  else if bool_decide (senderType = Some user)
  then (st, [emit (to_room "admin") "typing:user" (session_payload (text sessionId))])
  else (st, [emit (to_room (session_room (text sessionId))) "typing:admin" no_payload]).

(** [socket.on('typing:stop', ...)], for a payload object. *)
Definition on_typing_stop (sessionId : option string)
    (senderType : option SenderType) (st : State) : State * list Action :=
  if negb (Js.truthy sessionId) || negb (bool_decide (is_Some senderType))
  then (st, [])
  else if bool_decide (senderType = Some user)
  then (st, [emit (to_room "admin") "typing:user:stop" (session_payload (text sessionId))])
  else (st, [emit (to_room (session_room (text sessionId))) "typing:admin:stop" no_payload]).

(** [socket.on('session:close', ...)]: an error of the update is logged and
    nothing else. *)
Definition on_session_close (env : Env) (sessionId : option string) (st : State)
  : State * list Action :=
  if Js.truthy sessionId then
    match updateSessionStatus (now env) (text sessionId) inactive (db st) with
    | Ok d => (set_db st d, [])
    | Throw _ => (st, [])
    end
  else (st, []).

(** A listener called without a payload object. The first thing every one of
    the six listeners does with [data] is to read a property of it
    ([data.sessionId], or the destructuring of [data]), which throws a
    [TypeError]. The asynchronous listeners do so inside their [try], whose
    [catch] answers with the [error] event of the listener ([session:close]
    only logs). The listeners of [typing:start] and [typing:stop] have no
    [try]: the exception leaves them. *)
Definition on_no_data (c : nat) (event : Event) (st : State) : State * list Action :=
  match event with
  | ev_user_connect => (st, [failed_to_connect c])
  | ev_message_user | ev_message_admin => (st, [failed_to_send c])
  | ev_typing_start | ev_typing_stop => (st, [throws TypeError])
  | ev_session_close => (st, [])
  end.

(** The loop of the [disconnect] handler over [Array.from(socket.rooms)]. The
    surrounding [try] ends the loop at the first error. *)
Fixpoint disconnect_cleanup (env : Env) (socket_rooms : list string) (st : State)
  : State :=
  match socket_rooms with
  | [] => st
  | room :: rest =>
      if Js.startsWith room "session:" then
        let sessionId := Js.replace "session:" "" room in
        let roomSockets := fetchSockets room st in
        if length roomSockets =? 0 then
          match updateSessionStatus (now env) sessionId inactive (db st) with
          | Ok d => disconnect_cleanup env rest (set_db st d)
          | Throw _ => st
          end
        else disconnect_cleanup env rest st
      else disconnect_cleanup env rest st
  end.

(** [socket.on('disconnect', ...)], run on the state in which Socket.IO fires
    the event. *)
Definition on_disconnect (env : Env) (c : nat) (st : State) : State * list Action :=
  (disconnect_cleanup env (socket_rooms c st) st, []).

(** Closing a connection. Socket.IO's [Socket._onclose] emits
    [disconnecting], then leaves all rooms ([_cleanup] calls [leaveAll]) and
    only then emits [disconnect], the event the handler is registered for. *)
Definition close_connection (env : Env) (c : nat) (st : State) : State * list Action :=
  on_disconnect env c (leaveAll c st).

(** One inbound event of connection [c], handled to completion. *)
Definition handle (v : Variant) (env : Env) (c : nat) (ev : Inbound) (st : State)
  : State * list Action :=
  match ev with
  | user_connect sessionId userIp userAgent =>
      on_user_connect env c sessionId userIp userAgent st
  | message_user data => on_message_user v env c data st
  | message_admin data => on_message_admin env c data st
  | admin_join => on_admin_join c st
  | typing_start sessionId senderType => on_typing_start sessionId senderType st
  | typing_stop sessionId senderType => on_typing_stop sessionId senderType st
  | session_close sessionId => on_session_close env sessionId st
  | disconnect => close_connection env c st
  | no_data event => on_no_data c event st
  end.

(** An exception left a listener. *)
Definition thrown (t : list Action) : bool :=
  existsb (fun a => match a with throws _ => true | _ => false end) t.

(** A run: the events of a list, each with its connection and environment,
    handled one after the other; the actions are concatenated. The server
    installs no handler for uncaught exceptions, so that Node ends the
    process on the first one: the run stops there. *)
Fixpoint run (v : Variant) (evs : list (Env * nat * Inbound)) (st : State)
  : State * list Action :=
  match evs with
  | [] => (st, [])
  | (env, c, ev) :: rest =>
      let '(st1, t1) := handle v env c ev st in
      if thrown t1 then (st1, t1)
      else
        let '(st2, t2) := run v rest st1 in
        (st2, t1 ++ t2)
  end.

(** ** Observations on a state or on a list of actions *)

(** The status of the row stored under [key]. *)
Definition status_of (key : string) (st : State) : option SessionStatus :=
  ChatSession.status <$> chat_sessions (db st) !! key.

Definition members (room : string) (st : State) : gset nat :=
  default ∅ (rooms st !! room).

(** The message rows written during a run of actions, in order. *)
Definition persisted_rows (t : list Action) : list Message.t :=
  omap (fun a => match a with persisted m => Some m | _ => None end) t.

Definition empty_state : State := mkState (mkDb ∅ []) ∅.

(** ** Notions used in the statements *)

(** The value the column [session_id] holds for the session id [sid], if it
    takes it. For an id without code unit 0 and of at most 255 characters
    that is [sid] itself. *)
Definition stored_id (sid : string) : option string :=
  Pg.varchar 255 (Pg.escape sid).

(** An action of the AI-reply step: the row of an automated message, a typing
    signal to a room, or an automated message sent to a room. *)
Definition automated_only (a : Action) : Prop :=
  match a with
  | persisted m => Message.isAi m = true
  | emit (to_room _) _ no_payload => True
  | emit (to_room _) _ (message_payload md) => md_isAi md = true
  | _ => False
  end.

(** The step goes past the composing signal exactly when the session has its
    auto-reply flag on and a key is configured. *)
Definition composing (env : Env) (sid : string) (st : State) : Prop :=
  ChatSession.aiEnabled <$> getSession sid (db st) = Some true
  /\ Js.truthy (api_key env) = true.

(** The completion arrives and has no text after trimming (no choice, no
    content, or white space only). *)
Definition no_text (r : Reply) : Prop :=
  match r with
  | generator_error _ => False
  | completion content => Js.truthy (Js.trim <$> content) = false
  end.

(** The answer has text, and the store rejects the row made of it. *)
Definition reply_rejected (env : Env) (sid : string) (st : State) : Prop :=
  exists content e,
    reply env = completion content
    /\ Js.truthy (Js.trim <$> content) = true
    /\ createMessage (later env) (aiArgs sid (text (Js.trim <$> content))) (db st)
       = Throw e.

(** The session an event is about: the one [user:connect] assigns, the one
    the payload of a message, typing or close event names. *)
Definition event_session (env : Env) (ev : Inbound) : option string :=
  match ev with
  | user_connect s _ _ => Some (Js.or_else s (uuidv4 env))
  | message_user data | message_admin data => sessionId data
  | typing_start s _ | typing_stop s _ | session_close s => s
  | admin_join | disconnect | no_data _ => None
  end.

(** Two stores have the same sessions, with the same auto-reply flags. *)
Definition same_flags (d1 d2 : Db) : Prop :=
  forall k, ChatSession.aiEnabled <$> chat_sessions d1 !! k
            = ChatSession.aiEnabled <$> chat_sessions d2 !! k.

(** A row of [messages] as the gateway leaves one: the row that the columns
    make of values that pass the validators of the model. *)
Definition accepted_row (m : Message.t) : Prop :=
  exists values, message_validate values = true /\ message_columns values = Some m.

(** Every stored message is such a row and belongs to a session that has a
    record. *)
Definition store_consistent (d : Db) : Prop :=
  Forall (fun m => accepted_row m
                   /\ is_Some (chat_sessions d !! Message.sessionId m))
         (messages d).

(** Every message sent in a list of actions was written earlier in the
    list, or is one of [seen]: it is sent with the body, the author, the
    author class, the automated flag, the attachment fields and the creation
    time of the stored row, under the session id of which the row holds the
    stored form. *)
Fixpoint stored_before (seen : list Message.t) (t : list Action) : Prop :=
  match t with
  | [] => True
  | persisted m :: rest => stored_before (m :: seen) rest
  | emit _ _ (message_payload md) :: rest =>
      (exists m, In m seen
                 /\ md = messageData (md_sessionId md) (Message.senderType m) m
                 /\ stored_id (md_sessionId md) = Some (Message.sessionId m))
      /\ stored_before seen rest
  | _ :: rest => stored_before seen rest
  end.



(** ** Scenarios *)

Module Scenario.

(** No API key, no reply. *)
Definition quiet : Env := mkEnv 7 7 "0b9d6c1e" None (completion None).

(** A key is configured and the generator answers with [content]. *)
Definition answering (content : option string) : Env :=
  mkEnv 9 12 "0b9d6c1e" (Some "key") (completion content).

(** Connection 1 has sent [user:connect { sessionId: "s1" }]. *)
Definition one_session : State :=
  (handle OpenAI quiet 1 (user_connect (Some "s1") None None) empty_state).1.

(** The same, after auto-reply was switched on for the session. *)
Definition one_session_ai : State :=
  set_db one_session (toggleAiForSession 8 "s1" true (db one_session)).

(** Connections 1 and 2 have both sent [user:connect { sessionId: "s1" }]. *)
Definition two_tabs : State :=
  (handle OpenAI quiet 2 (user_connect (Some "s1") None None) one_session).1.

Definition hello : ChatMessage :=
  mkChatMessage (Some "s1") (Some " Hello ") (Some "Alice") None None.

End Scenario.

(** * Properties *)

(** ** JavaScript strings *)

Section JsFacts.

Lemma trimStart_blank s : Js.blank s = true -> Js.trimStart s = "".
Proof.
  induction s as [|c r IH]; simpl; [done|].
  destruct (Js.is_ws c); simpl; [exact IH | discriminate].
Qed.

Lemma trimStart_not_blank s :
  Js.blank s = false ->
  exists c r, Js.trimStart s = String c r /\ Js.is_ws c = false.
Proof.
  induction s as [|c r IH]; simpl; [discriminate|].
  destruct (Js.is_ws c) eqn:Hc; simpl; [exact IH|].
  intros _. by exists c, r.
Qed.

Lemma trimEnd_head c r : Js.is_ws c = false -> Js.trimEnd (String c r) <> "".
Proof.
  intros Hc. simpl. destruct (Js.trimEnd r); [by rewrite Hc | discriminate].
Qed.

(** [s.trim()] is the empty string exactly for the strings made of white
    space only. *)
Lemma trim_empty_iff s : Js.trim s = "" <-> Js.blank s = true.
Proof.
  unfold Js.trim. split.
  - intros Ht. destruct (Js.blank s) eqn:Hb; [done|].
    destruct (trimStart_not_blank s Hb) as (c & r & Hs & Hc).
    rewrite Hs in Ht. by apply trimEnd_head in Ht.
  - intros Hb. by rewrite trimStart_blank.
Qed.

Lemma truthy_Some s : Js.truthy (Some s) = true <-> s <> "".
Proof.
  simpl. destruct (String.eqb_spec s ""); simpl; split; congruence.
Qed.

Lemma truthy_false x : Js.truthy x = false <-> x = None \/ x = Some "".
Proof.
  destruct x as [s|]; simpl.
  - destruct (String.eqb_spec s ""); simpl; split; try congruence.
    + intros _. right. congruence.
    + intros [?|?]; congruence.
  - split; [by left | done].
Qed.

Lemma or_else_falsy x d : Js.truthy x = false -> Js.or_else x d = d.
Proof.
  destruct x as [s|]; simpl; [|done].
  by destruct (String.eqb s "").
Qed.

Lemma trimEnd_idempotent s : Js.trimEnd (Js.trimEnd s) = Js.trimEnd s.
Proof.
  induction s as [|c r IH]; simpl; [done|].
  destruct (Js.trimEnd r) as [|c' r'] eqn:Hr.
  - destruct (Js.is_ws c) eqn:Hc; simpl; [done|]. by rewrite Hc.
  - simpl in *. by rewrite IH.
Qed.

Lemma trimStart_head c r : Js.is_ws c = false -> Js.trimStart (String c r) = String c r.
Proof. intros Hc. simpl. by rewrite Hc. Qed.

Lemma trimEnd_keeps_head c r :
  Js.is_ws c = false -> exists r', Js.trimEnd (String c r) = String c r'.
Proof.
  intros Hc. simpl. destruct (Js.trimEnd r); rewrite ?Hc; by eexists.
Qed.

(** A trimmed string is left as it is by [trim]. *)
Lemma trim_idempotent s : Js.trim (Js.trim s) = Js.trim s.
Proof.
  unfold Js.trim. destruct (Js.blank s) eqn:Hb.
  { by rewrite (trimStart_blank s Hb). }
  destruct (trimStart_not_blank s Hb) as (c & r & -> & Hc).
  destruct (trimEnd_keeps_head c r Hc) as [r' Hr'].
  rewrite Hr', (trimStart_head c r' Hc), <- Hr'. apply trimEnd_idempotent.
Qed.

Lemma length_trimStart s : String.length (Js.trimStart s) <= String.length s.
Proof.
  induction s as [|c r IH]; simpl; [done|].
  destruct (Js.is_ws c); simpl; lia.
Qed.

Lemma length_trimEnd s : String.length (Js.trimEnd s) <= String.length s.
Proof.
  induction s as [|c r IH]; simpl; [done|].
  destruct (Js.trimEnd r); [destruct (Js.is_ws c)|]; simpl in *; lia.
Qed.

Lemma length_trim s : String.length (Js.trim s) <= String.length s.
Proof.
  unfold Js.trim. pose proof (length_trimEnd (Js.trimStart s)).
  pose proof (length_trimStart s). lia.
Qed.

Lemma trim_not_blank s : Js.trim s <> "" -> Js.blank (Js.trim s) = false.
Proof.
  intros Hne. unfold Js.trim in *.
  destruct (Js.blank s) eqn:Hb.
  { rewrite (trimStart_blank s Hb) in Hne. done. }
  destruct (trimStart_not_blank s Hb) as (ch & r & -> & Hch).
  simpl. destruct (Js.trimEnd r); rewrite ?Hch; simpl; by rewrite Hch.
Qed.

Lemma length_pos_of_nonempty s : s <> "" -> 1 <= String.length s.
Proof. destruct s; [done | simpl; lia]. Qed.

Lemma or_else_nonempty x d : d <> "" -> Js.or_else x d <> "".
Proof.
  intros Hd. destruct x as [s|]; simpl; [|done].
  by destruct (String.eqb_spec s "").
Qed.

Lemma or_opt_nonempty s y : s <> "" -> Js.or_opt (Some s) y = Some s.
Proof.
  intros Hs. unfold Js.or_opt.
  by rewrite (proj2 (truthy_Some s) Hs).
Qed.

Lemma or_else_supplied x d : Js.truthy x = true -> Some (Js.or_else x d) = x.
Proof.
  destruct x as [s|]; simpl; [|discriminate].
  by destruct (String.eqb s "").
Qed.

Lemma is_Some_or_opt x : is_Some (Js.or_opt x None) <-> Js.truthy x = true.
Proof.
  unfold Js.or_opt. destruct (Js.truthy x) eqn:H.
  - split; [done|]. intros _. destruct x; [by eexists | done].
  - split; [by intros [? ?] | done].
Qed.

Lemma notEmpty_nonempty s : Validator.notEmpty s = true -> s <> "".
Proof. by intros H ->. Qed.

End JsFacts.

(** ** What the database makes of a string *)

Section PgFacts.

Lemma escape_cons c r :
  Pg.escape (String c r)
  = if Ascii.eqb c Pg.NUL then String Pg.backslash (String "0"%char (Pg.escape r))
    else String c (Pg.escape r).
Proof. done. Qed.

Lemma escape_empty s : Pg.escape s = "" <-> s = "".
Proof.
  destruct s as [|c r]; [done|]. rewrite escape_cons.
  by destruct (Ascii.eqb c Pg.NUL).
Qed.

(** A string grows by one character for every code unit 0 in it. *)
Lemma length_escape s :
  String.length s <= String.length (Pg.escape s) <= 2 * String.length s.
Proof.
  induction s as [|c r IH]; [simpl; lia|]. rewrite escape_cons.
  destruct (Ascii.eqb c Pg.NUL); simpl; lia.
Qed.

Lemma clean_escape s : Pg.clean (Pg.escape s) = true.
Proof.
  induction s as [|c r IH]; [done|]. rewrite escape_cons.
  destruct (Ascii.eqb c Pg.NUL) eqn:Hc; cbn [Pg.clean].
  - by rewrite IH.
  - by rewrite Hc, IH.
Qed.

(** A string without code unit 0 reaches the database as it is. *)
Lemma escape_clean s : Pg.clean s = true -> Pg.escape s = s.
Proof.
  induction s as [|c r IH]; [done|]. cbn [Pg.clean]. rewrite escape_cons.
  destruct (Ascii.eqb c Pg.NUL); simpl; [done|]. intros Hr. by rewrite IH.
Qed.

Lemma escape_idempotent s : Pg.escape (Pg.escape s) = Pg.escape s.
Proof. apply escape_clean, clean_escape. Qed.

Lemma blank_escape s : Js.blank (Pg.escape s) = Js.blank s.
Proof.
  induction s as [|c r IH]; [done|]. rewrite escape_cons.
  destruct (Ascii.eqb_spec c Pg.NUL) as [->|Hc]; [done|].
  cbn [Js.blank]. by rewrite IH.
Qed.

Lemma trimStart_escape s : Js.trimStart (Pg.escape s) = Pg.escape (Js.trimStart s).
Proof.
  induction s as [|c r IH]; [done|]. rewrite escape_cons.
  destruct (Ascii.eqb_spec c Pg.NUL) as [->|Hc]; [done|].
  cbn [Js.trimStart]. destruct (Js.is_ws c); [done|].
  rewrite escape_cons. by destruct (Ascii.eqb_spec c Pg.NUL).
Qed.

Lemma trimEnd_escape s : Js.trimEnd (Pg.escape s) = Pg.escape (Js.trimEnd s).
Proof.
  induction s as [|c r IH]; [done|].
  rewrite escape_cons. cbn [Js.trimEnd].
  destruct (Ascii.eqb_spec c Pg.NUL) as [->|Hc].
  - cbn [Js.trimEnd]. rewrite IH.
    destruct (Js.trimEnd r) as [|c' r'] eqn:Hr; [done|].
    destruct (Pg.escape (String c' r')) as [|c2 r2] eqn:He.
    { by apply (proj1 (escape_empty _)) in He. }
    rewrite escape_cons, He. done.
  - cbn [Js.trimEnd]. rewrite IH. destruct (Js.trimEnd r) as [|c' r'] eqn:Hr.
    + cbn [Pg.escape]. destruct (Js.is_ws c); [done|].
      rewrite escape_cons. by destruct (Ascii.eqb_spec c Pg.NUL).
    + destruct (Pg.escape (String c' r')) as [|c2 r2] eqn:He.
      { by apply (proj1 (escape_empty _)) in He. }
      rewrite (escape_cons c), He. by destruct (Ascii.eqb_spec c Pg.NUL).
Qed.

(** Trimming and the rewriting of code unit 0 commute. *)
Lemma trim_escape s : Js.trim (Pg.escape s) = Pg.escape (Js.trim s).
Proof. unfold Js.trim. by rewrite trimStart_escape, trimEnd_escape. Qed.

Lemma length_take n s : String.length (Pg.take n s) <= n.
Proof.
  revert s. induction n as [|n IH]; intros [|c r]; simpl; try lia.
  specialize (IH r). lia.
Qed.

Lemma take_all n s : String.length s <= n -> Pg.take n s = s.
Proof.
  revert s. induction n as [|n IH]; intros [|c r]; simpl; try done; [lia|].
  intros Hl. rewrite IH; [done|lia].
Qed.

Lemma clean_take n s : Pg.clean s = true -> Pg.clean (Pg.take n s) = true.
Proof.
  revert s. induction n as [|n IH]; intros [|c r]; simpl; try done.
  rewrite !andb_true_iff. intros [Hc Hr]. split; [done|]. by apply IH.
Qed.

Lemma blank_take_drop n s :
  Js.blank s = Js.blank (Pg.take n s) && Js.blank (Js.drop n s).
Proof.
  revert s. induction n as [|n IH]; intros [|c r]; simpl; try done.
  by rewrite (IH r), andb_assoc.
Qed.

Lemma spaces_blank s : Pg.spaces s = true -> Js.blank s = true.
Proof.
  induction s as [|c r IH]; [done|]. simpl. rewrite andb_true_iff.
  intros [Hc Hr]. apply Ascii.eqb_eq in Hc. subst c. by rewrite IH.
Qed.

Lemma varchar_Some n s s' :
  Pg.varchar n s = Some s' <->
  (String.length s <= n /\ s' = s)
  \/ (n < String.length s /\ Pg.spaces (Js.drop n s) = true /\ s' = Pg.take n s).
Proof.
  unfold Pg.varchar. destruct (Nat.leb_spec (String.length s) n) as [Hl|Hl].
  - split; [intros [= <-]; by left|]. intros [[_ ->]|[? _]]; [done|lia].
  - destruct (Pg.spaces (Js.drop n s)) eqn:Hsp.
    + split; [intros [= <-]; by right|]. intros [[? _]|(_ & _ & ->)]; [lia|done].
    + split; [done|]. intros [[? _]|(_ & ? & _)]; [lia|done].
Qed.

(** A value within the width of the column is stored as it is. *)
Lemma varchar_fits n s : String.length s <= n -> Pg.varchar n s = Some s.
Proof. intros Hl. apply varchar_Some. by left. Qed.

Lemma varchar_length n s s' : Pg.varchar n s = Some s' -> String.length s' <= n.
Proof.
  rewrite varchar_Some. intros [[? ->]|(_ & _ & ->)]; [done|]. apply length_take.
Qed.

Lemma varchar_clean n s s' :
  Pg.varchar n s = Some s' -> Pg.clean s = true -> Pg.clean s' = true.
Proof.
  rewrite varchar_Some. intros [[? ->]|(_ & _ & ->)]; [done|]. apply clean_take.
Qed.

(** What is cut is white space: the stored value is blank exactly when the
    value written is. *)
Lemma varchar_blank n s s' : Pg.varchar n s = Some s' -> Js.blank s' = Js.blank s.
Proof.
  rewrite varchar_Some. intros [[? ->]|(_ & Hsp & ->)]; [done|].
  rewrite (blank_take_drop n s), (spaces_blank _ Hsp). by rewrite andb_true_r.
Qed.

Lemma varchar_stable n s s' : Pg.varchar n s = Some s' -> Pg.varchar n s' = Some s'.
Proof. intros H. by apply varchar_fits, (varchar_length n s). Qed.

Lemma varchar_null_Some n x y :
  Pg.varchar_null n x = Some y ->
  match x, y with
  | Some s, Some s' => Pg.varchar n s = Some s'
  | None, None => True
  | _, _ => False
  end.
Proof.
  destruct x as [s|]; simpl.
  - destruct (Pg.varchar n s) as [s'|]; simpl; [|done]. by intros [= <-].
  - by intros [= <-].
Qed.

Lemma varchar_null_is_Some n x y :
  Pg.varchar_null n x = Some y -> (is_Some y <-> is_Some x).
Proof.
  intros H. apply varchar_null_Some in H.
  destruct x, y; try done; split; intros [? ?]; by eexists.
Qed.

Lemma varchar_null_fits n x :
  from_option (fun s => String.length s <=? n) true x = true ->
  Pg.varchar_null n x = Some x.
Proof.
  destruct x as [s|]; simpl; [|done]. intros Hl. apply Nat.leb_le in Hl.
  by rewrite varchar_fits.
Qed.

(** The stored form of a session id is a string the database leaves as it
    is: it is its own stored form, and a query for it looks up itself. *)
Lemma stored_id_fixed sid key :
  stored_id sid = Some key ->
  Pg.escape key = key /\ stored_id key = Some key /\ String.length key <= 255.
Proof.
  unfold stored_id. intros H.
  assert (Pg.clean key = true) as Hc by (apply (varchar_clean _ _ _ H), clean_escape).
  rewrite (escape_clean _ Hc). split; [done|]. split.
  - by apply (varchar_stable _ _ _ H).
  - by apply (varchar_length _ _ _ H).
Qed.

(** A session id within the width of the column is stored as the queries
    look it up. *)
Lemma stored_id_fits sid :
  String.length (Pg.escape sid) <= 255 -> stored_id sid = Some (Pg.escape sid).
Proof. apply varchar_fits. Qed.

End PgFacts.

(** ** The validation of a message event *)

(** The check of the two message handlers passes exactly when the session id
    is a non-empty string and the body has a character that is not white
    space. *)
Lemma invalid_false_iff data :
  invalid data = false <->
  exists sid body,
    sessionId data = Some sid /\ sid <> "" /\
    message data = Some body /\ Js.blank body = false.
Proof.
  unfold invalid. rewrite !orb_false_iff, !negb_false_iff. split.
  - intros [[Hs Hm] Ht].
    destruct (sessionId data) as [sid|]; [|done].
    destruct (message data) as [body|]; [|done].
    exists sid, body. repeat split; [by apply truthy_Some|].
    apply truthy_Some in Ht. simpl in Ht.
    destruct (Js.blank body) eqn:Hb; [|done].
    by apply trim_empty_iff in Hb.
  - intros (sid & body & -> & Hsid & -> & Hb). repeat split.
    + by apply truthy_Some.
    + apply truthy_Some. intros ->. done.
    + apply truthy_Some. simpl. intros Ht. apply trim_empty_iff in Ht. congruence.
Qed.

Lemma invalid_true_iff data :
  invalid data = true <->
  Js.truthy (sessionId data) = false \/ message data = None \/
  exists body, message data = Some body /\ Js.blank body = true.
Proof.
  split.
  - intros Hi.
    destruct (Js.truthy (sessionId data)) eqn:Hs; [|by left]. right.
    destruct (message data) as [body|] eqn:Hm; [|by left]. right.
    exists body. split; [done|].
    destruct (Js.blank body) eqn:Hb; [done|].
    assert (invalid data = false) as Hf; [|congruence].
    apply invalid_false_iff.
    destruct (sessionId data) as [sid|]; [|done].
    exists sid, body. repeat split; try done. by apply truthy_Some.
  - intros H. destruct (invalid data) eqn:Hi; [done|].
    apply invalid_false_iff in Hi as (sid & body & Hs & Hsid & Hm & Hb).
    destruct H as [H|[H|(b & H & Hb')]].
    + rewrite Hs in H. apply truthy_Some in Hsid. congruence.
    + congruence.
    + congruence.
Qed.

(** C2. A [message:user] or [message:admin] event whose session id is missing
    (or empty) or whose body is missing, empty or made of white space only
    leaves the whole state as it was, so that no message is persisted, and
    the only action is one [error] event sent to the connection the event
    came from: nothing goes to a room. *)
Theorem C2_invalid_message_rejected
    (v : Variant) (env : Env) (c : nat) (ev : Inbound) (data : ChatMessage)
    (st : State) :
  ev = message_user data \/ ev = message_admin data ->
  (sessionId data = None \/ sessionId data = Some ""
   \/ message data = None
   \/ exists body, message data = Some body /\ Js.blank body = true) ->
  handle v env c ev st
  = (st, [emit (to_socket c) "error" (error_payload "Invalid message data")]).
Proof.
  intros Hev Hbad.
  assert (invalid data = true) as Hi.
  { apply invalid_true_iff. destruct Hbad as [H|[H|[H|H]]].
    - left. apply truthy_false. by left.
    - left. apply truthy_false. by right.
    - right. by left.
    - right. by right. }
  destruct Hev as [-> | ->]; simpl.
  - unfold on_message_user. by rewrite Hi.
  - unfold on_message_admin. by rewrite Hi.
Qed.

Lemma C2_invalid_message_rejected_witness :
  handle Groq (mkEnv 0 0 "u" None (completion None)) 4
    (message_user (mkChatMessage (Some "s1") (Some "   ") (Some "Alice") None None))
    empty_state
  = (empty_state, [emit (to_socket 4) "error" (error_payload "Invalid message data")]).
Proof.
  apply (C2_invalid_message_rejected Groq _ 4 _
           (mkChatMessage (Some "s1") (Some "   ") (Some "Alice") None None)).
  - left. reflexivity.
  - right. right. right. exists "   ". split; reflexivity.
Defined.

(** ** Incomplete signals *)

(** A typing event whose payload object lacks the session id or the author
    class, and a [session:close] event whose payload object lacks the session
    id, change nothing and send nothing. *)
Lemma incomplete_signal_dropped v env c ev st :
  (exists sid ty, (ev = typing_start sid ty \/ ev = typing_stop sid ty)
                  /\ (sid = None \/ sid = Some "" \/ ty = None))
  \/ (exists sid, ev = session_close sid /\ (sid = None \/ sid = Some "")) ->
  handle v env c ev st = (st, []).
Proof.
  intros [(sid & ty & Hev & Hmiss) | (sid & -> & Hmiss)].
  - assert (negb (Js.truthy sid) || negb (bool_decide (is_Some ty)) = true) as Hg.
    { destruct Hmiss as [-> | [-> | ->]]; [done | done |].
      apply orb_true_iff. right. apply negb_true_iff, bool_decide_eq_false.
      by intros [? ?]. }
    destruct Hev as [-> | ->]; simpl;
      unfold on_typing_start, on_typing_stop; by rewrite Hg.
  - simpl. unfold on_session_close.
    assert (Js.truthy sid = false) as -> by (by apply truthy_false). done.
Qed.

(** C10, at the input where the code departs from it. A [typing:start] or
    [typing:stop] event that arrives without a payload has no session id,
    and it is not dropped silently: the listener reads [data.sessionId] of a
    [data] that is [undefined], outside any [try], and the [TypeError] leaves
    the listener uncaught; the state is as before and nothing is sent. The
    listener of [session:close] reads the same property inside its [try]
    and drops the event, as the claim says; and so does every one of the
    three listeners when the payload is an object that lacks the session id
    or, for the typing events, the author class. *)
Theorem C10_typing_without_payload_throws
    (v : Variant) (env : Env) (c : nat) (st : State) :
  handle v env c (no_data ev_typing_start) st = (st, [throws TypeError])
  /\ handle v env c (no_data ev_typing_stop) st = (st, [throws TypeError])
  /\ handle v env c (no_data ev_session_close) st = (st, [])
  /\ (forall sid ty,
        sid = None \/ sid = Some "" \/ ty = None ->
        handle v env c (typing_start sid ty) st = (st, [])
        /\ handle v env c (typing_stop sid ty) st = (st, []))
  /\ (forall sid,
        sid = None \/ sid = Some "" ->
        handle v env c (session_close sid) st = (st, [])).
Proof.
  repeat split; try done.
  - apply incomplete_signal_dropped. left. exists sid, ty. split; [by left|done].
  - apply incomplete_signal_dropped. left. exists sid, ty. split; [by right|done].
  - intros sid Hsid. apply incomplete_signal_dropped. right. by exists sid.
Qed.

(** ** The Persistence Gateway *)

Section Gateway.

Lemma bind_Ok {A B : Type} (r : result A) (k : A -> result B) (b : B) :
  bind r k = Ok b -> exists a, r = Ok a /\ k a = Ok b.
Proof. destruct r as [a|e]; simpl; [eauto | discriminate]. Qed.

Lemma check_Ok (ok : bool) (e : Error) (u : unit) : check ok e = Ok u -> ok = true.
Proof. by destruct ok. Qed.

Lemma written_Ok {A : Type} (x : option A) (a : A) : written x = Ok a <-> x = Some a.
Proof. destruct x; simpl; split; congruence. Qed.

(** The row the columns make of the values of a message. *)
Lemma message_columns_Some m row :
  message_columns m = Some row <->
  exists session_id sender url type,
    stored_id (Message.sessionId m) = Some session_id
    /\ Pg.varchar 50 (Pg.escape (Message.sender m)) = Some sender
    /\ Pg.varchar_null 1024 (Pg.escape <$> Message.attachmentUrl m) = Some url
    /\ Pg.varchar_null 100 (Pg.escape <$> Message.attachmentType m) = Some type
    /\ row = Message.mk session_id (Pg.escape (Message.message m)) sender
               (Message.senderType m) (Message.isAi m) url type (Message.createdAt m).
Proof.
  unfold message_columns, stored_id. split.
  - destruct (Pg.varchar 255 _) as [k|]; [|done].
    destruct (Pg.varchar 50 _) as [n|]; [|done].
    destruct (Pg.varchar_null 1024 _) as [u|]; [|done].
    destruct (Pg.varchar_null 100 _) as [t|]; [|done].
    simpl. intros [= <-]. by exists k, n, u, t.
  - intros (k & n & u & t & -> & -> & -> & -> & ->). done.
Qed.

Lemma message_columns_fields m row :
  message_columns m = Some row ->
  stored_id (Message.sessionId m) = Some (Message.sessionId row)
  /\ Message.message row = Pg.escape (Message.message m)
  /\ Pg.varchar 50 (Pg.escape (Message.sender m)) = Some (Message.sender row)
  /\ Message.senderType row = Message.senderType m
  /\ Message.isAi row = Message.isAi m
  /\ Pg.varchar_null 1024 (Pg.escape <$> Message.attachmentUrl m)
     = Some (Message.attachmentUrl row)
  /\ Pg.varchar_null 100 (Pg.escape <$> Message.attachmentType m)
     = Some (Message.attachmentType row)
  /\ Message.createdAt row = Message.createdAt m.
Proof.
  intros H. apply message_columns_Some in H as (k & n & u & t & ? & ? & ? & ? & ->).
  done.
Qed.

(** What the store requires of the values of a message, and what it then
    holds. *)
Lemma Message_create_Ok d m d' row :
  Message_create d m = Ok (d', row) <->
  message_validate m = true /\ message_columns m = Some row
  /\ is_Some (chat_sessions d !! Message.sessionId row)
  /\ d' = mkDb (chat_sessions d) (messages d ++ [row]).
Proof.
  unfold Message_create. split.
  - intros H.
    apply bind_Ok in H as (u1 & H1 & H). apply check_Ok in H1.
    apply bind_Ok in H as (row' & H2 & H). apply written_Ok in H2.
    apply bind_Ok in H as (u3 & H3 & H). apply check_Ok in H3.
    apply bool_decide_eq_true in H3. by inversion H; subst.
  - intros (H1 & H2 & H3 & ->). rewrite H1, H2. simpl.
    by rewrite (bool_decide_eq_true_2 _ H3).
Qed.

(** A successful [createMessage] appends one row, the one that the columns
    make of its arguments, and writes nothing else: no session is touched. *)
Lemma createMessage_Ok now a d d' row :
  createMessage now a d = Ok (d', row) <->
  message_validate (message_row now a) = true
  /\ message_columns (message_row now a) = Some row
  /\ is_Some (chat_sessions d !! Message.sessionId row)
  /\ d' = mkDb (chat_sessions d) (messages d ++ [row]).
Proof.
  unfold createMessage, touch_session. rewrite <- Message_create_Ok.
  destruct (Message_create d (message_row now a)) as [[d1 m]|e]; [|done].
  split; congruence.
Qed.

Lemma createMessage_sessions now a d d' row :
  createMessage now a d = Ok (d', row) -> chat_sessions d' = chat_sessions d.
Proof. intros H. by apply createMessage_Ok in H as (_ & _ & _ & ->). Qed.

Lemma createMessage_messages now a d d' row :
  createMessage now a d = Ok (d', row) -> messages d' = messages d ++ [row].
Proof. intros H. by apply createMessage_Ok in H as (_ & _ & _ & ->). Qed.

(** The fields of the row a successful [createMessage] returns. *)
Lemma createMessage_row now a d d' row :
  createMessage now a d = Ok (d', row) ->
  stored_id (a_sessionId a) = Some (Message.sessionId row)
  /\ Message.message row = Pg.escape (a_message a)
  /\ Pg.varchar 50 (Pg.escape (a_sender a)) = Some (Message.sender row)
  /\ Message.senderType row = a_senderType a
  /\ Message.isAi row = default false (a_isAi a)
  /\ Pg.varchar_null 1024 (Pg.escape <$> Js.or_opt (a_attachmentUrl a) None)
     = Some (Message.attachmentUrl row)
  /\ Pg.varchar_null 100 (Pg.escape <$> Js.or_opt (a_attachmentType a) None)
     = Some (Message.attachmentType row)
  /\ Message.createdAt row = now.
Proof.
  intros H. apply createMessage_Ok in H as (_ & H & _).
  by apply message_columns_fields in H.
Qed.

(** The row is one the store accepted, for a session that has a record. *)
Lemma createMessage_accepted now a d d' row :
  createMessage now a d = Ok (d', row) ->
  accepted_row row /\ is_Some (chat_sessions d !! Message.sessionId row).
Proof.
  intros H. apply createMessage_Ok in H as (Hv & Hc & Hs & _).
  split; [|done]. by exists (message_row now a).
Qed.

End Gateway.

(** ** The AI-reply step *)

Lemma ai_reply_automated v env sid st :
  Forall automated_only (ai_reply v env sid st).2.
Proof.
  unfold ai_reply.
  destruct (_ && _); [|by constructor].
  destruct (reply env) as [code|content].
  { repeat constructor. }
  destruct (Js.truthy _).
  - destruct (createMessage _ _ _) as [[d aiSaved]|e] eqn:Hc.
    + apply createMessage_row in Hc as (_ & _ & _ & _ & Hai & _).
      repeat constructor. exact Hai.
    + repeat constructor.
  - destruct v; repeat constructor.
Qed.

(** The rows logged by the step are the rows it appends to the table. *)
Lemma ai_reply_messages v env sid st :
  messages (db (ai_reply v env sid st).1)
  = messages (db st) ++ persisted_rows (ai_reply v env sid st).2.
Proof.
  unfold ai_reply.
  destruct (_ && _); [|by rewrite app_nil_r].
  destruct (reply env) as [code|content]; [by rewrite app_nil_r|].
  destruct (Js.truthy _).
  - destruct (createMessage _ _ _) as [[d aiSaved]|e] eqn:Hc.
    + apply createMessage_messages in Hc. simpl. by rewrite Hc.
    + by rewrite app_nil_r.
  - destruct v; by rewrite app_nil_r.
Qed.

Lemma ai_reply_sessions v env sid st :
  chat_sessions (db (ai_reply v env sid st).1) = chat_sessions (db st).
Proof.
  unfold ai_reply.
  destruct (_ && _); [|done].
  destruct (reply env) as [code|content]; [done|].
  destruct (Js.truthy _).
  - destruct (createMessage _ _ _) as [[d aiSaved]|e] eqn:Hc; [|done].
    simpl. by apply createMessage_sessions in Hc.
  - by destruct v.
Qed.

Lemma ai_reply_rooms v env sid st : rooms (ai_reply v env sid st).1 = rooms st.
Proof.
  unfold ai_reply.
  destruct (_ && _); [|done].
  destruct (reply env) as [code|content]; [done|].
  destruct (Js.truthy _).
  - by destruct (createMessage _ _ _) as [[d aiSaved]|e].
  - by destruct v.
Qed.

(** ** The log of writes *)

Lemma session_update_messages now sid s st ip agent d d' :
  session_update now sid s st ip agent d = Ok d' -> messages d' = messages d.
Proof.
  unfold session_update. case_bool_decide as Hsame; [by intros [= <-]|].
  intros Hw. by apply bind_Ok in Hw as (u & _ & [= <-]).
Qed.

Lemma session_set_status_messages now key s st d :
  messages (session_set_status now key s st d) = messages d.
Proof. unfold session_set_status. by case_bool_decide. Qed.

Lemma createOrUpdateSession_messages now sd d d' :
  createOrUpdateSession now sd d = Ok d' -> messages d' = messages d.
Proof.
  unfold createOrUpdateSession.
  destruct (chat_sessions d !! Pg.escape (sd_sessionId sd)) as [s|].
  - apply session_update_messages.
  - intros H. apply bind_Ok in H as (u1 & _ & H).
    apply bind_Ok in H as (row & _ & H).
    by apply bind_Ok in H as (u2 & _ & [= <-]).
Qed.

Lemma updateSessionStatus_messages now sid st d d' :
  updateSessionStatus now sid st d = Ok d' -> messages d' = messages d.
Proof.
  unfold updateSessionStatus.
  destruct (chat_sessions d !! Pg.escape sid) as [s|]; [|done].
  intros [= <-]. apply session_set_status_messages.
Qed.

Lemma disconnect_cleanup_messages env rs st :
  messages (db (disconnect_cleanup env rs st)) = messages (db st).
Proof.
  revert st. induction rs as [|room rest IH]; intros st; simpl; [done|].
  destruct (Js.startsWith room "session:"); [|apply IH].
  destruct (length (fetchSockets room st) =? 0); [|apply IH].
  destruct (updateSessionStatus _ _ _ _) as [d|e] eqn:Hu; [|done].
  rewrite IH. simpl. by apply updateSessionStatus_messages in Hu.
Qed.

Lemma on_no_data_state c event st : (on_no_data c event st).1 = st.
Proof. by destruct event. Qed.

Lemma on_no_data_rows c event st : persisted_rows (on_no_data c event st).2 = [].
Proof. by destruct event. Qed.

(** The [persisted] entries of the actions of an event are exactly the rows
    the event appends to the table of messages, in order; no event removes
    or changes a stored message. *)
Lemma handle_messages v env c ev st :
  messages (db (handle v env c ev st).1)
  = messages (db st) ++ persisted_rows (handle v env c ev st).2.
Proof.
  destruct ev as [s ip ua|data|data| |s ty|s ty|s| |event]; unfold handle.
  - unfold on_user_connect.
    destruct (createOrUpdateSession _ _ _) as [d|e] eqn:Hc; simpl;
      [|by rewrite app_nil_r].
    apply createOrUpdateSession_messages in Hc. by rewrite Hc, app_nil_r.
  - unfold on_message_user. destruct (invalid data); [by rewrite app_nil_r|].
    destruct (createMessage _ _ _) as [[d saved]|e] eqn:Hc; [|by rewrite app_nil_r].
    pose proof (ai_reply_messages v env (text (sessionId data)) (set_db st d)) as Hai.
    destruct (ai_reply v env (text (sessionId data)) (set_db st d)) as [st' ai].
    simpl in *. apply createMessage_messages in Hc.
    rewrite Hai, Hc. by rewrite <- app_assoc.
  - unfold on_message_admin. destruct (invalid data); [by rewrite app_nil_r|].
    destruct (createMessage _ _ _) as [[d saved]|e] eqn:Hc; [|by rewrite app_nil_r].
    simpl. by apply createMessage_messages in Hc.
  - simpl. by rewrite app_nil_r.
  - unfold on_typing_start. destruct (_ || _); [by rewrite app_nil_r|].
    destruct (bool_decide _); by rewrite app_nil_r.
  - unfold on_typing_stop. destruct (_ || _); [by rewrite app_nil_r|].
    destruct (bool_decide _); by rewrite app_nil_r.
  - unfold on_session_close. destruct (Js.truthy s); [|by rewrite app_nil_r].
    destruct (updateSessionStatus _ _ _ _) as [d|e] eqn:Hu; simpl;
      [|by rewrite app_nil_r].
    apply updateSessionStatus_messages in Hu. by rewrite Hu, app_nil_r.
  - unfold close_connection, on_disconnect. simpl.
    by rewrite disconnect_cleanup_messages, app_nil_r.
  - by rewrite on_no_data_state, on_no_data_rows, app_nil_r.
Qed.

(** ** Message events *)

Section MessageEvents.

Variables (v : Variant) (env : Env) (c : nat) (data : ChatMessage) (st : State).
Variables (sid body : string).
Hypothesis session_id_present : sessionId data = Some sid /\ sid <> "".
Hypothesis body_not_blank : message data = Some body /\ Js.trim body <> "".

Lemma passes_validation : invalid data = false.
Proof using session_id_present body_not_blank.
  destruct session_id_present as [Hs Hne], body_not_blank as [Hm Hb].
  apply invalid_false_iff. exists sid, body. repeat split; try done.
  destruct (Js.blank body) eqn:Hbl; [|done].
  by apply trim_empty_iff in Hbl.
Qed.

Lemma messageArgs_eq ty fallback :
  messageArgs data ty fallback
  = mkArgs sid (Js.trim body) (Js.or_else (sender data) fallback) ty (Some false)
      (attachmentUrl data) (attachmentType data).
Proof using session_id_present body_not_blank.
  destruct session_id_present as [Hs _], body_not_blank as [Hb _].
  unfold messageArgs. by rewrite Hs, Hb.
Qed.

(** The conditions under which the store takes the row of the event, and the
    row it then holds. *)
Lemma message_event_stored now ty fallback d d' saved :
  createMessage now (messageArgs data ty fallback) d = Ok (d', saved) <->
  exists key name url type,
    String.length (Js.trim body) <= 5001
    /\ Validator.notEmpty (Js.or_else (sender data) fallback) = true
    /\ String.length (Js.or_else (sender data) fallback) <= 50
    /\ stored_id sid = Some key /\ is_Some (chat_sessions d !! key)
    /\ Pg.varchar 50 (Pg.escape (Js.or_else (sender data) fallback)) = Some name
    /\ Pg.varchar_null 1024 (Pg.escape <$> Js.or_opt (attachmentUrl data) None) = Some url
    /\ Pg.varchar_null 100 (Pg.escape <$> Js.or_opt (attachmentType data) None) = Some type
    /\ saved = Message.mk key (Pg.escape (Js.trim body)) name ty false url type now
    /\ d' = mkDb (chat_sessions d) (messages d ++ [saved]).
Proof using session_id_present body_not_blank.
  destruct body_not_blank as [_ Hb].
  rewrite createMessage_Ok, messageArgs_eq, message_columns_Some.
  unfold message_row, message_validate, Validator.len. cbn [a_sessionId a_message
    a_sender a_senderType a_isAi a_attachmentUrl a_attachmentType default
    Message.sessionId Message.message Message.sender Message.senderType
    Message.isAi Message.attachmentUrl Message.attachmentType Message.createdAt].
  unfold Validator.notEmpty at 1. rewrite (trim_not_blank body Hb).
  pose proof (length_pos_of_nonempty _ Hb) as Hpos.
  rewrite !andb_true_iff, !Nat.leb_le. split.
  - intros ((((_ & _ & Hlen) & Hne) & _ & Hnlen) & (k & n & u & t & Hk & Hn & Hu & Ht & ->)
            & Hs & ->).
    exists k, n, u, t. by repeat split.
  - intros (k & n & u & t & Hlen & Hne & Hnlen & Hk & Hs & Hn & Hu & Ht & -> & ->).
    split; [|split; [by exists k, n, u, t|by split]].
    repeat split; try done.
    by apply length_pos_of_nonempty, notEmpty_nonempty.
Qed.

Lemma on_message_user_eq :
  on_message_user v env c data st
  = match createMessage (now env) (messageArgs data user "User") (db st) with
    | Ok (d, saved) =>
        ((ai_reply v env sid (set_db st d)).1,
         [persisted saved;
          emit (to_room "admin") "message:new"
               (message_payload (messageData sid user saved));
          emit (to_socket c) "message:sent"
               (message_payload (messageData sid user saved))]
         ++ (ai_reply v env sid (set_db st d)).2)
    | Throw _ => (st, [failed_to_send c])
    end.
Proof using session_id_present body_not_blank.
  unfold on_message_user. rewrite passes_validation.
  destruct session_id_present as [-> _]. simpl.
  destruct (createMessage _ _ _) as [[d saved]|e]; [|done].
  by destruct (ai_reply v env sid (set_db st d)).
Qed.

Lemma on_message_admin_eq :
  on_message_admin env c data st
  = match createMessage (now env) (messageArgs data admin "Admin") (db st) with
    | Ok (d, saved) =>
        (set_db st d,
         [persisted saved;
          emit (to_room (session_room sid)) "message:received"
               (message_payload (messageData sid admin saved));
          emit (to_socket c) "message:sent"
               (message_payload (messageData sid admin saved))])
    | Throw _ => (st, [failed_to_send c])
    end.
Proof using session_id_present body_not_blank.
  unfold on_message_admin. rewrite passes_validation.
  destruct session_id_present as [-> _]. simpl.
  by destruct (createMessage _ _ _) as [[d saved]|e].
Qed.

End MessageEvents.

(** C1 (amended). A [message:user] or [message:admin] event with a session id
    and a body that is not empty after trimming is stored and sent exactly
    when the store takes its row, that is when: the trimmed body has at most
    5001 characters; the effective author name is not blank and has at most
    50 characters; the database has a session record under the stored form
    of the session id; and the author name and the attachment fields, as the
    database receives them, fit their columns. Then exactly one row is
    appended, with the body, the name and the attachment fields in their
    stored form, the author class of the event and the automated flag off;
    the write comes first, then one broadcast of the stored message
    ([message:new] to the admin room for a user message, [message:received]
    to the room of the session for an admin message), then [message:sent] to
    the sender; for a user message the actions of the AI-reply step follow,
    and they concern automated messages only. Otherwise nothing is written
    or broadcast, the state is as before and the sender gets one [error]
    event. *)
Theorem C1_message_persisted_then_broadcast
    (v : Variant) (env : Env) (c : nat) (data : ChatMessage) (st : State)
    (sid body : string) (ty : SenderType) :
  sessionId data = Some sid -> sid <> "" ->
  message data = Some body -> Js.trim body <> "" ->
  let fallback := match ty with user => "User" | admin => "Admin" end in
  let ev := match ty with user => message_user data | admin => message_admin data end in
  let name := Js.or_else (sender data) fallback in
  (forall key name' url type,
     String.length (Js.trim body) <= 5001 ->
     Validator.notEmpty name = true -> String.length name <= 50 ->
     stored_id sid = Some key -> is_Some (chat_sessions (db st) !! key) ->
     Pg.varchar 50 (Pg.escape name) = Some name' ->
     Pg.varchar_null 1024 (Pg.escape <$> Js.or_opt (attachmentUrl data) None) = Some url ->
     Pg.varchar_null 100 (Pg.escape <$> Js.or_opt (attachmentType data) None) = Some type ->
     let saved :=
       Message.mk key (Pg.escape (Js.trim body)) name' ty false url type (now env) in
     let stored :=
       set_db st (mkDb (chat_sessions (db st)) (messages (db st) ++ [saved])) in
     match ty with
     | user =>
         handle v env c ev st
         = ((ai_reply v env sid stored).1,
            [persisted saved;
             emit (to_room "admin") "message:new"
                  (message_payload (messageData sid user saved));
             emit (to_socket c) "message:sent"
                  (message_payload (messageData sid user saved))]
            ++ (ai_reply v env sid stored).2)
         /\ Forall automated_only (ai_reply v env sid stored).2
     | admin =>
         handle v env c ev st
         = (stored,
            [persisted saved;
             emit (to_room (session_room sid)) "message:received"
                  (message_payload (messageData sid admin saved));
             emit (to_socket c) "message:sent"
                  (message_payload (messageData sid admin saved))])
     end)
  /\ (handle v env c ev st = (st, [failed_to_send c])
      \/ exists key name' url type,
           String.length (Js.trim body) <= 5001
           /\ Validator.notEmpty name = true /\ String.length name <= 50
           /\ stored_id sid = Some key /\ is_Some (chat_sessions (db st) !! key)
           /\ Pg.varchar 50 (Pg.escape name) = Some name'
           /\ Pg.varchar_null 1024 (Pg.escape <$> Js.or_opt (attachmentUrl data) None)
              = Some url
           /\ Pg.varchar_null 100 (Pg.escape <$> Js.or_opt (attachmentType data) None)
              = Some type).
Proof.
  intros Hs Hsid Hm Hb fallback ev name.
  pose proof (message_event_stored data sid body (conj Hs Hsid) (conj Hm Hb)
                (now env) ty fallback (db st)) as Hstored.
  assert (handle v env c ev st
          = match createMessage (now env) (messageArgs data ty fallback) (db st) with
            | Ok (d, saved) =>
                match ty with
                | user =>
                    ((ai_reply v env sid (set_db st d)).1,
                     [persisted saved;
                      emit (to_room "admin") "message:new"
                           (message_payload (messageData sid user saved));
                      emit (to_socket c) "message:sent"
                           (message_payload (messageData sid user saved))]
                     ++ (ai_reply v env sid (set_db st d)).2)
                | admin =>
                    (set_db st d,
                     [persisted saved;
                      emit (to_room (session_room sid)) "message:received"
                           (message_payload (messageData sid admin saved));
                      emit (to_socket c) "message:sent"
                           (message_payload (messageData sid admin saved))])
                end
            | Throw _ => (st, [failed_to_send c])
            end) as Hhandle.
  { unfold ev, fallback. destruct ty; simpl.
    - rewrite (on_message_user_eq v env c data st sid body (conj Hs Hsid) (conj Hm Hb)).
      by destruct (createMessage _ _ _) as [[d saved]|e].
    - rewrite (on_message_admin_eq env c data st sid body (conj Hs Hsid) (conj Hm Hb)).
      by destruct (createMessage _ _ _) as [[d saved]|e]. }
  split.
  - intros key name' url type Hlen Hne Hnlen Hkey Hrec Hname Hurl Htype saved stored.
    assert (createMessage (now env) (messageArgs data ty fallback) (db st)
            = Ok (mkDb (chat_sessions (db st)) (messages (db st) ++ [saved]), saved))
      as Hc.
    { apply Hstored. exists key, name', url, type. by repeat split. }
    rewrite Hhandle, Hc. destruct ty; [|done].
    split; [done|]. apply ai_reply_automated.
  - rewrite Hhandle.
    clear Hstored.
    destruct (createMessage _ _ _) as [[d saved]|e] eqn:Hc; [right|by left].
    apply (message_event_stored data sid body (conj Hs Hsid) (conj Hm Hb)) in Hc
      as (key & name' & url & type & H).
    exists key, name', url, type. tauto.
Qed.

Lemma C1_message_persisted_then_broadcast_witness :
  let saved := Message.mk "s1" "Hello" "Alice" admin false None None 7 in
  (handle Groq Scenario.quiet 5 (message_admin Scenario.hello) Scenario.one_session).2
  = [persisted saved;
     emit (to_room "session:s1") "message:received"
          (message_payload (messageData "s1" admin saved));
     emit (to_socket 5) "message:sent"
          (message_payload (messageData "s1" admin saved))].
Proof.
  intros saved.
  assert (Js.trim " Hello " <> "") as Hb by (vm_compute; discriminate).
  destruct (C1_message_persisted_then_broadcast Groq Scenario.quiet 5
              Scenario.hello Scenario.one_session "s1" " Hello " admin
              eq_refl ltac:(discriminate) eq_refl Hb) as [H _].
  assert (is_Some (chat_sessions (db Scenario.one_session) !! "s1")) as Hrec
    by (by eexists).
  rewrite (H "s1" "Alice" None None); [reflexivity | | | | | | | |];
    try reflexivity; try exact Hrec; apply Nat.leb_le; reflexivity.
Defined.

(** C1 as stated fails: a [message:user] event with a session id, the
    non-empty body ["Hi"] and a sender name of 51 characters passes the
    handler's check, but the [len: [1, 50]] validator of [sender] rejects
    the row; no message is persisted, nothing is broadcast, no
    [message:sent] is sent. *)
Lemma C1_counterexample :
  let data := mkChatMessage (Some "s1") (Some "Hi") (Some (Js.repeat "a" 51)) None None in
  invalid data = false
  /\ is_Some (chat_sessions (db Scenario.one_session) !! "s1")
  /\ handle OpenAI Scenario.quiet 1 (message_user data) Scenario.one_session
     = (Scenario.one_session,
        [emit (to_socket 1) "error" (error_payload "Failed to send message")]).
Proof.
  split; [reflexivity|]. split; [by eexists|]. vm_compute. reflexivity.
Qed.

(** ** The default author name *)




(** ** Attachment fields *)

(** The rows of the AI-reply step. *)
Lemma ai_reply_rows v env sid st m :
  In m (persisted_rows (ai_reply v env sid st).2) ->
  Message.isAi m = true /\ Message.senderType m = admin /\ Message.sender m = "AI"
  /\ Message.attachmentUrl m = None /\ Message.attachmentType m = None
  /\ stored_id sid = Some (Message.sessionId m)
  /\ exists aiText,
       Js.trim aiText = aiText /\ aiText <> "" /\ String.length aiText <= 5001
       /\ Message.message m = Pg.escape aiText.
Proof.
  unfold ai_reply.
  destruct (_ && _); [|done].
  destruct (reply env) as [code|content]; [simpl; tauto|].
  destruct (Js.truthy _) eqn:Htext.
  - destruct (createMessage _ _ _) as [[d aiSaved]|e] eqn:Hc; [|simpl; tauto].
    simpl. intros [<- | []].
    pose proof (createMessage_row _ _ _ _ _ Hc)
      as (Hk & Hm & Hn & Hty & Hai & Hu & Ht & _).
    apply createMessage_Ok in Hc as (Hv & _).
    simpl in *. injection Hn as <-. injection Hu as <-. injection Ht as <-.
    repeat split; try done.
    destruct content as [content|]; [|done]. simpl in *.
    exists (Js.trim content). split; [apply trim_idempotent|].
    split; [by apply truthy_Some|]. split; [|done].
    unfold message_validate, Validator.len in Hv. simpl in Hv.
    rewrite !andb_true_iff in Hv. destruct Hv as [[[_ [_ Hlen]] _] _].
    by apply Nat.leb_le in Hlen.
  - destruct v; simpl; tauto.
Qed.

(** C8 as stated fails: a [message:user] event that carries an attachment
    URL and no media type is persisted with the URL set and the type
    absent. *)
Lemma C8_counterexample :
  let data :=
    mkChatMessage (Some "s1") (Some "see this") (Some "Alice")
      (Some "http://localhost:5001/uploads/f1") None in
  messages (db (handle OpenAI Scenario.quiet 1 (message_user data) Scenario.one_session).1)
  = [Message.mk "s1" "see this" "Alice" user false
       (Some "http://localhost:5001/uploads/f1") None 7].
Proof. vm_compute. reflexivity. Qed.

(** C8 (amended). The two attachment fields of a persisted message are
    stored independently of each other: a row written for a [message:user]
    or [message:admin] event holds, for each field, what the column makes of
    the value the event supplied (nothing when it is missing or empty; every
    code unit 0 as backslash and 0; spaces beyond the width of the column
    cut), so it has both or neither exactly when the event supplied both or
    neither; a row written by the AI-reply step is automated and has
    neither. *)
Theorem C8_attachment_fields_stored_independently
    (v : Variant) (env : Env) (c : nat) (ev : Inbound) (st : State) (m : Message.t) :
  In m (persisted_rows (handle v env c ev st).2) ->
  (Message.isAi m = true
   /\ Message.attachmentUrl m = None /\ Message.attachmentType m = None)
  \/ (exists data,
        (ev = message_user data \/ ev = message_admin data)
        /\ Pg.varchar_null 1024 (Pg.escape <$> Js.or_opt (attachmentUrl data) None)
           = Some (Message.attachmentUrl m)
        /\ Pg.varchar_null 100 (Pg.escape <$> Js.or_opt (attachmentType data) None)
           = Some (Message.attachmentType m)
        /\ ((is_Some (Message.attachmentUrl m) <-> is_Some (Message.attachmentType m))
            <-> Js.truthy (attachmentUrl data) = Js.truthy (attachmentType data))).
Proof.
  assert (forall data row,
             Pg.varchar_null 1024 (Pg.escape <$> Js.or_opt (attachmentUrl data) None)
             = Some (Message.attachmentUrl row) ->
             Pg.varchar_null 100 (Pg.escape <$> Js.or_opt (attachmentType data) None)
             = Some (Message.attachmentType row) ->
             (is_Some (Message.attachmentUrl row) <-> is_Some (Message.attachmentType row))
             <-> Js.truthy (attachmentUrl data) = Js.truthy (attachmentType data)) as Hpair.
  { intros data row Hu Ht.
    rewrite (varchar_null_is_Some _ _ _ Hu), (varchar_null_is_Some _ _ _ Ht).
    rewrite !fmap_is_Some, !is_Some_or_opt.
    destruct (Js.truthy (attachmentUrl data)), (Js.truthy (attachmentType data));
      intuition congruence. }
  destruct ev as [s ip ua|data|data| |s ty|s ty|s| |event]; simpl.
  - unfold on_user_connect. destruct (createOrUpdateSession _ _ _); simpl; tauto.
  - unfold on_message_user.
    destruct (invalid data); [simpl; tauto|].
    destruct (createMessage _ _ _) as [[d saved]|e] eqn:Hc; [|simpl; tauto].
    destruct (ai_reply v env (text (sessionId data)) (set_db st d)) as [st' ai] eqn:Hai.
    simpl. intros [<- | Hin].
    + right. exists data.
      apply createMessage_row in Hc as (_ & _ & _ & _ & _ & Hu & Ht & _).
      split; [by left|]. split; [done|]. split; [done|]. by apply Hpair.
    + left.
      assert (ai = (ai_reply v env (text (sessionId data)) (set_db st d)).2) as ->
        by (by rewrite Hai).
      apply ai_reply_rows in Hin as (? & _ & _ & ? & ? & _). done.
  - unfold on_message_admin.
    destruct (invalid data); [simpl; tauto|].
    destruct (createMessage _ _ _) as [[d saved]|e] eqn:Hc; [|simpl; tauto].
    simpl. intros [<- | []].
    right. exists data.
    apply createMessage_row in Hc as (_ & _ & _ & _ & _ & Hu & Ht & _).
    split; [by right|]. split; [done|]. split; [done|]. by apply Hpair.
  - tauto.
  - unfold on_typing_start. destruct (_ || _); [simpl; tauto|].
    destruct (bool_decide _); simpl; tauto.
  - unfold on_typing_stop. destruct (_ || _); [simpl; tauto|].
    destruct (bool_decide _); simpl; tauto.
  - unfold on_session_close. destruct (Js.truthy s); [|simpl; tauto].
    destruct (updateSessionStatus _ _ _ _); simpl; tauto.
  - tauto.
  - rewrite on_no_data_rows. simpl. tauto.
Qed.

Lemma C8_attachment_fields_stored_independently_witness :
  let data :=
    mkChatMessage (Some "s1") (Some "see this") (Some "Alice")
      (Some "http://localhost:5001/uploads/f1") None in
  let m := Message.mk "s1" "see this" "Alice" user false
             (Some "http://localhost:5001/uploads/f1") None 7 in
  In m (persisted_rows
          (handle OpenAI Scenario.quiet 1 (message_user data) Scenario.one_session).2)
  /\ ((Message.isAi m = true
       /\ Message.attachmentUrl m = None /\ Message.attachmentType m = None)
      \/ (exists data',
            (message_user data = message_user data'
             \/ message_user data = message_admin data')
            /\ Pg.varchar_null 1024 (Pg.escape <$> Js.or_opt (attachmentUrl data') None)
               = Some (Message.attachmentUrl m)
            /\ Pg.varchar_null 100 (Pg.escape <$> Js.or_opt (attachmentType data') None)
               = Some (Message.attachmentType m)
            /\ ((is_Some (Message.attachmentUrl m) <-> is_Some (Message.attachmentType m))
                <-> Js.truthy (attachmentUrl data') = Js.truthy (attachmentType data')))).
Proof.
  intros data m.
  assert (In m (persisted_rows
                  (handle OpenAI Scenario.quiet 1 (message_user data)
                     Scenario.one_session).2)) as Hin.
  { vm_compute. left. reflexivity. }
  split; [exact Hin|].
  exact (C8_attachment_fields_stored_independently OpenAI Scenario.quiet 1
           (message_user data) Scenario.one_session m Hin).
Defined.

(** ** The AI-reply step: failure and success *)

Lemma composing_guard env sid st :
  composing env sid st ->
  from_option ChatSession.aiEnabled false (getSession sid (db st))
  && Js.truthy (api_key env) = true.
Proof.
  intros [Ha ->]. destruct (getSession sid (db st)) as [s|]; [|done].
  simpl in *. inversion Ha as [H]. by rewrite H.
Qed.

(** In both versions a generator error and a rejected row stop the typing
    indicator, write nothing and send nothing else. *)
Lemma ai_reply_error_stops v env sid st :
  composing env sid st ->
  (exists code, reply env = generator_error code) \/ reply_rejected env sid st ->
  ai_reply v env sid st = (st, [typing_admin sid; typing_admin_stop sid]).
Proof.
  intros Hc Hfail. unfold ai_reply. rewrite (composing_guard _ _ _ Hc).
  destruct Hfail as [[code ->] | (content & e & -> & Ht & Hthrow)]; [done|].
  by rewrite Ht, Hthrow.
Qed.

(** The Groq version does the same when the answer has no text. *)
Lemma ai_reply_no_text_groq env sid st :
  composing env sid st -> no_text (reply env) ->
  ai_reply Groq env sid st = (st, [typing_admin sid; typing_admin_stop sid]).
Proof.
  intros Hc Hno. unfold ai_reply. rewrite (composing_guard _ _ _ Hc).
  destruct (reply env) as [code|content]; [done|].
  simpl in Hno. by rewrite Hno.
Qed.

(** The OpenAI version does not: the typing indicator is started and never
    stopped. *)
Lemma ai_reply_no_text_openai env sid st :
  composing env sid st -> no_text (reply env) ->
  ai_reply OpenAI env sid st = (st, [typing_admin sid]).
Proof.
  intros Hc Hno. unfold ai_reply. rewrite (composing_guard _ _ _ Hc).
  destruct (reply env) as [code|content]; [done|].
  simpl in Hno. by rewrite Hno.
Qed.

(** C3, at the input where the code departs from it. Auto-reply is on for
    session ["s1"], a key is configured, and the completion comes back with
    no choice (no text). In [src/socket/socket.ts] the handler of
    [message:user] saves, broadcasts and acknowledges the user's message and
    emits [typing:admin] to the room of the session; it then emits nothing
    more: [typing:admin:stop] is never sent. *)
Theorem C3_openai_no_text_leaves_typing_indicator :
  let saved := Message.mk "s1" "Hello" "Alice" user false None None 9 in
  let out := handle OpenAI (Scenario.answering None) 1 (message_user Scenario.hello)
               Scenario.one_session_ai in
  out.2 = [persisted saved;
           emit (to_room "admin") "message:new" (message_payload (messageData "s1" user saved));
           emit (to_socket 1) "message:sent" (message_payload (messageData "s1" user saved));
           emit (to_room "session:s1") "typing:admin" no_payload]
  /\ ~ In (emit (to_room "session:s1") "typing:admin:stop" no_payload) out.2
  /\ (handle Groq (Scenario.answering None) 1 (message_user Scenario.hello)
        Scenario.one_session_ai).2
     = out.2 ++ [emit (to_room "session:s1") "typing:admin:stop" no_payload].
Proof.
  vm_compute. split; [reflexivity|]. split; [|reflexivity].
  intros [H|[H|[H|[H|[]]]]]; discriminate.
Qed.

(** C4 as stated fails: the generator succeeds with a text of 5002
    characters; the [len: [1, 5001]] validator of [message] rejects the row,
    the reply is neither persisted nor broadcast, and only the typing
    indicator is stopped. *)
Lemma C4_counterexample :
  let env := Scenario.answering (Some (Js.repeat "a" 5002)) in
  let saved := Message.mk "s1" "Hello" "Alice" user false None None 9 in
  handle Groq env 1 (message_user Scenario.hello) Scenario.one_session_ai
  = (set_db Scenario.one_session_ai
       (mkDb (chat_sessions (db Scenario.one_session_ai)) [saved]),
     [persisted saved;
      emit (to_room "admin") "message:new" (message_payload (messageData "s1" user saved));
      emit (to_socket 1) "message:sent" (message_payload (messageData "s1" user saved));
      emit (to_room "session:s1") "typing:admin" no_payload;
      emit (to_room "session:s1") "typing:admin:stop" no_payload]).
Proof. vm_compute. reflexivity. Qed.

(** C4 (amended). After a user message was saved, with auto-reply on for the
    session and a key configured, a completion whose trimmed text is not
    empty and has at most 5001 characters is stored as one row with author
    class admin, the automated flag on and the author name ["AI"], under the
    session id the row of the user's message has; its body is the trimmed
    text as the database holds it. The actions of the step are, in this
    order: [typing:admin] to the room of the session, the write of the row,
    [message:received] to the room of the session, [message:new] to the
    admin room, [typing:admin:stop] to the room of the session. Both
    versions of the handler agree on this. *)
Theorem C4_ai_reply_persisted_then_broadcast
    (v : Variant) (env : Env) (c : nat) (data : ChatMessage) (st : State)
    (sid body content : string) (d : Db) (saved : Message.t) :
  sessionId data = Some sid -> sid <> "" ->
  message data = Some body -> Js.trim body <> "" ->
  createMessage (now env) (messageArgs data user "User") (db st) = Ok (d, saved) ->
  composing env sid st ->
  reply env = completion (Some content) ->
  Js.trim content <> "" ->
  String.length (Js.trim content) <= 5001 ->
  let aiSaved :=
    Message.mk (Message.sessionId saved) (Pg.escape (Js.trim content)) "AI" admin true
      None None (later env) in
  let aiData :=
    mkMessageData sid (Pg.escape (Js.trim content)) "AI" admin true None None
      (later env) in
  exists st',
    handle v env c (message_user data) st
    = (st',
       [persisted saved;
        emit (to_room "admin") "message:new" (message_payload (messageData sid user saved));
        emit (to_socket c) "message:sent" (message_payload (messageData sid user saved));
        emit (to_room (session_room sid)) "typing:admin" no_payload;
        persisted aiSaved;
        emit (to_room (session_room sid)) "message:received" (message_payload aiData);
        emit (to_room "admin") "message:new" (message_payload aiData);
        emit (to_room (session_room sid)) "typing:admin:stop" no_payload])
    /\ messages (db st') = messages (db st) ++ [saved; aiSaved].
Proof.
  intros Hs Hsid Hm Hb Hsaved [Hflag Hkey] Hreply Hne Hlen aiSaved aiData. simpl.
  rewrite (on_message_user_eq v env c data st sid body (conj Hs Hsid) (conj Hm Hb)).
  rewrite Hsaved.
  pose proof (createMessage_row _ _ _ _ _ Hsaved) as (Hk & _).
  rewrite (messageArgs_eq data sid body (conj Hs Hsid) (conj Hm Hb)) in Hk.
  simpl in Hk.
  apply createMessage_Ok in Hsaved as (_ & _ & Hrec & ->).
  set (d := mkDb (chat_sessions (db st)) (messages (db st) ++ [saved])).
  assert (composing env sid (set_db st d)) as Hc by (by split).
  assert (createMessage (later env) (aiArgs sid (Js.trim content)) d
          = Ok (mkDb (chat_sessions d) (messages d ++ [aiSaved]), aiSaved)) as Hsave.
  { apply createMessage_Ok. split; [|split; [|by split]].
    - unfold message_validate, Validator.len, Validator.notEmpty. simpl.
      rewrite (trim_not_blank content Hne). simpl.
      apply length_pos_of_nonempty in Hne. apply Nat.leb_le in Hne, Hlen.
      rewrite !andb_true_iff. by repeat split.
    - apply message_columns_Some.
      exists (Message.sessionId saved), "AI", None, None. by repeat split. }
  unfold ai_reply at 1 2. rewrite (composing_guard _ _ _ Hc), Hreply.
  assert (Js.truthy (Js.trim <$> Some content) = true) as ->
    by (by apply truthy_Some).
  simpl. rewrite Hsave. simpl. eexists. split; [reflexivity|].
  by rewrite <- app_assoc.
Qed.

Lemma C4_ai_reply_persisted_then_broadcast_witness :
  let saved := Message.mk "s1" "Hello" "Alice" user false None None 9 in
  let aiSaved := Message.mk "s1" "Sure." "AI" admin true None None 12 in
  let aiData := mkMessageData "s1" "Sure." "AI" admin true None None 12 in
  (handle OpenAI (Scenario.answering (Some " Sure. ")) 1 (message_user Scenario.hello)
     Scenario.one_session_ai).2
  = [persisted saved;
     emit (to_room "admin") "message:new" (message_payload (messageData "s1" user saved));
     emit (to_socket 1) "message:sent" (message_payload (messageData "s1" user saved));
     emit (to_room "session:s1") "typing:admin" no_payload;
     persisted aiSaved;
     emit (to_room "session:s1") "message:received" (message_payload aiData);
     emit (to_room "admin") "message:new" (message_payload aiData);
     emit (to_room "session:s1") "typing:admin:stop" no_payload].
Proof.
  intros saved aiSaved aiData.
  assert (Js.trim " Hello " <> "") as Hb by (vm_compute; discriminate).
  assert (Js.trim " Sure. " <> "") as Hne by (vm_compute; discriminate).
  assert (String.length (Js.trim " Sure. ") <= 5001) as Hlen by (by apply Nat.leb_le).
  assert (createMessage (now (Scenario.answering (Some " Sure. ")))
            (messageArgs Scenario.hello user "User") (db Scenario.one_session_ai)
          = Ok (mkDb (chat_sessions (db Scenario.one_session_ai)) [saved], saved))
    as Hsaved by (vm_compute; reflexivity).
  assert (composing (Scenario.answering (Some " Sure. ")) "s1" Scenario.one_session_ai)
    as Hc by (split; vm_compute; reflexivity).
  destruct (C4_ai_reply_persisted_then_broadcast OpenAI
              (Scenario.answering (Some " Sure. ")) 1 Scenario.hello
              Scenario.one_session_ai "s1" " Hello " " Sure. " _ _
              eq_refl ltac:(discriminate) eq_refl Hb Hsaved Hc eq_refl Hne Hlen)
    as (st' & H & _).
  rewrite H. reflexivity.
Defined.

(** ** Disconnection *)

Section Disconnect.

Lemma socket_rooms_member c st room :
  In room (socket_rooms c st) -> c ∈ members room st.
Proof.
  unfold socket_rooms. rewrite filter_In. intros [_ H].
  by apply bool_decide_eq_true in H.
Qed.

Lemma fetchSockets_member c st room :
  c ∈ members room st -> (length (fetchSockets room st) =? 0) = false.
Proof.
  intros Hc. apply Nat.eqb_neq. unfold fetchSockets, members in *.
  intros Hlen. apply nil_length_inv in Hlen.
  apply elements_empty_inv in Hlen. rewrite Hlen in Hc.
  by apply not_elem_of_empty in Hc.
Qed.

(** The clean-up loop writes nothing for a room the closing connection is
    itself a member of: [fetchSockets] still lists that connection. *)
Lemma disconnect_cleanup_member env c rs st :
  (forall room, In room rs -> c ∈ members room st) ->
  disconnect_cleanup env rs st = st.
Proof.
  induction rs as [|room rest IH]; intros Hall; simpl; [done|].
  assert (disconnect_cleanup env rest st = st) as Hrest.
  { apply IH. intros r Hr. apply Hall. by right. }
  destruct (Js.startsWith room "session:"); [|done].
  rewrite (fetchSockets_member c st room); [done|].
  apply Hall. by left.
Qed.

(** Whenever the [disconnect] handler runs, in any state of the rooms, it
    leaves the state as it is. *)
Lemma on_disconnect_idle env c st : on_disconnect env c st = (st, []).
Proof.
  unfold on_disconnect. f_equal.
  apply (disconnect_cleanup_member env c). apply socket_rooms_member.
Qed.

Lemma close_connection_eq env c st : close_connection env c st = (leaveAll c st, []).
Proof. unfold close_connection. apply on_disconnect_idle. Qed.

(** Closing a connection removes it from every room. *)
Lemma close_connection_leaves env c st room :
  c ∉ members room (close_connection env c st).1.
Proof.
  rewrite close_connection_eq. unfold members, leaveAll. simpl.
  rewrite lookup_fmap. destruct (rooms st !! room) as [ms|]; simpl.
  - rewrite elem_of_difference, elem_of_singleton. tauto.
  - apply not_elem_of_empty.
Qed.

(** It never writes to the store. *)
Lemma close_connection_db env c st : db (close_connection env c st).1 = db st.
Proof. by rewrite close_connection_eq. Qed.

End Disconnect.

(** C5, at the input where the code departs from it. Connections 1 and 2
    are the members of the room of session ["s1"], whose status is active.
    When connection 1 disconnects, connection 2 remains and the status stays
    active, as the claim says. When connection 2 disconnects as well, its
    membership is removed and the room is empty, but the status of the
    session is still active: by the time the [disconnect] handler reads
    [socket.rooms], Socket.IO has already emptied it, so the loop that would
    set the status to inactive runs over no room. *)
Theorem C5_last_disconnect_leaves_session_active :
  let one_left := (handle OpenAI Scenario.quiet 1 disconnect Scenario.two_tabs).1 in
  let none_left := (handle OpenAI Scenario.quiet 2 disconnect one_left).1 in
  length (fetchSockets "session:s1" Scenario.two_tabs) = 2
  /\ status_of "s1" Scenario.two_tabs = Some active
  /\ fetchSockets "session:s1" one_left = [2]
  /\ status_of "s1" one_left = Some active
  /\ socket_rooms 2 (leaveAll 2 one_left) = []
  /\ fetchSockets "session:s1" none_left = []
  /\ status_of "s1" none_left = Some active.
Proof. vm_compute. repeat split; reflexivity. Qed.

(** ** Writing a session *)

Section Sessions.

Lemma session_set_status_other now key s st d k :
  k <> key ->
  chat_sessions (session_set_status now key s st d) !! k = chat_sessions d !! k.
Proof.
  intros Hk. unfold session_set_status. case_bool_decide; [done|].
  simpl. by rewrite lookup_insert_ne.
Qed.

Lemma session_set_status_at now key s st d :
  chat_sessions d !! key = Some s ->
  exists s',
    chat_sessions (session_set_status now key s st d) !! key = Some s'
    /\ ChatSession.status s' = st
    /\ ChatSession.sessionId s' = ChatSession.sessionId s
    /\ ChatSession.userIp s' = ChatSession.userIp s
    /\ ChatSession.userAgent s' = ChatSession.userAgent s
    /\ ChatSession.aiEnabled s' = ChatSession.aiEnabled s
    /\ ChatSession.createdAt s' = ChatSession.createdAt s.
Proof.
  intros Hs. unfold session_set_status. case_bool_decide as Hsame.
  - exists s. by rewrite Hs.
  - simpl. rewrite lookup_insert_eq. by eexists.
Qed.

Lemma session_set_aiEnabled_other now key s enabled d k :
  k <> key ->
  chat_sessions (session_set_aiEnabled now key s enabled d) !! k = chat_sessions d !! k.
Proof.
  intros Hk. unfold session_set_aiEnabled. case_bool_decide; [done|].
  simpl. by rewrite lookup_insert_ne.
Qed.

Lemma session_set_aiEnabled_at now key s enabled d :
  chat_sessions d !! key = Some s ->
  exists s',
    chat_sessions (session_set_aiEnabled now key s enabled d) !! key = Some s'
    /\ ChatSession.aiEnabled s' = enabled
    /\ ChatSession.status s' = ChatSession.status s
    /\ ChatSession.sessionId s' = ChatSession.sessionId s
    /\ ChatSession.userIp s' = ChatSession.userIp s
    /\ ChatSession.userAgent s' = ChatSession.userAgent s
    /\ ChatSession.createdAt s' = ChatSession.createdAt s.
Proof.
  intros Hs. unfold session_set_aiEnabled. case_bool_decide as Hsame.
  - exists s. by rewrite Hs.
  - simpl. rewrite lookup_insert_eq. by eexists.
Qed.

Lemma updateSessionStatus_Ok now sid st d d' :
  updateSessionStatus now sid st d = Ok d' <->
  exists old,
    chat_sessions d !! Pg.escape sid = Some old
    /\ d' = session_set_status now (Pg.escape sid) old st d.
Proof.
  unfold updateSessionStatus.
  destruct (chat_sessions d !! Pg.escape sid) as [old|].
  - split; [intros [= <-]; by exists old|]. by intros (? & [= <-] & ->).
  - split; [done|]. by intros (? & ? & _).
Qed.

(** The upsert of [user:connect], with the address and the agent the handler
    always supplies: what it requires and what it writes. *)
Lemma createOrUpdateSession_connect now sid ip agent d d' :
  ip <> "" -> agent <> "" ->
  createOrUpdateSession now (mkSessionData sid (Some ip) (Some agent) (Some active)) d
  = Ok d' <->
  match chat_sessions d !! Pg.escape sid with
  | Some old =>
      if bool_decide (ChatSession.status old = active
                      /\ ChatSession.userIp old = Some ip
                      /\ ChatSession.userAgent old = Some agent)
      then d' = d
      else exists ip',
          Pg.varchar 45 (Pg.escape ip) = Some ip'
          /\ d' = set_sessions d
                    (<[Pg.escape sid :=
                         ChatSession.mk (ChatSession.sessionId old) (Some ip')
                           (Some (Pg.escape agent)) active (ChatSession.aiEnabled old)
                           (ChatSession.createdAt old) now]> (chat_sessions d))
  | None =>
      Validator.notEmpty sid = true
      /\ exists key ip',
          stored_id sid = Some key
          /\ Pg.varchar 45 (Pg.escape ip) = Some ip'
          /\ chat_sessions d !! key = None
          /\ d' = set_sessions d
                    (<[key := ChatSession.mk key (Some ip') (Some (Pg.escape agent))
                                active false now now]> (chat_sessions d))
  end.
Proof.
  intros Hip Hagent. unfold createOrUpdateSession. simpl.
  destruct (chat_sessions d !! Pg.escape sid) as [old|] eqn:Hold.
  - rewrite !or_opt_nonempty by done. unfold session_update.
    case_bool_decide as Hsame; [split; congruence|].
    simpl. destruct (Pg.varchar 45 (Pg.escape ip)) as [ip'|]; simpl.
    + split; [intros [= <-]; by exists ip'|]. by intros (? & [= <-] & ->).
    + split; [done|]. by intros (? & ? & _).
  - destruct (Validator.notEmpty sid); simpl; [|split; [done|by intros [? _]]].
    unfold session_columns, stored_id. simpl. rewrite !or_opt_nonempty by done. simpl.
    destruct (Pg.varchar 255 (Pg.escape sid)) as [key|]; simpl;
      [|split; [done|by intros (_ & ? & ? & ? & _)]].
    destruct (Pg.varchar 45 (Pg.escape ip)) as [ip'|]; simpl;
      [|split; [done|by intros (_ & ? & ? & _ & ? & _)]].
    case_bool_decide as Hdup; simpl.
    + split; [done|]. intros (_ & ? & ? & [= <-] & _ & Hnone & _).
      rewrite Hnone in Hdup. by destruct Hdup.
    + split.
      * intros [= <-]. split; [done|]. exists key, ip'. repeat split.
        destruct (chat_sessions d !! key) eqn:Hk; [|done].
        exfalso. apply Hdup. by eexists.
      * by intros (_ & ? & ? & [= <-] & [= <-] & _ & ->).
Qed.

(** A call the store accepts, for an id that is stored as it is looked
    up: afterwards the id has a record. Either the call found one and
    updated it in place, or it created one. *)
Lemma connect_accepted now sid ip agent ip' d :
  ip <> "" -> agent <> "" ->
  Validator.notEmpty sid = true -> String.length (Pg.escape sid) <= 255 ->
  Pg.varchar 45 (Pg.escape ip) = Some ip' ->
  exists d' rec,
    createOrUpdateSession now (mkSessionData sid (Some ip) (Some agent) (Some active)) d
    = Ok d'
    /\ chat_sessions d' !! Pg.escape sid = Some rec
    /\ (forall k, k <> Pg.escape sid -> chat_sessions d' !! k = chat_sessions d !! k)
    /\ messages d' = messages d
    /\ ChatSession.status rec = active
    /\ match chat_sessions d !! Pg.escape sid with
       | Some old =>
           ChatSession.sessionId rec = ChatSession.sessionId old
           /\ ChatSession.aiEnabled rec = ChatSession.aiEnabled old
           /\ ChatSession.createdAt rec = ChatSession.createdAt old
           /\ ((rec = old /\ ChatSession.userIp old = Some ip
                /\ ChatSession.userAgent old = Some agent)
               \/ (ChatSession.userIp rec = Some ip'
                   /\ ChatSession.userAgent rec = Some (Pg.escape agent)
                   /\ ChatSession.updatedAt rec = now))
       | None =>
           rec = ChatSession.mk (Pg.escape sid) (Some ip') (Some (Pg.escape agent))
                   active false now now
       end.
Proof.
  intros Hip Hagent Hne Hlen Hfit.
  pose proof (createOrUpdateSession_connect now sid ip agent d) as Hiff.
  destruct (chat_sessions d !! Pg.escape sid) as [old|] eqn:Hold.
  - case_bool_decide as Hsame.
    + exists d, old. split; [by apply Hiff|]. destruct Hsame as (? & ? & ?).
      repeat split; try done. by left.
    + eexists _, _. split; [apply Hiff; [done..|]; by exists ip'|].
      simpl. rewrite lookup_insert_eq. repeat split; try done.
      * intros k Hk. by rewrite lookup_insert_ne.
      * by right.
  - eexists _, _. split.
    { apply Hiff; [done..|]. split; [done|]. exists (Pg.escape sid), ip'.
      split; [by apply stored_id_fits|]. by repeat split. }
    simpl. rewrite lookup_insert_eq. repeat split; try done.
    intros k Hk. by rewrite lookup_insert_ne.
Qed.

Lemma dom_after_upsert (m m' : gmap string ChatSession.t) key :
  is_Some (m' !! key) ->
  (forall k, k <> key -> m' !! k = m !! k) ->
  dom m' = {[key]} ∪ dom m.
Proof.
  intros Hkey Hother. apply set_eq. intros k.
  rewrite elem_of_union, elem_of_singleton, !elem_of_dom.
  destruct (decide (k = key)) as [->|Hk].
  - split; [by left|done].
  - rewrite (Hother k Hk). split; [by right|]. by intros [?|?].
Qed.

End Sessions.

(** ** The status of a session *)

(** C6 as stated fails: a session that [session:close] has made inactive is
    made active again by a [user:connect] with its id. *)
Lemma C6_counterexample :
  let closed_once :=
    (handle OpenAI Scenario.quiet 1 (session_close (Some "s1")) Scenario.one_session).1 in
  let reconnected :=
    (handle OpenAI Scenario.quiet 2 (user_connect (Some "s1") None None) closed_once).1 in
  status_of "s1" closed_once = Some inactive
  /\ status_of "s1" reconnected = Some active.
Proof. vm_compute. split; reflexivity. Qed.

(** C6 (amended). An event never removes a session, and the status every
    session has after an event is determined as follows. A [session:close]
    that names the session sets it to inactive. A [user:connect] for the id
    of the session sets it to active, whatever it was before, and is
    answered with [user:connected]; the only exception is a call whose
    address the column of the store refuses, which is answered with an
    [error] and changes nothing. Every other event, and every event for
    another id, leaves the status as it was; so does the closing of a
    connection, whose clean-up runs over no room (see C5). No event sets a
    status to closed. An id names the session when the database looks it up
    under the stored id of the session. *)
Theorem C6_status_transitions
    (v : Variant) (env : Env) (c : nat) (ev : Inbound) (st : State)
    (key : string) (x : SessionStatus) :
  status_of key st = Some x ->
  exists y,
    status_of key (handle v env c ev st).1 = Some y
    /\ match ev with
       | session_close s =>
           y = if bool_decide (Js.truthy s = true /\ Pg.escape (text s) = key)
               then inactive else x
       | user_connect s ip agent =>
           let sid := Js.or_else s (uuidv4 env) in
           if bool_decide (Pg.escape sid = key)
           then ((handle v env c ev st).2
                 = [emit (to_socket c) "user:connected" (session_payload sid)]
                 /\ y = active)
                \/ ((handle v env c ev st).2 = [failed_to_connect c]
                    /\ y = x
                    /\ Pg.varchar 45 (Pg.escape (Js.or_else ip "unknown")) = None)
           else y = x
       | _ => y = x
       end.
Proof.
  intros Hx. unfold status_of in *.
  destruct (chat_sessions (db st) !! key) as [rec|] eqn:Hrec; [|done].
  injection Hx as <-.
  destruct ev as [s ip ua|data|data| |s ty|s ty|s| |event]; unfold handle.
  - unfold on_user_connect. set (sid := Js.or_else s (uuidv4 env)).
    destruct (createOrUpdateSession _ _ _) as [d|e] eqn:Hc; cbn [fst snd db join set_db].
    + apply createOrUpdateSession_connect in Hc; [|by apply or_else_nonempty..].
      destruct (chat_sessions (db st) !! Pg.escape sid) as [old|] eqn:Hold.
      * case_bool_decide as Hsame.
        -- subst d. rewrite Hrec. eexists. split; [done|].
           case_bool_decide as Hk; [|done]. left. split; [done|].
           subst key. rewrite Hold in Hrec. injection Hrec as <-. by destruct Hsame.
        -- destruct Hc as (ip' & Hfit & ->). simpl.
           case_bool_decide as Hk.
           ++ subst key. rewrite lookup_insert_eq. eexists. split; [done|]. by left.
           ++ rewrite lookup_insert_ne by done. rewrite Hrec. by eexists.
      * destruct Hc as (_ & k0 & ip' & _ & _ & Hnone & ->). simpl.
        assert (k0 <> key) as Hne by congruence.
        rewrite lookup_insert_ne by done. rewrite Hrec.
        eexists. split; [done|]. case_bool_decide as Hk; [|done]. congruence.
    + cbn [fst]. rewrite Hrec. eexists. split; [done|].
      case_bool_decide as Hk; [|done]. right. split; [done|]. split; [done|].
      destruct (Pg.varchar 45 _) as [ip'|] eqn:Hfit; [exfalso|done].
      assert (exists d,
                 createOrUpdateSession (now env)
                   (mkSessionData sid (Some (Js.or_else ip "unknown"))
                      (Some (Js.or_else ua "unknown")) (Some active)) (db st)
                 = Ok d) as [d Hd]; [|congruence].
      subst key.
      destruct (bool_decide (ChatSession.status rec = active
                             /\ ChatSession.userIp rec = Some (Js.or_else ip "unknown")
                             /\ ChatSession.userAgent rec = Some (Js.or_else ua "unknown")))
        eqn:Hsame.
      * exists (db st). apply createOrUpdateSession_connect;
          [by apply or_else_nonempty..|]. by rewrite Hrec, Hsame.
      * eexists. apply createOrUpdateSession_connect;
          [by apply or_else_nonempty..|]. rewrite Hrec, Hsame. by exists ip'.
  - unfold on_message_user. destruct (invalid data); [cbn [fst]; rewrite Hrec; by eexists|].
    destruct (createMessage _ _ _) as [[d saved]|e] eqn:Hc; [|cbn [fst]; rewrite Hrec; by eexists].
    pose proof (ai_reply_sessions v env (text (sessionId data)) (set_db st d)) as Hai.
    destruct (ai_reply v env (text (sessionId data)) (set_db st d)) as [st' ai].
    simpl in *. rewrite Hai, (createMessage_sessions _ _ _ _ _ Hc), Hrec. by eexists.
  - unfold on_message_admin. destruct (invalid data); [cbn [fst]; rewrite Hrec; by eexists|].
    destruct (createMessage _ _ _) as [[d saved]|e] eqn:Hc; [|cbn [fst]; rewrite Hrec; by eexists].
    simpl. rewrite (createMessage_sessions _ _ _ _ _ Hc), Hrec. by eexists.
  - simpl. rewrite Hrec. by eexists.
  - unfold on_typing_start. destruct (_ || _); [cbn [fst]; rewrite Hrec; by eexists|].
    destruct (bool_decide _); cbn [fst]; rewrite Hrec; by eexists.
  - unfold on_typing_stop. destruct (_ || _); [cbn [fst]; rewrite Hrec; by eexists|].
    destruct (bool_decide _); cbn [fst]; rewrite Hrec; by eexists.
  - unfold on_session_close. destruct (Js.truthy s) eqn:Hs.
    + destruct (updateSessionStatus _ _ _ _) as [d|e] eqn:Hu.
      * apply updateSessionStatus_Ok in Hu as (old & Hold & ->). simpl.
        case_bool_decide as Hk.
        -- destruct Hk as [_ <-].
           destruct (session_set_status_at (now env) _ old inactive (db st) Hold)
             as (s' & Hs' & Hst & _).
           rewrite Hs'. simpl. rewrite Hst. by eexists.
        -- rewrite session_set_status_other; [cbn [fst]; rewrite Hrec; by eexists|].
           intros ->. by apply Hk.
      * simpl. rewrite Hrec. eexists. split; [done|].
        case_bool_decide as Hk; [|done]. destruct Hk as [_ <-].
        unfold updateSessionStatus in Hu. by rewrite Hrec in Hu.
    + simpl. rewrite Hrec. eexists. split; [done|].
      first [done | case_bool_decide as Hk; [by destruct Hk | done]].
  - rewrite close_connection_eq. simpl. rewrite Hrec. by eexists.
  - rewrite on_no_data_state, Hrec. by eexists.
Qed.

Lemma C6_status_transitions_witness :
  status_of "s1" Scenario.one_session = Some active
  /\ status_of "s1"
       (handle Groq Scenario.quiet 1 (session_close (Some "s1")) Scenario.one_session).1
     = Some inactive.
Proof.
  assert (status_of "s1" Scenario.one_session = Some active) as Hx
    by (vm_compute; reflexivity).
  split; [exact Hx|].
  destruct (C6_status_transitions Groq Scenario.quiet 1 (session_close (Some "s1"))
              Scenario.one_session "s1" active Hx) as (y & Hy & Hcases).
  rewrite Hy. f_equal. rewrite Hcases. reflexivity.
Defined.

(** ** Connecting twice *)

(** C7 as stated fails: a supplied session id of 256 characters does not fit
    the column [session_id] ([STRING(255)]); each of the two [user:connect]
    calls is answered with an [error] event instead of the session id, and
    no record exists afterwards. *)
Lemma C7_counterexample :
  let ev := user_connect (Some (Js.repeat "a" 256)) None None in
  run OpenAI [(Scenario.quiet, 1, ev); (Scenario.quiet, 1, ev)] empty_state
  = (empty_state,
     [emit (to_socket 1) "error" (error_payload "Failed to establish connection");
      emit (to_socket 1) "error" (error_payload "Failed to establish connection")]).
Proof. vm_compute. reflexivity. Qed.

(** C7 (amended). Two [user:connect] events with the same supplied session
    id that the store accepts leave one record for it, the one of the first
    call, updated in place by the second. The store accepts the calls when
    the id is not blank and, as the database receives it, has at most 255
    characters, and the column of the address takes the address of each
    call. The first call creates the record unless there is one already.
    The second call adds no record and changes no other: the record keeps
    its session id, its creation time and its auto-reply flag, its status is
    active, and either it is left as it is, when the call supplies the very
    address and agent the active record holds, or it holds the address and
    the agent of the second call, as the database stores them (["unknown"]
    for a missing one), and the time of the second call as its time of last
    activity. Each call joins its connection to the room of the session and
    answers [user:connected] with the supplied id. *)
Theorem C7_connect_twice_one_record
    (v : Variant) (env1 env2 : Env) (c1 c2 : nat) (st : State)
    (sid : string) (ip1 agent1 ip2 agent2 : option string) :
  Validator.notEmpty sid = true ->
  String.length (Pg.escape sid) <= 255 ->
  is_Some (Pg.varchar 45 (Pg.escape (Js.or_else ip1 "unknown"))) ->
  is_Some (Pg.varchar 45 (Pg.escape (Js.or_else ip2 "unknown"))) ->
  let key := Pg.escape sid in
  let first := handle v env1 c1 (user_connect (Some sid) ip1 agent1) st in
  let second := handle v env2 c2 (user_connect (Some sid) ip2 agent2) first.1 in
  first.2 = [emit (to_socket c1) "user:connected" (session_payload sid)]
  /\ second.2 = [emit (to_socket c2) "user:connected" (session_payload sid)]
  /\ dom (chat_sessions (db first.1)) = {[key]} ∪ dom (chat_sessions (db st))
  /\ dom (chat_sessions (db second.1)) = dom (chat_sessions (db first.1))
  /\ size (chat_sessions (db second.1)) = size (chat_sessions (db first.1))
  /\ (forall k, k <> key ->
        chat_sessions (db second.1) !! k = chat_sessions (db first.1) !! k)
  /\ messages (db second.1) = messages (db st)
  /\ (exists rec1 rec2,
        chat_sessions (db first.1) !! key = Some rec1
        /\ chat_sessions (db second.1) !! key = Some rec2
        /\ ChatSession.status rec2 = active
        /\ ChatSession.sessionId rec2 = ChatSession.sessionId rec1
        /\ ChatSession.createdAt rec2 = ChatSession.createdAt rec1
        /\ ChatSession.aiEnabled rec2 = ChatSession.aiEnabled rec1
        /\ ((rec2 = rec1
             /\ ChatSession.userIp rec1 = Some (Js.or_else ip2 "unknown")
             /\ ChatSession.userAgent rec1 = Some (Js.or_else agent2 "unknown"))
            \/ (ChatSession.userIp rec2
                = Pg.varchar 45 (Pg.escape (Js.or_else ip2 "unknown"))
                /\ ChatSession.userAgent rec2
                   = Some (Pg.escape (Js.or_else agent2 "unknown"))
                /\ ChatSession.updatedAt rec2 = now env2)))
  /\ c1 ∈ members (session_room sid) second.1
  /\ c2 ∈ members (session_room sid) second.1.
Proof.
  intros Hne Hlen [ip1' Hip1] [ip2' Hip2] key first second.
  pose proof (notEmpty_nonempty sid Hne) as Hsid.
  assert (Js.or_else (Some sid) (uuidv4 env1) = sid
          /\ Js.or_else (Some sid) (uuidv4 env2) = sid) as [Hid1 Hid2].
  { simpl. by destruct (String.eqb_spec sid ""). }
  assert ("unknown" <> "") as Hunk by done.
  destruct (connect_accepted (now env1) sid
              (Js.or_else ip1 "unknown") (Js.or_else agent1 "unknown") ip1' (db st))
    as (d1 & rec1 & Hc1 & Hl1 & Ho1 & Hm1 & _);
    [by apply or_else_nonempty | by apply or_else_nonempty | done | done | done |].
  assert (first = (join c1 (session_room sid) (set_db st d1),
                   [emit (to_socket c1) "user:connected" (session_payload sid)])) as Hfirst.
  { unfold first, handle, on_user_connect. by rewrite Hid1, Hc1. }
  destruct (connect_accepted (now env2) sid
              (Js.or_else ip2 "unknown") (Js.or_else agent2 "unknown") ip2' d1)
    as (d2 & rec2 & Hc2 & Hl2 & Ho2 & Hm2 & Hst2 & Hrel);
    [by apply or_else_nonempty | by apply or_else_nonempty | done | done | done |].
  rewrite Hl1 in Hrel. destruct Hrel as (Hsame_id & Hsame_ai & Hsame_created & Hfields).
  assert (second = (join c2 (session_room sid)
                      (set_db (join c1 (session_room sid) (set_db st d1)) d2),
                    [emit (to_socket c2) "user:connected" (session_payload sid)])) as Hsecond.
  { unfold second. rewrite Hfirst. unfold handle, on_user_connect. cbn [fst].
    rewrite Hid2.
    change (db (join c1 (session_room sid) (set_db st d1))) with d1.
    by rewrite Hc2. }
  assert (dom (chat_sessions d1) = {[key]} ∪ dom (chat_sessions (db st))) as Hdom1.
  { apply dom_after_upsert; [by eexists|done]. }
  assert (dom (chat_sessions d2) = dom (chat_sessions d1)) as Hdom2.
  { rewrite (dom_after_upsert (chat_sessions d1) (chat_sessions d2) key);
      [|by eexists|done].
    apply subseteq_union_1_L, singleton_subseteq_l. by apply elem_of_dom_2 in Hl1. }
  rewrite Hsecond, Hfirst. cbn [fst snd db join set_db].
  split; [done|]. split; [done|]. split; [done|]. split; [done|].
  split; [by rewrite <- !size_dom, Hdom2|].
  split; [done|]. split; [by rewrite Hm2|]. split.
  - exists rec1, rec2. repeat split; try done.
    destruct Hfields as [(-> & Hip & Hag)|(Hip & Hag & Hup)]; [by left|right].
    rewrite Hip, Hip2. by repeat split.
  - split; unfold members; simpl.
    + rewrite lookup_insert_eq. simpl. rewrite lookup_insert_eq. simpl.
      rewrite !elem_of_union, !elem_of_singleton. auto.
    + rewrite lookup_insert_eq. simpl.
      rewrite !elem_of_union, !elem_of_singleton. auto.
Qed.

Lemma C7_connect_twice_one_record_witness :
  let first := handle OpenAI Scenario.quiet 1 (user_connect (Some "s1") None None)
                 empty_state in
  let second := handle OpenAI Scenario.quiet 2
                  (user_connect (Some "s1") (Some "10.0.0.7") None) first.1 in
  second.2 = [emit (to_socket 2) "user:connected" (session_payload "s1")]
  /\ size (chat_sessions (db second.1)) = size (chat_sessions (db first.1)).
Proof.
  intros first second.
  assert (String.length (Pg.escape "s1") <= 255) as H1 by (by apply Nat.leb_le).
  assert (is_Some (Pg.varchar 45 (Pg.escape (Js.or_else None "unknown")))) as H2
    by (by eexists).
  assert (is_Some (Pg.varchar 45 (Pg.escape (Js.or_else (Some "10.0.0.7") "unknown"))))
    as H3 by (by eexists).
  destruct (C7_connect_twice_one_record OpenAI Scenario.quiet Scenario.quiet 1 2
              empty_state "s1" None None (Some "10.0.0.7") None eq_refl H1 H2 H3)
    as (_ & Hreply & _ & _ & Hsize & _).
  split; [exact Hreply | exact Hsize].
Defined.

(** * Further properties of the handlers and of the gateway *)

(** ** Room names *)

Lemma session_room_inj sid sid' : session_room sid = session_room sid' -> sid = sid'.
Proof. cbv [session_room String.append]. by intros [= ->]. Qed.

Lemma session_room_not_admin sid : session_room sid <> "admin".
Proof. cbv [session_room String.append]. discriminate. Qed.

(** X1. The name of the room of a session, built by [user:connect] as
    [`session:${sessionId}`], is read back by the [disconnect] handler:
    it starts with ["session:"], and replacing that prefix by the empty
    string gives the session id again, for every id (also one that contains
    ["session:"] itself). Different sessions have different rooms, and the
    admin room is not the room of any session. *)
Theorem room_name_round_trip (sid : string) :
  Js.startsWith (session_room sid) "session:" = true
  /\ Js.replace "session:" "" (session_room sid) = sid
  /\ session_room sid <> "admin"
  /\ Js.startsWith "admin" "session:" = false
  /\ (forall sid', session_room sid = session_room sid' -> sid = sid').
Proof.
  split; [|split; [|split; [|split]]].
  - destruct sid; reflexivity.
  - destruct sid; reflexivity.
  - apply session_room_not_admin.
  - reflexivity.
  - intros sid'. apply session_room_inj.
Qed.

(** ** What an event may touch *)

Section Footprint.


Lemma updateSessionStatus_other now sid st d d' k :
  updateSessionStatus now sid st d = Ok d' -> Pg.escape sid <> k ->
  chat_sessions d' !! k = chat_sessions d !! k.
Proof.
  intros Hu Hk. apply updateSessionStatus_Ok in Hu as (old & _ & ->).
  by apply session_set_status_other.
Qed.

(** The actions of the AI-reply step name the session of the message that
    started it and go to its room or to the admin room. *)
Lemma ai_reply_actions v env sid st a :
  In a (ai_reply v env sid st).2 ->
  match a with
  | persisted m => stored_id sid = Some (Message.sessionId m)
  | emit to _ p =>
      (to = to_room "admin" \/ to = to_room (session_room sid))
      /\ match p with
         | message_payload md => md_sessionId md = sid
         | session_payload s => s = sid
         | _ => True
         end
  | throws _ => False
  end.
Proof.
  unfold ai_reply.
  destruct (_ && _); [|done].
  destruct (reply env) as [code|content].
  { simpl. intros [<-|[<-|[]]]; simpl; auto. }
  destruct (Js.truthy _).
  - destruct (createMessage _ _ _) as [[d aiSaved]|e] eqn:Hc.
    + apply createMessage_row in Hc as (Hk & _). simpl in *.
      intros [<-|[<-|[<-|[<-|[<-|[]]]]]]; simpl; auto.
    + simpl. intros [<-|[<-|[]]]; simpl; auto.
  - destruct v; simpl.
    + intros [<-|[]]; simpl; auto.
    + intros [<-|[<-|[]]]; simpl; auto.
Qed.

End Footprint.

(** X2. Whatever an event makes the server send or store concerns the
    session the event is about and nobody else: an event sent to a single
    connection goes to the connection the event came from; an event sent to
    a room goes to the admin room or to the room of that session; a payload
    that names a session names that session; a row that is stored belongs to
    that session, of whose id it holds the stored form. An exception leaves
    a listener only for an event that names no session. *)
Theorem actions_stay_in_session
    (v : Variant) (env : Env) (c : nat) (ev : Inbound) (st : State) (a : Action) :
  In a (handle v env c ev st).2 ->
  match a with
  | persisted m =>
      exists sid, event_session env ev = Some sid
                  /\ stored_id sid = Some (Message.sessionId m)
  | emit to _ p =>
      match to with
      | to_socket c' => c' = c
      | to_room r =>
          r = "admin"
          \/ exists sid, event_session env ev = Some sid /\ r = session_room sid
      end
      /\ match p with
         | message_payload md => event_session env ev = Some (md_sessionId md)
         | session_payload s => event_session env ev = Some s
         | _ => True
         end
  | throws _ => event_session env ev = None
  end.
Proof.
  destruct ev as [s ip ua|data|data| |s ty|s ty|s| |event]; unfold handle.
  - unfold on_user_connect.
    destruct (createOrUpdateSession _ _ _); simpl; intros [<-|[]]; simpl; auto.
  - unfold on_message_user. destruct (invalid data) eqn:Hi.
    { simpl. intros [<-|[]]. simpl. auto. }
    apply invalid_false_iff in Hi as (sid & body & Hs & _ & _ & _).
    rewrite Hs. simpl.
    destruct (createMessage _ _ _) as [[d saved]|e] eqn:Hc;
      [|simpl; intros [<-|[]]; simpl; auto].
    pose proof (ai_reply_actions v env sid (set_db st d)) as Hai.
    destruct (ai_reply v env sid (set_db st d)) as [st' ai].
    apply createMessage_row in Hc as (Hk & _).
    unfold messageArgs in Hk. rewrite Hs in Hk. simpl in Hk.
    cbn [fst snd] in *. unfold event_session. rewrite Hs.
    intros [<-|[<-|[<-|Hin]]].
    + by exists sid.
    + simpl. auto.
    + simpl. auto.
    + specialize (Hai a Hin). destruct a as [m|to name p|e]; [by exists sid| |done].
      destruct Hai as [[-> | ->] Hp]; (split; [eauto|]);
        destruct p; simpl; try done; by subst.
  - unfold on_message_admin. destruct (invalid data) eqn:Hi.
    { simpl. intros [<-|[]]. simpl. auto. }
    apply invalid_false_iff in Hi as (sid & body & Hs & _ & _ & _).
    rewrite Hs. simpl.
    destruct (createMessage _ _ _) as [[d saved]|e] eqn:Hc;
      [|simpl; intros [<-|[]]; simpl; auto].
    apply createMessage_row in Hc as (Hk & _).
    unfold messageArgs in Hk. rewrite Hs in Hk. simpl in Hk.
    cbn [fst snd]. unfold event_session. rewrite Hs.
    intros [<-|[<-|[<-|[]]]].
    + by exists sid.
    + simpl. eauto.
    + simpl. eauto.
  - simpl. tauto.
  - unfold on_typing_start. destruct (Js.truthy s) eqn:Hs; simpl; [|tauto].
    destruct s as [s|]; [|done].
    destruct (negb _); [simpl; tauto|].
    destruct (bool_decide _); simpl; intros [<-|[]]; simpl; eauto.
  - unfold on_typing_stop. destruct (Js.truthy s) eqn:Hs; simpl; [|tauto].
    destruct s as [s|]; [|done].
    destruct (negb _); [simpl; tauto|].
    destruct (bool_decide _); simpl; intros [<-|[]]; simpl; eauto.
  - unfold on_session_close. destruct (Js.truthy s); [|simpl; tauto].
    destruct (updateSessionStatus _ _ _ _); simpl; tauto.
  - rewrite close_connection_eq. simpl. tauto.
  - destruct event; simpl; intros H; try tauto; destruct H as [<-|[]]; simpl; auto.
Qed.

Lemma actions_stay_in_session_witness :
  let a := emit (to_room "session:s1") "typing:admin" no_payload in
  In a (handle Groq Scenario.quiet 3 (typing_start (Some "s1") (Some admin))
          Scenario.one_session).2
  /\ exists sid,
       event_session Scenario.quiet (typing_start (Some "s1") (Some admin)) = Some sid
       /\ "session:s1" = session_room sid.
Proof.
  intros a.
  assert (In a (handle Groq Scenario.quiet 3 (typing_start (Some "s1") (Some admin))
                  Scenario.one_session).2) as Hin by (left; reflexivity).
  split; [exact Hin|].
  pose proof (actions_stay_in_session Groq Scenario.quiet 3
                (typing_start (Some "s1") (Some admin)) Scenario.one_session a Hin)
    as [[Hadmin | Hroom] _].
  - discriminate.
  - exact Hroom.
Defined.



(** ** Memberships *)

Section Memberships.

Lemma members_join c room st r :
  members r (join c room st)
  = if decide (room = r) then {[c]} ∪ members r st else members r st.
Proof.
  unfold members, join. simpl. rewrite lookup_insert.
  case_decide; [by subst|done].
Qed.

Lemma members_leaveAll c st r : members r (leaveAll c st) = members r st ∖ {[c]}.
Proof.
  unfold members, leaveAll. simpl. rewrite lookup_fmap.
  destruct (rooms st !! r) as [ms|]; simpl; [done|].
  apply set_eq. intros x. rewrite elem_of_difference.
  split; [intros Hx; by apply not_elem_of_empty in Hx | by intros [Hx _]].
Qed.

Lemma members_set_db st d r : members r (set_db st d) = members r st.
Proof. done. Qed.

Lemma on_message_user_rooms v env c data st :
  rooms (on_message_user v env c data st).1 = rooms st.
Proof.
  unfold on_message_user. destruct (invalid data); [done|].
  destruct (createMessage _ _ _) as [[d saved]|e]; [|done].
  pose proof (ai_reply_rooms v env (text (sessionId data)) (set_db st d)) as Hai.
  by destruct (ai_reply v env (text (sessionId data)) (set_db st d)).
Qed.

Lemma on_message_admin_rooms env c data st :
  rooms (on_message_admin env c data st).1 = rooms st.
Proof.
  unfold on_message_admin. destruct (invalid data); [done|].
  by destruct (createMessage _ _ _) as [[d saved]|e].
Qed.

Lemma on_typing_start_idle s ty st : (on_typing_start s ty st).1 = st.
Proof.
  unfold on_typing_start. destruct (_ || _); [done|]. by destruct (bool_decide _).
Qed.

Lemma on_typing_stop_idle s ty st : (on_typing_stop s ty st).1 = st.
Proof.
  unfold on_typing_stop. destruct (_ || _); [done|]. by destruct (bool_decide _).
Qed.

Lemma on_session_close_rooms env s st : rooms (on_session_close env s st).1 = rooms st.
Proof.
  unfold on_session_close. destruct (Js.truthy s); [|done].
  by destruct (updateSessionStatus _ _ _ _).
Qed.

End Memberships.

(** X4. An event changes the room memberships of the connection it comes
    from and of no other: [user:connect] adds the connection to the room of
    the assigned session exactly when it is answered with [user:connected];
    [admin:join] adds it to the admin room; closing the connection removes
    it from every room; message, typing and [session:close] events leave all
    rooms as they are (closing a session removes nobody from its room). *)
Theorem memberships_change_only_for_the_sender
    (v : Variant) (env : Env) (c : nat) (ev : Inbound) (st : State) (r : string) :
  (forall c', c' <> c ->
     c' ∈ members r (handle v env c ev st).1 <-> c' ∈ members r st)
  /\ match ev with
     | user_connect s _ _ =>
         c ∈ members r (handle v env c ev st).1 <->
         c ∈ members r st
         \/ (r = session_room (Js.or_else s (uuidv4 env))
             /\ (handle v env c ev st).2
                = [emit (to_socket c) "user:connected"
                        (session_payload (Js.or_else s (uuidv4 env)))])
     | admin_join =>
         c ∈ members r (handle v env c ev st).1 <-> c ∈ members r st \/ r = "admin"
     | disconnect => c ∉ members r (handle v env c ev st).1
     | _ => rooms (handle v env c ev st).1 = rooms st
     end.
Proof.
  destruct ev as [s ip ua|data|data| |s ty|s ty|s| |event]; unfold handle.
  - unfold on_user_connect.
    destruct (createOrUpdateSession _ _ _) as [d|e]; cbn [fst snd].
    + split.
      * intros c' Hc'. rewrite members_join, members_set_db.
        case_decide; [|done]. rewrite elem_of_union, elem_of_singleton. tauto.
      * rewrite members_join, members_set_db. case_decide as Hr.
        -- rewrite elem_of_union, elem_of_singleton. split; [|tauto].
           intros _. right. by split.
        -- split; [tauto|]. intros [?|[? _]]; [done|]. by subst.
    + split; [done|]. split; [tauto|]. intros [?|[_ ?]]; [done|discriminate].
  - rewrite on_message_user_rooms. split; [|done]. intros c' _.
    unfold members. by rewrite on_message_user_rooms.
  - rewrite on_message_admin_rooms. split; [|done]. intros c' _.
    unfold members. by rewrite on_message_admin_rooms.
  - unfold on_admin_join. cbn [fst]. split.
    + intros c' Hc'. rewrite members_join.
      case_decide; [|done]. rewrite elem_of_union, elem_of_singleton. tauto.
    + rewrite members_join. case_decide as Hr.
      * rewrite elem_of_union, elem_of_singleton. split; [|tauto]. by right.
      * split; [tauto|]. intros [?|?]; [done|]. by subst.
  - by rewrite on_typing_start_idle.
  - by rewrite on_typing_stop_idle.
  - rewrite on_session_close_rooms. split; [|done]. intros c' _.
    unfold members. by rewrite on_session_close_rooms.
  - split; [|apply close_connection_leaves].
    intros c' Hc'. rewrite close_connection_eq. cbn [fst].
    rewrite members_leaveAll, elem_of_difference, elem_of_singleton. tauto.
  - by rewrite on_no_data_state.
Qed.

(** X5. [admin:join], typing events and the closing of a connection never
    write to the store, and [admin:join], [session:close] and the closing of
    a connection never send anything: nobody is told that a session was
    closed or that a peer has left, and a typing signal is never recorded. A
    typing event sends at most one event. An event that arrives without a
    payload changes nothing. *)
Theorem quiet_events
    (v : Variant) (env : Env) (c : nat) (ev : Inbound) (st : State) :
  match ev with
  | admin_join | disconnect =>
      db (handle v env c ev st).1 = db st /\ (handle v env c ev st).2 = []
  | typing_start _ _ | typing_stop _ _ =>
      (handle v env c ev st).1 = st /\ length (handle v env c ev st).2 <= 1
  | session_close _ =>
      (handle v env c ev st).2 = []
      /\ messages (db (handle v env c ev st).1) = messages (db st)
  | no_data _ =>
      (handle v env c ev st).1 = st /\ length (handle v env c ev st).2 <= 1
  | _ => True
  end.
Proof.
  destruct ev as [s ip ua|data|data| |s ty|s ty|s| |event]; unfold handle; try done.
  - rewrite on_typing_start_idle. split; [done|].
    unfold on_typing_start. destruct (_ || _); [simpl; lia|].
    destruct (bool_decide _); simpl; lia.
  - rewrite on_typing_stop_idle. split; [done|].
    unfold on_typing_stop. destruct (_ || _); [simpl; lia|].
    destruct (bool_decide _); simpl; lia.
  - unfold on_session_close. destruct (Js.truthy s); [|done].
    destruct (updateSessionStatus _ _ _ _) as [d|e] eqn:Hu; [|done].
    split; [done|]. simpl. by apply updateSessionStatus_messages in Hu.
  - by rewrite close_connection_eq.
  - split; [apply on_no_data_state|]. destruct event; simpl; lia.
Qed.

(** ** The outcome of connecting *)

(** X6. [user:connect] has two outcomes and no other. Either the sender is
    answered [user:connected] with the assigned id (the supplied one, or the
    minted one when none or an empty one was supplied), the connection is in
    the room of the session, no message and no other record was touched,
    and the session has an active record. If the database found a record
    for the id, it is that record, with its session id, creation time and
    auto-reply flag: left as it is when it is active and holds the very
    address and agent supplied, and otherwise holding the address and the
    agent supplied, as the database stores them (["unknown"] for a missing
    one), and the time of the call. If the database found none, the id is
    not blank and the record is new, under the stored form of the id, which
    no record had, with the flag off. Or the sender is answered [error] and
    the state is exactly as before: no record, no membership. This happens
    when the column of the address refuses the address supplied (and, for a
    record that was found, the record has to be written) or, for an id the
    database did not find, when the id is blank, when the column of the id
    refuses it, or when another record holds its stored form already. *)
Theorem user_connect_outcome
    (v : Variant) (env : Env) (c : nat) (s ip agent : option string) (st : State) :
  let sid := Js.or_else s (uuidv4 env) in
  let address := Js.or_else ip "unknown" in
  let browser := Js.or_else agent "unknown" in
  let out := handle v env c (user_connect s ip agent) st in
  (Js.truthy s = true -> s = Some sid)
  /\ (Js.truthy s = false -> sid = uuidv4 env)
  /\ ((out.2 = [emit (to_socket c) "user:connected" (session_payload sid)]
       /\ c ∈ members (session_room sid) out.1
       /\ messages (db out.1) = messages (db st)
       /\ exists key rec address',
            chat_sessions (db out.1) !! key = Some rec
            /\ (forall k, k <> key ->
                  chat_sessions (db out.1) !! k = chat_sessions (db st) !! k)
            /\ ChatSession.status rec = active
            /\ match getSession sid (db st) with
               | Some old =>
                   key = Pg.escape sid
                   /\ ChatSession.sessionId rec = ChatSession.sessionId old
                   /\ ChatSession.createdAt rec = ChatSession.createdAt old
                   /\ ChatSession.aiEnabled rec = ChatSession.aiEnabled old
                   /\ ((rec = old /\ ChatSession.userIp old = Some address
                        /\ ChatSession.userAgent old = Some browser)
                       \/ (Pg.varchar 45 (Pg.escape address) = Some address'
                           /\ ChatSession.userIp rec = Some address'
                           /\ ChatSession.userAgent rec = Some (Pg.escape browser)
                           /\ ChatSession.updatedAt rec = now env))
               | None =>
                   Validator.notEmpty sid = true
                   /\ stored_id sid = Some key
                   /\ chat_sessions (db st) !! key = None
                   /\ Pg.varchar 45 (Pg.escape address) = Some address'
                   /\ rec = ChatSession.mk key (Some address') (Some (Pg.escape browser))
                              active false (now env) (now env)
               end)
      \/ (out.2 = [failed_to_connect c] /\ out.1 = st
          /\ match getSession sid (db st) with
             | Some old =>
                 Pg.varchar 45 (Pg.escape address) = None
                 /\ ~ (ChatSession.status old = active
                       /\ ChatSession.userIp old = Some address
                       /\ ChatSession.userAgent old = Some browser)
             | None =>
                 Validator.notEmpty sid = false
                 \/ stored_id sid = None
                 \/ Pg.varchar 45 (Pg.escape address) = None
                 \/ exists key, stored_id sid = Some key
                                /\ is_Some (chat_sessions (db st) !! key)
             end)).
Proof.
  intros sid address browser out. split; [|split].
  - intros Hs. symmetry. by apply or_else_supplied.
  - intros Hs. by apply or_else_falsy.
  - unfold out, handle, on_user_connect. fold sid address browser.
    destruct (createOrUpdateSession _ _ _) as [d|e] eqn:Hc; [left|right].
    2: {
      cbn [fst snd]. split; [done|]. split; [done|].
      assert (forall d',
                 createOrUpdateSession (now env)
                   (mkSessionData sid (Some address) (Some browser) (Some active)) (db st)
                 <> Ok d') as Hno by (intros d' H; rewrite H in Hc; discriminate).
      assert (address <> "" /\ browser <> "") as [Ha Hb]
        by (split; by apply or_else_nonempty).
      unfold getSession.
      destruct (chat_sessions (db st) !! Pg.escape sid) as [old|] eqn:Hold.
      - destruct (decide (ChatSession.status old = active
                          /\ ChatSession.userIp old = Some address
                          /\ ChatSession.userAgent old = Some browser)) as [Hsame|Hsame].
        + exfalso. apply (Hno (db st)).
          apply createOrUpdateSession_connect; [done..|].
          by rewrite Hold, bool_decide_eq_true_2.
        + split; [|done].
          destruct (Pg.varchar 45 (Pg.escape address)) as [ip'|] eqn:Hfit; [exfalso|done].
          eapply Hno. apply createOrUpdateSession_connect; [done..|].
          rewrite Hold, bool_decide_eq_false_2 by done. exists ip'. by rewrite Hfit.
      - destruct (Validator.notEmpty sid) eqn:Hne; [right|by left].
        destruct (stored_id sid) as [key|] eqn:Hkey; [right|by left].
        destruct (Pg.varchar 45 (Pg.escape address)) as [ip'|] eqn:Hfit; [right|by left].
        exists key. split; [done|].
        destruct (chat_sessions (db st) !! key) eqn:Hk; [by eexists|exfalso].
        eapply Hno. apply createOrUpdateSession_connect; [done..|].
        rewrite Hold. split; [done|]. exists key, ip'. by rewrite Hfit. }
    pose proof (createOrUpdateSession_messages _ _ _ _ Hc) as Hm.
    apply createOrUpdateSession_connect in Hc; [|by apply or_else_nonempty..].
    cbn [fst snd]. split; [done|]. split; [|split; [done|]].
    { rewrite members_join. case_decide; [|done].
      rewrite elem_of_union, elem_of_singleton. by left. }
    unfold getSession. simpl.
    destruct (chat_sessions (db st) !! Pg.escape sid) as [old|] eqn:Hold.
    + case_bool_decide as Hsame.
      * subst d. exists (Pg.escape sid), old, address.
        destruct Hsame as (? & ? & ?). repeat split; try done. by left.
      * destruct Hc as (ip' & Hfit & ->). exists (Pg.escape sid). eexists. exists ip'.
        simpl. rewrite lookup_insert_eq. split; [done|].
        split; [intros k Hk; by rewrite lookup_insert_ne|].
        repeat split; try done. by right.
    + destruct Hc as (Hne & key & ip' & Hkey & Hfit & Hnone & ->).
      exists key. eexists. exists ip'. simpl. rewrite lookup_insert_eq.
      split; [done|]. split; [intros k Hk; by rewrite lookup_insert_ne|]. done.
Qed.

(** ** Messages and the status of the session *)

Section StatusBlind.

Lemma same_flags_is_Some d1 d2 k :
  same_flags d1 d2 -> is_Some (chat_sessions d1 !! k) <-> is_Some (chat_sessions d2 !! k).
Proof.
  intros Hf. specialize (Hf k).
  destruct (chat_sessions d1 !! k), (chat_sessions d2 !! k); simpl in *;
    try done; split; intros [? ?]; done.
Qed.

Lemma same_flags_refl d : same_flags d d.
Proof. by intros k. Qed.

Lemma same_flags_trans d1 d2 d3 : same_flags d1 d2 -> same_flags d2 d3 -> same_flags d1 d3.
Proof. intros H1 H2 k. by rewrite H1. Qed.

Lemma createMessage_flags now a d d' row :
  createMessage now a d = Ok (d', row) -> same_flags d d'.
Proof. intros Hc k. by rewrite (createMessage_sessions _ _ _ _ _ Hc). Qed.

Lemma createMessage_same_flags now a d1 d2 :
  same_flags d1 d2 ->
  match createMessage now a d1, createMessage now a d2 with
  | Ok (d1', r1), Ok (d2', r2) => r1 = r2 /\ same_flags d1' d2'
  | Throw _, Throw _ => True
  | _, _ => False
  end.
Proof.
  intros Hf.
  destruct (createMessage now a d1) as [[d1' r1]|e1] eqn:H1,
           (createMessage now a d2) as [[d2' r2]|e2] eqn:H2; try done.
  - pose proof (createMessage_flags _ _ _ _ _ H1) as Hf1.
    pose proof (createMessage_flags _ _ _ _ _ H2) as Hf2.
    apply createMessage_Ok in H1 as (_ & Hc1 & _).
    apply createMessage_Ok in H2 as (_ & Hc2 & _).
    split; [congruence|]. intros k. by rewrite <- Hf1, <- Hf2.
  - apply createMessage_Ok in H1 as (Hv & Hc & Hs & _).
    apply (same_flags_is_Some d1 d2 _ Hf) in Hs.
    assert (createMessage now a d2
            = Ok (mkDb (chat_sessions d2) (messages d2 ++ [r1]), r1)) as H
      by (by apply createMessage_Ok).
    congruence.
  - apply createMessage_Ok in H2 as (Hv & Hc & Hs & _).
    apply (same_flags_is_Some d1 d2 _ Hf) in Hs.
    assert (createMessage now a d1
            = Ok (mkDb (chat_sessions d1) (messages d1 ++ [r2]), r2)) as H
      by (by apply createMessage_Ok).
    congruence.
Qed.

Lemma ai_reply_same_flags v env sid st1 st2 :
  same_flags (db st1) (db st2) ->
  (ai_reply v env sid st1).2 = (ai_reply v env sid st2).2.
Proof.
  intros Hf. unfold ai_reply, getSession.
  pose proof (Hf (Pg.escape sid)) as Hsid.
  assert (from_option ChatSession.aiEnabled false (chat_sessions (db st1) !! Pg.escape sid)
          = from_option ChatSession.aiEnabled false
              (chat_sessions (db st2) !! Pg.escape sid)) as ->.
  { destruct (chat_sessions (db st1) !! _), (chat_sessions (db st2) !! _);
      simpl in *; congruence. }
  destruct (_ && _); [|done].
  destruct (reply env) as [code|content]; [done|].
  destruct (Js.truthy _); [|by destruct v].
  pose proof (createMessage_same_flags (later env)
                (aiArgs sid (text (Js.trim <$> content))) _ _ Hf) as Hc.
  destruct (createMessage _ _ (db st1)) as [[d1 r1]|e1],
           (createMessage _ _ (db st2)) as [[d2 r2]|e2]; try done.
  by destruct Hc as [-> _].
Qed.

Lemma session_set_status_same_flags now key s st d :
  chat_sessions d !! key = Some s ->
  same_flags d (session_set_status now key s st d).
Proof.
  intros Hs k. unfold session_set_status. case_bool_decide; [done|]. simpl.
  rewrite lookup_insert. case_decide; [subst k|done]. by rewrite Hs.
Qed.

Lemma on_session_close_same_flags env s st :
  same_flags (db st) (db (on_session_close env s st).1).
Proof.
  unfold on_session_close. destruct (Js.truthy s); [|apply same_flags_refl].
  destruct (updateSessionStatus _ _ _ _) as [d|e] eqn:Hu; [|apply same_flags_refl].
  simpl. apply updateSessionStatus_Ok in Hu as (old & Hold & ->).
  by apply session_set_status_same_flags.
Qed.

End StatusBlind.

(** X7. What a [message:user] or [message:admin] event makes the server
    store and send depends on the store only through which sessions exist
    and which of them have auto-reply on; in particular it does not depend on
    the status of the session: a message to an inactive or closed session is
    persisted, broadcast and answered exactly like one to an active
    session. *)
Theorem message_events_ignore_status
    (v : Variant) (env : Env) (c : nat) (ev : Inbound) (st1 st2 : State) :
  same_flags (db st1) (db st2) ->
  (exists data, ev = message_user data \/ ev = message_admin data) ->
  (handle v env c ev st1).2 = (handle v env c ev st2).2.
Proof.
  intros Hf (data & [-> | ->]); unfold handle.
  - unfold on_message_user. destruct (invalid data); [done|].
    pose proof (createMessage_same_flags (now env) (messageArgs data user "User")
                  _ _ Hf) as Hc.
    destruct (createMessage _ _ (db st1)) as [[d1 r1]|e1],
             (createMessage _ _ (db st2)) as [[d2 r2]|e2]; try done.
    destruct Hc as [-> Hf'].
    pose proof (ai_reply_same_flags v env (text (sessionId data))
                  (set_db st1 d1) (set_db st2 d2) Hf') as Hai.
    destruct (ai_reply v env _ (set_db st1 d1)) as [st1' ai1],
             (ai_reply v env _ (set_db st2 d2)) as [st2' ai2].
    simpl in *. by rewrite Hai.
  - unfold on_message_admin. destruct (invalid data); [done|].
    pose proof (createMessage_same_flags (now env) (messageArgs data admin "Admin")
                  _ _ Hf) as Hc.
    destruct (createMessage _ _ (db st1)) as [[d1 r1]|e1],
             (createMessage _ _ (db st2)) as [[d2 r2]|e2]; try done.
    by destruct Hc as [-> _].
Qed.

Lemma message_events_ignore_status_witness :
  let closed_session :=
    (handle OpenAI Scenario.quiet 1 (session_close (Some "s1")) Scenario.one_session).1 in
  status_of "s1" closed_session = Some inactive
  /\ (handle OpenAI Scenario.quiet 1 (message_user Scenario.hello) Scenario.one_session).2
     = (handle OpenAI Scenario.quiet 1 (message_user Scenario.hello) closed_session).2.
Proof.
  intros closed_session. split; [vm_compute; reflexivity|].
  apply message_events_ignore_status.
  - apply (on_session_close_same_flags Scenario.quiet (Some "s1") Scenario.one_session).
  - exists Scenario.hello. by left.
Defined.

(** ** The auto-reply flag *)

Section Flags.

Lemma ai_reply_flags v env sid st : same_flags (db st) (db (ai_reply v env sid st).1).
Proof. intros k. by rewrite ai_reply_sessions. Qed.

(** The step is skipped when the flag of the session is not on or no key is
    configured. *)
Lemma ai_reply_skipped v env sid st :
  ChatSession.aiEnabled <$> getSession sid (db st) <> Some true
  \/ Js.truthy (api_key env) = false ->
  ai_reply v env sid st = (st, []).
Proof.
  intros Hoff. unfold ai_reply.
  destruct (getSession sid (db st)) as [s|]; simpl in *.
  - destruct (ChatSession.aiEnabled s); simpl; [|done].
    destruct Hoff as [Hoff| ->]; [congruence|done].
  - done.
Qed.

(** No event changes the flag of a session; a session an event creates has
    it off. *)
Lemma handle_flags v env c ev st k :
  ChatSession.aiEnabled <$> chat_sessions (db (handle v env c ev st).1) !! k
  = ChatSession.aiEnabled <$> chat_sessions (db st) !! k
  \/ (chat_sessions (db st) !! k = None
      /\ ChatSession.aiEnabled <$> chat_sessions (db (handle v env c ev st).1) !! k
         = Some false).
Proof.
  destruct ev as [s ip ua|data|data| |s ty|s ty|s| |event]; unfold handle.
  - unfold on_user_connect.
    destruct (createOrUpdateSession _ _ _) as [d|e] eqn:Hc; [|by left]. simpl.
    apply createOrUpdateSession_connect in Hc; [|by apply or_else_nonempty..].
    destruct (chat_sessions (db st) !! Pg.escape _) as [old|] eqn:Hold.
    + case_bool_decide; [subst; by left|].
      destruct Hc as (ip' & _ & ->). simpl. left.
      rewrite lookup_insert. case_decide; [subst k|done]. by rewrite Hold.
    + destruct Hc as (_ & key & ip' & _ & _ & Hnone & ->). simpl.
      rewrite lookup_insert. case_decide; [subst k|by left]. by right.
  - left. unfold on_message_user. destruct (invalid data); [done|].
    destruct (createMessage _ _ _) as [[d saved]|e] eqn:Hc; [|done].
    pose proof (ai_reply_flags v env (text (sessionId data)) (set_db st d) k) as Hai.
    destruct (ai_reply v env (text (sessionId data)) (set_db st d)) as [st' ai].
    simpl in *. rewrite <- Hai. symmetry. by apply createMessage_flags in Hc.
  - left. unfold on_message_admin. destruct (invalid data); [done|].
    destruct (createMessage _ _ _) as [[d saved]|e] eqn:Hc; [|done].
    simpl. symmetry. by apply createMessage_flags in Hc.
  - by left.
  - left. by rewrite on_typing_start_idle.
  - left. by rewrite on_typing_stop_idle.
  - left. symmetry. apply on_session_close_same_flags.
  - left. by rewrite close_connection_eq.
  - left. by rewrite on_no_data_state.
Qed.

(** No event removes a session. *)
Lemma handle_keeps_sessions v env c ev st k :
  is_Some (chat_sessions (db st) !! k) ->
  is_Some (chat_sessions (db (handle v env c ev st).1) !! k).
Proof.
  intros [s Hs]. destruct (handle_flags v env c ev st k) as [H|[H _]]; [|congruence].
  rewrite Hs in H. simpl in H.
  destruct (chat_sessions (db (handle v env c ev st).1) !! k); [by eexists|done].
Qed.

(** With the step skipped, the handler of [message:user] does what the
    handler of [message:admin] does, towards the admin room. *)
Lemma on_message_user_without_reply v env c data st :
  (forall sid, sessionId data = Some sid ->
     ChatSession.aiEnabled <$> getSession sid (db st) <> Some true)
  \/ Js.truthy (api_key env) = false ->
  on_message_user v env c data st
  = if invalid data then (st, [invalid_message_data c])
    else match createMessage (now env) (messageArgs data user "User") (db st) with
         | Ok (d, saved) =>
             (set_db st d,
              [persisted saved;
               emit (to_room "admin") "message:new"
                    (message_payload (messageData (text (sessionId data)) user saved));
               emit (to_socket c) "message:sent"
                    (message_payload (messageData (text (sessionId data)) user saved))])
         | Throw _ => (st, [failed_to_send c])
         end.
Proof.
  intros Hoff. unfold on_message_user. destruct (invalid data) eqn:Hi; [done|].
  destruct (createMessage _ _ _) as [[d saved]|e] eqn:Hc; [|done].
  rewrite ai_reply_skipped; [done|].
  destruct Hoff as [Hoff|Hkey]; [left|by right].
  apply invalid_false_iff in Hi as (sid & body & Hs & _).
  rewrite Hs. simpl. specialize (Hoff sid Hs).
  unfold getSession in *. simpl. by rewrite (createMessage_sessions _ _ _ _ _ Hc).
Qed.

End Flags.

(** X8. If the session a [message:user] event names does not have its
    auto-reply flag on, or no API key is configured, the handler does not
    enter the AI-reply step, whatever the generator would answer: it sends
    no [typing:admin], no [typing:admin:stop] and no [message:received],
    nothing it stores or sends is marked as automated, and no exception
    leaves it. *)
Theorem auto_reply_off_means_no_reply
    (v : Variant) (env : Env) (c : nat) (data : ChatMessage) (st : State) (a : Action) :
  (forall sid, sessionId data = Some sid ->
     ChatSession.aiEnabled <$> getSession sid (db st) <> Some true)
  \/ Js.truthy (api_key env) = false ->
  In a (handle v env c (message_user data) st).2 ->
  match a with
  | persisted m => Message.isAi m = false
  | emit _ name p =>
      name <> "typing:admin" /\ name <> "typing:admin:stop"
      /\ name <> "message:received"
      /\ match p with
         | message_payload md => md_isAi md = false
         | _ => True
         end
  | throws _ => False
  end.
Proof.
  intros Hoff. unfold handle. rewrite (on_message_user_without_reply _ _ _ _ _ Hoff).
  destruct (invalid data).
  { simpl. intros [<-|[]]. simpl. by repeat split. }
  destruct (createMessage _ _ _) as [[d saved]|e] eqn:Hc.
  - apply createMessage_row in Hc as (_ & _ & _ & _ & Hai & _). simpl in *.
    intros [<-|[<-|[<-|[]]]]; simpl; by repeat split.
  - simpl. intros [<-|[]]. simpl. by repeat split.
Qed.

Lemma auto_reply_off_means_no_reply_witness :
  let env := Scenario.answering (Some "Sure.") in
  let a := emit (to_room "admin") "message:new"
             (message_payload
                (messageData "s1" user
                   (Message.mk "s1" "Hello" "Alice" user false None None 9))) in
  In a (handle OpenAI env 1 (message_user Scenario.hello) Scenario.one_session).2
  /\ "message:new" <> "typing:admin".
Proof.
  intros env a.
  assert (In a (handle OpenAI env 1 (message_user Scenario.hello)
                  Scenario.one_session).2) as Hin.
  { vm_compute. right. left. reflexivity. }
  split; [exact Hin|].
  assert (forall sid, sessionId Scenario.hello = Some sid ->
            ChatSession.aiEnabled <$> getSession sid (db Scenario.one_session)
            <> Some true) as Hoff.
  { intros sid [= <-]. vm_compute. discriminate. }
  exact (proj1 (auto_reply_off_means_no_reply OpenAI env 1 Scenario.hello
                  Scenario.one_session a (or_introl Hoff) Hin)).
Defined.

Section NoReplyInRuns.

Lemma handle_without_automated v env c ev st a :
  (forall k s, chat_sessions (db st) !! k = Some s -> ChatSession.aiEnabled s = false) ->
  In a (handle v env c ev st).2 ->
  match a with
  | persisted m => Message.isAi m = false
  | emit _ _ (message_payload md) => md_isAi md = false
  | _ => True
  end.
Proof.
  intros Hoff. destruct ev as [s ip ua|data|data| |s ty|s ty|s| |event]; unfold handle.
  - unfold on_user_connect.
    destruct (createOrUpdateSession _ _ _); simpl; by intros [<-|[]].
  - rewrite on_message_user_without_reply.
    + destruct (invalid data); [simpl; by intros [<-|[]]|].
      destruct (createMessage _ _ _) as [[d saved]|e] eqn:Hc;
        [|simpl; by intros [<-|[]]].
      apply createMessage_row in Hc as (_ & _ & _ & _ & Hai & _). simpl in *.
      by intros [<-|[<-|[<-|[]]]].
    + left. intros sid _. unfold getSession.
      destruct (chat_sessions (db st) !! Pg.escape sid) as [rec|] eqn:Hrec; [|done].
      simpl. rewrite (Hoff _ _ Hrec). discriminate.
  - unfold on_message_admin.
    destruct (invalid data); [simpl; by intros [<-|[]]|].
    destruct (createMessage _ _ _) as [[d saved]|e] eqn:Hc;
      [|simpl; by intros [<-|[]]].
    apply createMessage_row in Hc as (_ & _ & _ & _ & Hai & _). simpl in *.
    by intros [<-|[<-|[<-|[]]]].
  - simpl. tauto.
  - unfold on_typing_start. destruct (_ || _); [simpl; tauto|].
    destruct (bool_decide _); simpl; by intros [<-|[]].
  - unfold on_typing_stop. destruct (_ || _); [simpl; tauto|].
    destruct (bool_decide _); simpl; by intros [<-|[]].
  - unfold on_session_close. destruct (Js.truthy s); [|simpl; tauto].
    destruct (updateSessionStatus _ _ _ _); simpl; tauto.
  - rewrite close_connection_eq. simpl. tauto.
  - destruct event; simpl; intros H; try tauto; by destruct H as [<-|[]].
Qed.

Lemma handle_keeps_flags_off v env c ev st :
  (forall k s, chat_sessions (db st) !! k = Some s -> ChatSession.aiEnabled s = false) ->
  forall k s, chat_sessions (db (handle v env c ev st).1) !! k = Some s ->
              ChatSession.aiEnabled s = false.
Proof.
  intros Hoff k s Hs.
  destruct (handle_flags v env c ev st k) as [H|[_ H]]; rewrite Hs in H; simpl in H.
  - destruct (chat_sessions (db st) !! k) as [s0|] eqn:Hs0; [|done].
    simpl in H. injection H as ->. by apply (Hoff k s0).
  - by injection H.
Qed.

End NoReplyInRuns.

(** X9. No event of a connection turns the auto-reply flag of a session on,
    and a session created by [user:connect] has it off. So in a run that
    starts from a store in which no session has the flag on (the empty store,
    for one), no session ever has it on, and nothing that is stored or sent
    during the run is marked as automated. *)
Theorem no_event_enables_auto_reply
    (v : Variant) (evs : list (Env * nat * Inbound)) (st : State) :
  (forall k s, chat_sessions (db st) !! k = Some s -> ChatSession.aiEnabled s = false) ->
  (forall k s, chat_sessions (db (run v evs st).1) !! k = Some s ->
               ChatSession.aiEnabled s = false)
  /\ forall a, In a (run v evs st).2 ->
       match a with
       | persisted m => Message.isAi m = false
       | emit _ _ (message_payload md) => md_isAi md = false
       | _ => True
       end.
Proof.
  revert st. induction evs as [|[[env c] ev] rest IH]; intros st Hoff; simpl.
  { split; [done|tauto]. }
  pose proof (handle_without_automated v env c ev st) as Hnow.
  pose proof (handle_keeps_flags_off v env c ev st Hoff) as Hnext.
  destruct (handle v env c ev st) as [st1 t1]. simpl in *.
  destruct (thrown t1); [split; [done|]; intros a Ha; by apply Hnow|].
  destruct (IH st1 Hnext) as [Hflags Hrest].
  destruct (run v rest st1) as [st2 t2]. simpl in *.
  split; [done|]. intros a Ha. apply in_app_or in Ha as [Ha|Ha]; [|by apply Hrest].
  by apply Hnow.
Qed.

Lemma no_event_enables_auto_reply_witness :
  let evs := [(Scenario.answering (Some "Sure."), 1, user_connect (Some "s1") None None);
              (Scenario.answering (Some "Sure."), 1, message_user Scenario.hello)] in
  length (run Groq evs empty_state).2 = 4
  /\ forall a, In a (run Groq evs empty_state).2 ->
       match a with
       | persisted m => Message.isAi m = false
       | emit _ _ (message_payload md) => md_isAi md = false
       | _ => True
       end.
Proof.
  intros evs. split; [vm_compute; reflexivity|].
  apply no_event_enables_auto_reply.
  intros k s Hs. unfold empty_state in Hs. simpl in Hs.
  rewrite lookup_empty in Hs. discriminate.
Defined.

(** ** The rows an event writes *)

Section Rows.

(** What the validators and the columns leave of a body and of an author
    name. *)
Lemma accepted_row_facts values m :
  message_validate values = true -> message_columns values = Some m ->
  Message.message m = Pg.escape (Message.message values)
  /\ Message.message m <> ""
  /\ String.length (Message.message values) <= 5001
  /\ String.length (Message.message m) <= 2 * 5001
  /\ Pg.clean (Message.message m) = true
  /\ Validator.notEmpty (Message.sender m) = true
  /\ 1 <= String.length (Message.sender m) <= 50.
Proof.
  unfold message_validate, Validator.len. rewrite !andb_true_iff.
  intros [[[Hne [_ Hlen]] Hs] [_ _]] Hc.
  apply Nat.leb_le in Hlen.
  apply message_columns_fields in Hc as (_ & Hm & Hn & _).
  rewrite Hm. split; [done|].
  split. { intros He. apply (proj1 (escape_empty _)) in He. by rewrite He in Hne. }
  split; [done|].
  split. { etransitivity; [apply length_escape|]. by apply Nat.mul_le_mono_l. }
  split; [apply clean_escape|].
  assert (Validator.notEmpty (Message.sender m) = true) as Hnm.
  { unfold Validator.notEmpty in *.
    by rewrite (varchar_blank _ _ _ Hn), blank_escape. }
  split; [done|]. split.
  - by apply length_pos_of_nonempty, notEmpty_nonempty.
  - by apply (varchar_length _ _ _ Hn).
Qed.

Lemma ai_reply_row_accepted v env sid st m :
  In m (persisted_rows (ai_reply v env sid st).2) ->
  accepted_row m /\ is_Some (chat_sessions (db st) !! Message.sessionId m).
Proof.
  unfold ai_reply.
  destruct (_ && _); [|done].
  destruct (reply env) as [code|content]; [simpl; tauto|].
  destruct (Js.truthy _) eqn:Ht.
  - destruct (createMessage _ _ _) as [[d aiSaved]|e] eqn:Hc; [|simpl; tauto].
    apply createMessage_accepted in Hc. simpl. by intros [<- | []].
  - destruct v; simpl; tauto.
Qed.

(** A row an event writes is one the store accepted in the state before
    the event, and the body the validators saw was trimmed. *)
Lemma persisted_row_accepted v env c ev st m :
  In m (persisted_rows (handle v env c ev st).2) ->
  accepted_row m
  /\ is_Some (chat_sessions (db st) !! Message.sessionId m)
  /\ exists body, Message.message m = Pg.escape body /\ Js.trim body = body
                  /\ String.length body <= 5001.
Proof.
  assert (forall now data ty fallback d d' saved,
             createMessage now (messageArgs data ty fallback) d = Ok (d', saved) ->
             exists body, Message.message saved = Pg.escape body /\ Js.trim body = body
                          /\ String.length body <= 5001) as Hbody.
  { intros now data ty fallback d d' saved Hc.
    apply createMessage_Ok in Hc as (Hv & Hc & _).
    destruct (accepted_row_facts _ _ Hv Hc) as (Hm & _ & Hlen & _).
    eexists. split; [exact Hm|]. split; [apply trim_idempotent|exact Hlen]. }
  destruct ev as [s ip ua|data|data| |s ty|s ty|s| |event]; unfold handle.
  - unfold on_user_connect. destruct (createOrUpdateSession _ _ _); simpl; tauto.
  - unfold on_message_user. destruct (invalid data); [simpl; tauto|].
    destruct (createMessage _ _ _) as [[d saved]|e] eqn:Hc; [|simpl; tauto].
    pose proof (ai_reply_row_accepted v env (text (sessionId data)) (set_db st d) m) as Hacc.
    pose proof (ai_reply_rows v env (text (sessionId data)) (set_db st d) m) as Hrows.
    destruct (ai_reply v env (text (sessionId data)) (set_db st d)) as [st' ai].
    simpl in *. intros [<- | Hin].
    + destruct (createMessage_accepted _ _ _ _ _ Hc). split; [done|].
      split; [done|]. by apply Hbody in Hc.
    + destruct (Hacc Hin) as [? Hex].
      rewrite (createMessage_sessions _ _ _ _ _ Hc) in Hex.
      split; [done|]. split; [done|].
      destruct (Hrows Hin) as (_ & _ & _ & _ & _ & _ & aiText & ? & _ & ? & ?).
      by exists aiText.
  - unfold on_message_admin. destruct (invalid data); [simpl; tauto|].
    destruct (createMessage _ _ _) as [[d saved]|e] eqn:Hc; [|simpl; tauto].
    simpl. intros [<- | []].
    destruct (createMessage_accepted _ _ _ _ _ Hc). split; [done|].
    split; [done|]. by apply Hbody in Hc.
  - simpl. tauto.
  - unfold on_typing_start. destruct (_ || _); [simpl; tauto|].
    destruct (bool_decide _); simpl; tauto.
  - unfold on_typing_stop. destruct (_ || _); [simpl; tauto|].
    destruct (bool_decide _); simpl; tauto.
  - unfold on_session_close. destruct (Js.truthy s); [|simpl; tauto].
    destruct (updateSessionStatus _ _ _ _); simpl; tauto.
  - rewrite close_connection_eq. simpl. tauto.
  - rewrite on_no_data_rows. simpl. tauto.
Qed.

End Rows.

(** X10. Every message an event stores, the user's, the admin's or the
    generator's, has a body that is trimmed (trimming it again changes
    nothing), not empty and free of code unit 0. The body is the trimmed
    text of at most 5001 characters that passed the validator, with every
    code unit 0 in it written as two characters: what is stored has at most
    2 * 5001 characters, and may have more than 5001. The author name is not
    blank and has at most 50 characters, and the message belongs to a
    session that had a record before the event. *)
Theorem stored_messages_are_trimmed_and_bounded
    (v : Variant) (env : Env) (c : nat) (ev : Inbound) (st : State) (m : Message.t) :
  In m (persisted_rows (handle v env c ev st).2) ->
  Js.trim (Message.message m) = Message.message m
  /\ Message.message m <> ""
  /\ Pg.clean (Message.message m) = true
  /\ (exists body, Message.message m = Pg.escape body /\ Js.trim body = body
                   /\ String.length body <= 5001)
  /\ String.length (Message.message m) <= 2 * 5001
  /\ Validator.notEmpty (Message.sender m) = true
  /\ 1 <= String.length (Message.sender m) <= 50
  /\ is_Some (chat_sessions (db st) !! Message.sessionId m).
Proof.
  intros Hin.
  apply persisted_row_accepted in Hin
    as ((values & Hv & Hc) & Hs & (body & Hbody & Htrim & Hlen)).
  destruct (accepted_row_facts _ _ Hv Hc) as (_ & Hne & _ & Hmax & Hclean & Hname & Hwidth).
  split; [by rewrite Hbody, trim_escape, Htrim|].
  split; [exact Hne|]. split; [exact Hclean|].
  split; [by exists body|]. split; [exact Hmax|].
  split; [exact Hname|]. split; [exact Hwidth|exact Hs].
Qed.

Lemma stored_messages_are_trimmed_and_bounded_witness :
  let m := Message.mk "s1" "Hello" "Alice" user false None None 7 in
  In m (persisted_rows
          (handle OpenAI Scenario.quiet 1 (message_user Scenario.hello)
             Scenario.one_session).2)
  /\ Js.trim (Message.message m) = Message.message m.
Proof.
  intros m.
  assert (In m (persisted_rows
                  (handle OpenAI Scenario.quiet 1 (message_user Scenario.hello)
                     Scenario.one_session).2)) as Hin.
  { vm_compute. left. reflexivity. }
  split; [exact Hin|].
  exact (proj1 (stored_messages_are_trimmed_and_bounded OpenAI Scenario.quiet 1
                  (message_user Scenario.hello) Scenario.one_session m Hin)).
Defined.

(** X11. The author class of a stored message is fixed by the name of the
    event, never by its payload: a row written for [message:user] has class
    user, one written for [message:admin] has class admin, and both have the
    automated flag off. The only rows with the automated flag on are those
    of the AI-reply step of a [message:user] event, and they have the class
    admin and the author name ["AI"]. *)
Theorem author_class_fixed_by_event
    (v : Variant) (env : Env) (c : nat) (ev : Inbound) (st : State) (m : Message.t) :
  In m (persisted_rows (handle v env c ev st).2) ->
  (Message.isAi m = false
   /\ ((exists data, ev = message_user data /\ Message.senderType m = user)
       \/ (exists data, ev = message_admin data /\ Message.senderType m = admin)))
  \/ (Message.isAi m = true
      /\ Message.senderType m = admin /\ Message.sender m = "AI"
      /\ exists data, ev = message_user data).
Proof.
  destruct ev as [s ip ua|data|data| |s ty|s ty|s| |event]; unfold handle.
  - unfold on_user_connect. destruct (createOrUpdateSession _ _ _); simpl; tauto.
  - unfold on_message_user. destruct (invalid data); [simpl; tauto|].
    destruct (createMessage _ _ _) as [[d saved]|e] eqn:Hc; [|simpl; tauto].
    pose proof (ai_reply_rows v env (text (sessionId data)) (set_db st d) m) as Hai.
    destruct (ai_reply v env (text (sessionId data)) (set_db st d)) as [st' ai].
    apply createMessage_row in Hc as (_ & _ & _ & Hty & Hflag & _). simpl in *.
    intros [<- | Hin].
    + left. split; [done|]. left. by exists data.
    + right. destruct (Hai Hin) as (? & ? & ? & _). repeat split; try done.
      by exists data.
  - unfold on_message_admin. destruct (invalid data); [simpl; tauto|].
    destruct (createMessage _ _ _) as [[d saved]|e] eqn:Hc; [|simpl; tauto].
    apply createMessage_row in Hc as (_ & _ & _ & Hty & Hflag & _). simpl in *.
    intros [<- | []]. left. split; [done|]. right. by exists data.
  - simpl. tauto.
  - unfold on_typing_start. destruct (_ || _); [simpl; tauto|].
    destruct (bool_decide _); simpl; tauto.
  - unfold on_typing_stop. destruct (_ || _); [simpl; tauto|].
    destruct (bool_decide _); simpl; tauto.
  - unfold on_session_close. destruct (Js.truthy s); [|simpl; tauto].
    destruct (updateSessionStatus _ _ _ _); simpl; tauto.
  - rewrite close_connection_eq. simpl. tauto.
  - rewrite on_no_data_rows. simpl. tauto.
Qed.

Lemma author_class_fixed_by_event_witness :
  let m := Message.mk "s1" "Sure." "AI" admin true None None 12 in
  let ev := message_user Scenario.hello in
  In m (persisted_rows
          (handle Groq (Scenario.answering (Some " Sure. ")) 1 ev
             Scenario.one_session_ai).2)
  /\ exists data, ev = message_user data.
Proof.
  intros m ev.
  assert (In m (persisted_rows
                  (handle Groq (Scenario.answering (Some " Sure. ")) 1 ev
                     Scenario.one_session_ai).2)) as Hin.
  { vm_compute. right. left. reflexivity. }
  split; [exact Hin|].
  destruct (author_class_fixed_by_event Groq (Scenario.answering (Some " Sure. ")) 1 ev
              Scenario.one_session_ai m Hin) as [[Hflag _] | (_ & _ & _ & Hev)].
  - discriminate.
  - exact Hev.
Defined.

(** ** Invariants of runs *)

Section Runs.

Lemma persisted_rows_app t1 t2 :
  persisted_rows (t1 ++ t2) = persisted_rows t1 ++ persisted_rows t2.
Proof. unfold persisted_rows. apply omap_app. Qed.

Lemma handle_keeps_store_consistent v env c ev st :
  store_consistent (db st) -> store_consistent (db (handle v env c ev st).1).
Proof.
  unfold store_consistent. intros Hst. rewrite handle_messages.
  apply Forall_app. split.
  - eapply Forall_impl; [exact Hst|]. intros m (Hv & Hs).
    split; [done|]. by apply handle_keeps_sessions.
  - apply Forall_forall. intros m Hin. apply list_elem_of_In in Hin.
    apply persisted_row_accepted in Hin as (Hv & Hs & _).
    split; [done|]. by apply handle_keeps_sessions.
Qed.



End Runs.

(** X12. Referential integrity is an invariant of every run: if every
    stored message is a row as the gateway leaves one (what the columns make
    of values that pass the validators of the model) and belongs to a
    session that has a record, the same holds after any sequence of events.
    No event removes a session, so no message is ever left without its
    session. *)
Theorem run_keeps_store_consistent
    (v : Variant) (evs : list (Env * nat * Inbound)) (st : State) :
  store_consistent (db st) -> store_consistent (db (run v evs st).1).
Proof.
  revert st. induction evs as [|[[env c] ev] rest IH]; intros st Hst; simpl; [done|].
  pose proof (handle_keeps_store_consistent v env c ev st Hst) as H1.
  destruct (handle v env c ev st) as [st1 t1]. simpl in *.
  destruct (thrown t1); [done|].
  specialize (IH st1 H1). by destruct (run v rest st1) as [st2 t2].
Qed.

Lemma run_keeps_store_consistent_witness :
  store_consistent
    (db (run OpenAI
           [(Scenario.quiet, 1, user_connect (Some "s1") None None);
            (Scenario.quiet, 1, message_user Scenario.hello);
            (Scenario.quiet, 1, session_close (Some "s1"))]
           empty_state).1).
Proof.
  apply run_keeps_store_consistent. unfold store_consistent, empty_state. simpl.
  constructor.
Defined.



(** X14. The table of messages is append-only along every run: the rows
    stored after a sequence of events are the rows stored before, unchanged
    and in the same order, followed by exactly the rows the events wrote, in
    the order they were written. No event edits or deletes a message. *)
Theorem run_appends_messages
    (v : Variant) (evs : list (Env * nat * Inbound)) (st : State) :
  messages (db (run v evs st).1)
  = messages (db st) ++ persisted_rows (run v evs st).2.
Proof.
  revert st. induction evs as [|[[env c] ev] rest IH]; intros st; simpl.
  { by rewrite app_nil_r. }
  pose proof (handle_messages v env c ev st) as H1.
  destruct (handle v env c ev st) as [st1 t1]. simpl in *.
  destruct (thrown t1); [done|].
  specialize (IH st1). destruct (run v rest st1) as [st2 t2]. simpl in *.
  by rewrite IH, H1, persisted_rows_app, app_assoc.
Qed.

(** ** Reading the store *)

#[global] Instance older_total : Total older.
Proof. intros m1 m2. unfold older. lia. Qed.
#[global] Instance older_trans : Transitive older.
Proof. intros m1 m2 m3. unfold older. lia. Qed.
#[global] Instance newer_total : Total (flip older).
Proof. intros m1 m2. unfold flip, older. lia. Qed.
#[global] Instance newer_trans : Transitive (flip older).
Proof. intros m1 m2 m3. unfold flip, older. lia. Qed.
#[global] Instance fresher_total : Total fresher.
Proof. intros s1 s2. unfold fresher. lia. Qed.
#[global] Instance fresher_trans : Transitive fresher.
Proof. intros s1 s2 s3. unfold fresher. lia. Qed.

Section Reading.

Lemma In_messages_of m sid d :
  In m (messages_of sid d) <-> In m (messages d) /\ Message.sessionId m = Pg.escape sid.
Proof.
  unfold messages_of. rewrite filter_In. by rewrite bool_decide_eq_true.
Qed.

Lemma messages_of_app sid d rows :
  messages_of sid (mkDb (chat_sessions d) (messages d ++ rows))
  = messages_of sid d
    ++ List.filter (fun m => bool_decide (Message.sessionId m = Pg.escape sid)) rows.
Proof. unfold messages_of. simpl. apply List.filter_app. Qed.

Lemma In_getMessagesBySession m sid d :
  In m (getMessagesBySession sid d)
  <-> In m (messages d) /\ Message.sessionId m = Pg.escape sid.
Proof.
  unfold getMessagesBySession. rewrite <- In_messages_of.
  rewrite <- !list_elem_of_In. by rewrite merge_sort_Permutation.
Qed.

(** The first of a list sorted from the newest on is the newest. *)
Lemma lastMessage_newest sid d m :
  lastMessage sid d = Some m ->
  In m (messages_of sid d)
  /\ forall m', In m' (messages_of sid d) -> Message.createdAt m' <= Message.createdAt m.
Proof.
  unfold lastMessage. intros Hhead.
  pose proof (StronglySorted_merge_sort (flip older) (messages_of sid d)) as Hsorted.
  pose proof (merge_sort_Permutation (flip older) (messages_of sid d)) as Hperm.
  destruct (merge_sort (flip older) (messages_of sid d)) as [|x rest]; [done|].
  simpl in Hhead. injection Hhead as ->.
  apply StronglySorted_inv in Hsorted as [_ Hall].
  split.
  - apply list_elem_of_In. rewrite <- Hperm. by left.
  - intros m' Hm'. apply list_elem_of_In in Hm'. rewrite <- Hperm in Hm'.
    apply elem_of_cons in Hm' as [->|Hm']; [lia|].
    rewrite Forall_forall in Hall. by apply Hall in Hm'.
Qed.

Lemma lastMessage_None sid d : lastMessage sid d = None <-> messages_of sid d = [].
Proof.
  unfold lastMessage.
  pose proof (merge_sort_Permutation (flip older) (messages_of sid d)) as Hperm.
  split.
  - intros Hhead. destruct (merge_sort (flip older) (messages_of sid d)); [|done].
    by apply Permutation_nil.
  - intros Hnil. rewrite Hnil in *. symmetry in Hperm.
    by rewrite (Permutation_nil Hperm).
Qed.

End Reading.

(** X15. [getMessagesBySession] returns the stored messages of the session
    asked for and no other, each as often as it is stored, ordered by
    creation time from the oldest on. The messages of the session asked for
    are those whose [session_id] is the id as the query carries it (the id
    itself, when it has no code unit 0). For a session without messages, and
    for an id no session has, the result is the empty list, not an error. *)
Theorem getMessagesBySession_sorted_view (sid : string) (d : Db) :
  getMessagesBySession sid d ≡ₚ messages_of sid d
  /\ StronglySorted older (getMessagesBySession sid d)
  /\ (forall m, In m (getMessagesBySession sid d)
                <-> In m (messages d) /\ Message.sessionId m = Pg.escape sid)
  /\ (Pg.clean sid = true ->
      forall m, In m (getMessagesBySession sid d)
                <-> In m (messages d) /\ Message.sessionId m = sid)
  /\ ((forall m, In m (messages d) -> Message.sessionId m <> Pg.escape sid)
      -> getMessagesBySession sid d = []).
Proof.
  split; [apply merge_sort_Permutation|].
  split; [apply (StronglySorted_merge_sort older)|].
  split; [intros m; apply In_getMessagesBySession|].
  split.
  { intros Hclean m. rewrite In_getMessagesBySession. by rewrite (escape_clean _ Hclean). }
  intros Hnone.
  destruct (getMessagesBySession sid d) as [|m rest] eqn:Hl; [done|].
  assert (In m (getMessagesBySession sid d)) as Hin by (rewrite Hl; by left).
  apply In_getMessagesBySession in Hin as [Hin Hsid]. by apply Hnone in Hin.
Qed.

(** X16. Round trip: after [createMessage] succeeds, the new row is stored
    under the stored form of the session id, and [getMessagesBySession] for
    an id the query carries in that form (the id of the call itself, when
    it fits the column) returns the former messages of the session and the
    new row; the messages of every other session read as before. The row
    has the author class and the creation time it was created with; its
    body is the body of the call with every code unit 0 written as two
    characters; its author name and its attachment fields are what their
    columns make of the values of the call (absent for a missing or empty
    attachment field). No column of a session is written: the table of
    sessions is as before, the times of last activity included. *)
Theorem createMessage_then_list
    (now : nat) (a : MessageArgs) (d d' : Db) (row : Message.t) :
  createMessage now a d = Ok (d', row) ->
  stored_id (a_sessionId a) = Some (Message.sessionId row)
  /\ (forall sid, Pg.escape sid = Message.sessionId row ->
        getMessagesBySession sid d' ≡ₚ row :: getMessagesBySession sid d)
  /\ (String.length (Pg.escape (a_sessionId a)) <= 255 ->
        getMessagesBySession (a_sessionId a) d'
        ≡ₚ row :: getMessagesBySession (a_sessionId a) d)
  /\ (forall sid, Pg.escape sid <> Message.sessionId row ->
        getMessagesBySession sid d' = getMessagesBySession sid d)
  /\ Message.message row = Pg.escape (a_message a)
  /\ Pg.varchar 50 (Pg.escape (a_sender a)) = Some (Message.sender row)
  /\ Message.senderType row = a_senderType a /\ Message.createdAt row = now
  /\ Pg.varchar_null 1024 (Pg.escape <$> Js.or_opt (a_attachmentUrl a) None)
     = Some (Message.attachmentUrl row)
  /\ Pg.varchar_null 100 (Pg.escape <$> Js.or_opt (a_attachmentType a) None)
     = Some (Message.attachmentType row)
  /\ chat_sessions d' = chat_sessions d.
Proof.
  intros Hc.
  pose proof (createMessage_row _ _ _ _ _ Hc)
    as (Hid & Hbody & Hname & Hty & _ & Hurl & Htype & Hat).
  apply createMessage_Ok in Hc as (_ & _ & _ & ->).
  assert (forall sid, Pg.escape sid = Message.sessionId row ->
            getMessagesBySession sid (mkDb (chat_sessions d) (messages d ++ [row]))
            ≡ₚ row :: getMessagesBySession sid d) as Hlist.
  { intros sid Hsid. unfold getMessagesBySession. rewrite messages_of_app. simpl.
    rewrite bool_decide_eq_true_2 by done.
    rewrite !merge_sort_Permutation. by rewrite Permutation_app_comm. }
  split; [done|]. split; [done|]. split.
  { intros Hfits. apply Hlist. rewrite (stored_id_fits _ Hfits) in Hid. congruence. }
  split.
  { intros sid Hsid. unfold getMessagesBySession. rewrite messages_of_app. simpl.
    rewrite bool_decide_eq_false_2 by done. by rewrite app_nil_r. }
  done.
Qed.

Lemma createMessage_then_list_witness :
  let a := mkArgs "s1" "Hello" "Alice" user (Some false) None None in
  let row := Message.mk "s1" "Hello" "Alice" user false None None 7 in
  let d' := mkDb (chat_sessions (db Scenario.one_session)) [row] in
  getMessagesBySession "s1" d'
  ≡ₚ row :: getMessagesBySession "s1" (db Scenario.one_session).
Proof.
  intros a row d'.
  assert (createMessage 7 a (db Scenario.one_session) = Ok (d', row)) as Hc
    by (vm_compute; reflexivity).
  destruct (createMessage_then_list 7 a (db Scenario.one_session) d' row Hc)
    as (_ & Hlist & _).
  apply Hlist. reflexivity.
Defined.

(** ** Listing the sessions *)

Section Listing.

Lemma filter_all {A} (l : list A) : List.filter (fun _ => true) l = l.
Proof. induction l as [|x l IH]; simpl; [done|]. by rewrite IH. Qed.

Lemma filter_split {A} (p q : A -> bool) (l : list A) :
  (forall x, q x = negb (p x)) -> l ≡ₚ List.filter p l ++ List.filter q l.
Proof.
  intros Hpq. induction l as [|x l IH]; simpl; [done|].
  rewrite (Hpq x). destruct (p x); simpl.
  - by constructor.
  - rewrite <- Permutation_middle. by constructor.
Qed.

Lemma past_is_not_active (st : SessionStatus) :
  bool_decide (st = inactive \/ st = closed) = negb (bool_decide (st = active)).
Proof. by destruct st. Qed.

Lemma findAll_sessions_Permutation keep d :
  findAll_sessions keep d
  ≡ₚ List.filter (fun s => keep (ChatSession.status s)) (map_to_list (chat_sessions d)).*2.
Proof. apply merge_sort_Permutation. Qed.

Lemma sessions_of_stats d (l : list ChatSession.t) :
  ss_session <$> (session_stats d <$> l) = l.
Proof.
  induction l as [|x l IH]; [done|].
  rewrite !fmap_cons, IH. done.
Qed.

Lemma In_findAll_sessions keep d s :
  In s (findAll_sessions keep d)
  <-> keep (ChatSession.status s) = true /\ exists k, chat_sessions d !! k = Some s.
Proof.
  rewrite <- list_elem_of_In, findAll_sessions_Permutation, list_elem_of_In.
  rewrite filter_In, <- list_elem_of_In, list_elem_of_fmap. split.
  - intros [([k s'] & -> & Hin) Hkeep]. split; [done|].
    exists k. by apply elem_of_map_to_list.
  - intros [Hkeep [k Hk]]. split; [|done].
    exists (k, s). split; [done|]. by apply elem_of_map_to_list.
Qed.

End Listing.

(** X17. The three listings agree: every session of the store is listed
    once by [getAllSessions]; [getActiveSessions] lists exactly the active
    ones and [getPastSessions] exactly the inactive and closed ones, so that
    the two together are a rearrangement of the full listing; and each
    listing is ordered by the time of last activity, the most recent
    first. *)
Theorem session_listings_partition (d : Db) :
  getAllSessions d ≡ₚ getActiveSessions d ++ getPastSessions d
  /\ length (getAllSessions d) = size (chat_sessions d)
  /\ (forall s, In s (ss_session <$> getAllSessions d)
                <-> exists k, chat_sessions d !! k = Some s)
  /\ (forall s, In s (ss_session <$> getActiveSessions d)
                <-> ChatSession.status s = active
                    /\ exists k, chat_sessions d !! k = Some s)
  /\ (forall s, In s (ss_session <$> getPastSessions d)
                <-> (ChatSession.status s = inactive \/ ChatSession.status s = closed)
                    /\ exists k, chat_sessions d !! k = Some s)
  /\ StronglySorted fresher (ss_session <$> getAllSessions d)
  /\ StronglySorted fresher (ss_session <$> getActiveSessions d)
  /\ StronglySorted fresher (ss_session <$> getPastSessions d).
Proof.
  unfold getAllSessions, getActiveSessions, getPastSessions.
  rewrite !sessions_of_stats.
  split; [|split; [|split; [|split; [|split; [|split; [|split]]]]]].
  - rewrite <- fmap_app. apply fmap_Permutation.
    rewrite !findAll_sessions_Permutation, filter_all.
    apply (filter_split (fun s => bool_decide (ChatSession.status s = active))).
    intros s. apply past_is_not_active.
  - rewrite length_fmap, findAll_sessions_Permutation, filter_all, length_fmap.
    apply length_map_to_list.
  - intros s. rewrite In_findAll_sessions. tauto.
  - intros s. rewrite In_findAll_sessions. by rewrite bool_decide_eq_true.
  - intros s. rewrite In_findAll_sessions. by rewrite bool_decide_eq_true.
  - apply (StronglySorted_merge_sort fresher).
  - apply (StronglySorted_merge_sort fresher).
  - apply (StronglySorted_merge_sort fresher).
Qed.

(** X18. The statistics of a listed session: the message count is the
    number of stored messages of the session (the length of what
    [getMessagesBySession] returns), the messages of the session being those
    whose [session_id] is the id of the session as the query carries it (the
    id itself, when it has no code unit 0). Without messages the last
    message is the empty string, its author class is absent and its time is
    the time of last activity of the session. With messages, the last
    message is one of the session's messages, none of which is newer, and
    the listing shows its body, its author class and its creation time. *)
Theorem session_stats_of_messages (d : Db) (s : ChatSession.t) :
  let e := session_stats d s in
  let sid := ChatSession.sessionId s in
  let key := Pg.escape sid in
  ss_session e = s
  /\ (Pg.clean sid = true -> key = sid)
  /\ message_count e = length (getMessagesBySession sid d)
  /\ (message_count e = 0 ->
      last_message e = "" /\ last_sender_type e = None
      /\ last_message_at e = ChatSession.updatedAt s)
  /\ (0 < message_count e ->
      exists m,
        In m (messages d) /\ Message.sessionId m = key
        /\ (forall m', In m' (messages d) -> Message.sessionId m' = key ->
                       Message.createdAt m' <= Message.createdAt m)
        /\ last_message e = Message.message m
        /\ last_sender_type e = Some (Message.senderType m)
        /\ last_message_at e = Message.createdAt m).
Proof.
  intros e sid key. unfold e, key, session_stats. fold sid. simpl.
  split; [done|]. split; [apply escape_clean|]. split; [|split].
  - unfold getMessagesBySession. by rewrite merge_sort_Permutation.
  - intros Hzero. apply nil_length_inv in Hzero.
    apply lastMessage_None in Hzero. by rewrite Hzero.
  - intros Hpos.
    destruct (lastMessage sid d) as [m|] eqn:Hlast.
    + apply lastMessage_newest in Hlast as [Hin Hnewest].
      exists m. apply In_messages_of in Hin as [Hin Hsid].
      repeat split; try done.
      * intros m' Hm' Hsid'. apply Hnewest. by apply In_messages_of.
      * simpl. by destruct (String.eqb_spec (Message.message m) "").
    + apply lastMessage_None in Hlast. rewrite Hlast in Hpos. simpl in Hpos. lia.
Qed.

(** X19. A new message does not move its session in the listings.
    [createMessage] writes no column of a session (the update it sends
    carries [updatedAt] only, and for such an update no query is sent), so
    after it the three listings show the same sessions in the same order as
    before, each with the time of last activity it had. Only the message
    count changes: it grows by one for a session whose id, as the query
    carries it, is the [session_id] of the new row, and stays as it was for
    every other. *)
Theorem new_message_keeps_listing_order
    (now : nat) (a : MessageArgs) (d d' : Db) (row : Message.t) :
  createMessage now a d = Ok (d', row) ->
  ss_session <$> getAllSessions d' = ss_session <$> getAllSessions d
  /\ ss_session <$> getActiveSessions d' = ss_session <$> getActiveSessions d
  /\ ss_session <$> getPastSessions d' = ss_session <$> getPastSessions d
  /\ (forall sid, ChatSession.updatedAt <$> getSession sid d'
                  = ChatSession.updatedAt <$> getSession sid d)
  /\ forall s,
       message_count (session_stats d' s)
       = message_count (session_stats d s)
         + (if bool_decide (Pg.escape (ChatSession.sessionId s) = Message.sessionId row)
            then 1 else 0).
Proof.
  intros Hc. apply createMessage_Ok in Hc as (_ & _ & _ & ->).
  unfold getAllSessions, getActiveSessions, getPastSessions.
  rewrite !sessions_of_stats.
  split; [done|]. split; [done|]. split; [done|]. split; [done|].
  intros s. unfold session_stats. cbn [message_count].
  rewrite messages_of_app, length_app. f_equal. simpl.
  rewrite (bool_decide_ext (Message.sessionId row = Pg.escape (ChatSession.sessionId s))
             (Pg.escape (ChatSession.sessionId s) = Message.sessionId row))
    by (split; congruence).
  by case_bool_decide.
Qed.

Lemma new_message_keeps_listing_order_witness :
  let d := db (handle OpenAI Scenario.quiet 3
                 (user_connect (Some "s2") None None) Scenario.one_session).1 in
  let a := mkArgs "s1" "Hello" "Alice" user (Some false) None None in
  let row := Message.mk "s1" "Hello" "Alice" user false None None 9 in
  let d' := mkDb (chat_sessions d) [row] in
  ss_session <$> getAllSessions d' = ss_session <$> getAllSessions d.
Proof.
  intros d a row d'.
  assert (createMessage 9 a d = Ok (d', row)) as Hc
    by (vm_compute; reflexivity).
  exact (proj1 (new_message_keeps_listing_order 9 a d d' row Hc)).
Defined.

(** ** Writing one session *)

(** X20. [updateSessionStatus] fails with "Session not found" exactly when
    no session has the id, and then nothing is written. When it succeeds the
    session has the requested status and [getSession] returns it so; its id,
    address, agent, auto-reply flag and creation time, every session a query
    tells from it and all messages are as before; its time of last activity
    is the time of the call when the status changed and is as before when
    the session had the status already. *)
Theorem updateSessionStatus_outcome
    (now : nat) (sid : string) (st : SessionStatus) (d : Db) :
  (updateSessionStatus now sid st d = Throw SessionNotFound
   <-> getSession sid d = None)
  /\ forall d',
       updateSessionStatus now sid st d = Ok d' ->
       messages d' = messages d
       /\ (forall k, Pg.escape k <> Pg.escape sid -> getSession k d' = getSession k d)
       /\ exists old new,
            getSession sid d = Some old /\ getSession sid d' = Some new
            /\ ChatSession.status new = st
            /\ ChatSession.sessionId new = ChatSession.sessionId old
            /\ ChatSession.userIp new = ChatSession.userIp old
            /\ ChatSession.userAgent new = ChatSession.userAgent old
            /\ ChatSession.aiEnabled new = ChatSession.aiEnabled old
            /\ ChatSession.createdAt new = ChatSession.createdAt old
            /\ ChatSession.updatedAt new
               = if bool_decide (ChatSession.status old = st)
                 then ChatSession.updatedAt old else now.
Proof.
  unfold getSession. split.
  - unfold updateSessionStatus.
    by destruct (chat_sessions d !! Pg.escape sid) as [old|].
  - intros d' Hu. split; [by apply updateSessionStatus_messages in Hu|].
    split.
    { intros k Hk. apply (updateSessionStatus_other _ _ _ _ _ _ Hu). congruence. }
    apply updateSessionStatus_Ok in Hu as (old & Hold & ->).
    exists old. unfold session_set_status. case_bool_decide as Hsame.
    + exists old. by rewrite Hold.
    + eexists. simpl. rewrite lookup_insert_eq. by repeat split.
Qed.

(** X21. [toggleAiForSession] sets the auto-reply flag of the session and
    no other value of it: id, status, address, agent and creation time of
    the session, every session a query tells from it and all messages are
    as before; for an id no session has, the store is left as it is. Setting
    the flag to the value it already has writes nothing, so the operation is
    idempotent. *)
Theorem toggleAiForSession_sets_the_flag_only
    (now now' : nat) (sid : string) (enabled : bool) (d : Db) :
  let d' := toggleAiForSession now sid enabled d in
  messages d' = messages d
  /\ (forall k, Pg.escape k <> Pg.escape sid -> getSession k d' = getSession k d)
  /\ match getSession sid d with
     | None => d' = d
     | Some old =>
         exists new,
           getSession sid d' = Some new
           /\ ChatSession.aiEnabled new = enabled
           /\ ChatSession.sessionId new = ChatSession.sessionId old
           /\ ChatSession.status new = ChatSession.status old
           /\ ChatSession.userIp new = ChatSession.userIp old
           /\ ChatSession.userAgent new = ChatSession.userAgent old
           /\ ChatSession.createdAt new = ChatSession.createdAt old
           /\ (ChatSession.aiEnabled old = enabled -> d' = d)
     end
  /\ toggleAiForSession now' sid enabled d' = d'.
Proof.
  intros d'. unfold d', toggleAiForSession, getSession, session_set_aiEnabled.
  destruct (chat_sessions d !! Pg.escape sid) as [old|] eqn:Hold.
  - case_bool_decide as Hsame.
    + rewrite Hold. rewrite bool_decide_eq_true_2 by done.
      repeat split; try done. by exists old.
    + simpl. rewrite lookup_insert_eq. simpl.
      repeat split; try done.
      * intros k Hk. by rewrite lookup_insert_ne.
      * by eexists.
      * by rewrite bool_decide_eq_true_2.
  - rewrite Hold. by repeat split.
Qed.

(** ** The HTTP controllers *)

(** X22. For an id no session has, [getSessionById] answers 404, while
    [getSessionMessages] answers 200 with the empty list whenever the store
    is consistent (no message without its session): the second does not
    tell an unknown session from one without messages. For an id a session
    has, the first answers with the record and the second with the messages
    of the session. *)
Theorem unknown_session_404_but_empty_messages (sid : string) (d : Db) :
  sid <> "" ->
  store_consistent d ->
  match getSession sid d with
  | None =>
      Controller.getSessionById sid d = Controller.failure 404 "Session not found"
      /\ Controller.getSessionMessages sid d = Controller.json []
  | Some session =>
      Controller.getSessionById sid d = Controller.json session
      /\ Controller.getSessionMessages sid d
         = Controller.json (getMessagesBySession sid d)
  end.
Proof.
  intros Hsid Hst.
  unfold Controller.getSessionById, Controller.getSessionMessages.
  rewrite (proj2 (truthy_Some sid) Hsid). simpl.
  destruct (getSession sid d) as [session|] eqn:Hget; [done|].
  split; [done|]. f_equal.
  destruct (getMessagesBySession sid d) as [|m rest] eqn:Hl; [done|].
  assert (In m (getMessagesBySession sid d)) as Hin by (rewrite Hl; by left).
  apply In_getMessagesBySession in Hin as [Hin Hm].
  unfold store_consistent in Hst. rewrite Forall_forall in Hst.
  apply list_elem_of_In in Hin. apply Hst in Hin as (_ & [s Hs]).
  unfold getSession in Hget. congruence.
Qed.

Lemma unknown_session_404_but_empty_messages_witness :
  Controller.getSessionById "s2" (db Scenario.one_session)
  = Controller.failure 404 "Session not found"
  /\ Controller.getSessionMessages "s2" (db Scenario.one_session) = Controller.json [].
Proof.
  assert ("s2" <> "") as Hsid by discriminate.
  assert (store_consistent (db Scenario.one_session)) as Hst.
  { unfold store_consistent. simpl. constructor. }
  pose proof (unknown_session_404_but_empty_messages "s2" (db Scenario.one_session)
                Hsid Hst) as H.
  assert (getSession "s2" (db Scenario.one_session) = None) as Hget
    by (vm_compute; reflexivity).
  rewrite Hget in H. exact H.
Defined.

Lemma ai_reply_composing_head v env sid st :
  composing env sid st ->
  exists rest, (ai_reply v env sid st).2 = typing_admin sid :: rest.
Proof.
  intros Hc. unfold ai_reply. rewrite (composing_guard _ _ _ Hc).
  destruct (reply env) as [code|content]; [by eexists|].
  destruct (Js.truthy _).
  - destruct (createMessage _ _ _) as [[d aiSaved]|e]; by eexists.
  - destruct v; by eexists.
Qed.

(** X23. The HTTP toggle answers 400 without a boolean and 404 for an id no
    session has, and writes nothing in either case; otherwise it answers 200
    with the id and the new value. The value takes effect with the next
    message: after a 200, a [message:user] event for the session that is
    stored enters the AI-reply step (the room of the session is sent
    [typing:admin]) exactly when the flag was set to true and an API key is
    configured. *)
Theorem toggle_controls_the_reply_step
    (v : Variant) (env : Env) (c : nat) (data : ChatMessage) (st : State)
    (time : nat) (sid : string) (enabled : option bool) :
  let out := Controller.toggleAiForSession time sid enabled (db st) in
  match enabled, getSession sid (db st) with
  | None, _ =>
      out = (db st, Controller.failure 400 "enabled (boolean) is required")
  | Some _, None => out = (db st, Controller.failure 404 "Session not found")
  | Some flag, Some _ =>
      out.2 = Controller.json (sid, flag)
      /\ ChatSession.aiEnabled <$> getSession sid out.1 = Some flag
      /\ forall dm saved,
           sessionId data = Some sid -> invalid data = false ->
           createMessage (now env) (messageArgs data user "User") out.1
           = Ok (dm, saved) ->
           (In (typing_admin sid)
               (handle v env c (message_user data) (set_db st out.1)).2
            <-> flag = true /\ Js.truthy (api_key env) = true)
  end.
Proof.
  intros out. unfold out, Controller.toggleAiForSession, getSession.
  destruct enabled as [flag|]; [|done].
  destruct (chat_sessions (db st) !! Pg.escape sid) as [old|] eqn:Hold; [|done].
  cbn [fst snd]. split; [done|].
  assert (ChatSession.aiEnabled
            <$> chat_sessions (toggleAiForSession time sid flag (db st)) !! Pg.escape sid
          = Some flag) as Hflag.
  { unfold toggleAiForSession, session_set_aiEnabled. rewrite Hold.
    case_bool_decide as Hsame.
    - rewrite Hold. simpl. by rewrite Hsame.
    - simpl. by rewrite lookup_insert_eq. }
  split; [done|]. intros dm saved Hs Hvalid Hsaved.
  set (d' := toggleAiForSession time sid flag (db st)) in *.
  pose proof (createMessage_flags _ _ _ _ _ Hsaved (Pg.escape sid)) as Hkeep.
  unfold handle. split.
  - intros Hin.
    destruct flag; [|exfalso].
    + split; [done|]. destruct (Js.truthy (api_key env)) eqn:Hkey; [done|exfalso].
      rewrite on_message_user_without_reply in Hin by (by right).
      rewrite Hvalid in Hin. cbn [db set_db] in Hin. rewrite Hsaved in Hin.
      simpl in Hin. destruct Hin as [H|[H|[H|[]]]]; discriminate.
    + rewrite on_message_user_without_reply in Hin.
      * rewrite Hvalid in Hin. cbn [db set_db] in Hin. rewrite Hsaved in Hin.
        simpl in Hin. destruct Hin as [H|[H|[H|[]]]]; discriminate.
      * left. intros sid' Hs'. rewrite Hs in Hs'. injection Hs' as <-.
        unfold getSession. cbn [db set_db]. rewrite Hflag. discriminate.
  - intros [-> Hkey]. unfold on_message_user. rewrite Hvalid.
    cbn [db set_db]. rewrite Hsaved, Hs. simpl.
    assert (composing env sid (set_db (set_db st d') dm)) as Hc.
    { split; [|done]. unfold getSession. simpl. by rewrite <- Hkeep. }
    destruct (ai_reply_composing_head v env sid _ Hc) as [rest Hrest].
    destruct (ai_reply v env sid (set_db (set_db st d') dm)) as [st' ai].
    simpl in *. subst ai. right. right. right. by left.
Qed.

(** ** Stored before sent *)

Section StoredBeforeSent.

Lemma stored_before_mono seen seen' t :
  (forall m, In m seen -> In m seen') -> stored_before seen t -> stored_before seen' t.
Proof.
  revert seen seen'. induction t as [|a rest IH]; intros seen seen' Hsub; [done|].
  destruct a as [m|to name p|e]; simpl.
  - apply IH. intros m' [->|Hm']; [by left|right; by apply Hsub].
  - destruct p; try by apply IH.
    intros [(m & Hm & Hmd) Hrest]. split; [|by apply (IH seen)].
    exists m. split; [by apply Hsub|done].
  - by apply IH.
Qed.

Lemma stored_before_app seen t1 t2 :
  stored_before seen t1 -> stored_before [] t2 -> stored_before seen (t1 ++ t2).
Proof.
  revert seen. induction t1 as [|a rest IH]; intros seen H1 H2; simpl.
  { apply (stored_before_mono []); [by intros m []|done]. }
  destruct a as [m|to name p|e]; simpl in *.
  - by apply IH.
  - destruct p; try by apply IH.
    destruct H1 as [Hm Hrest]. split; [done|by apply IH].
  - by apply IH.
Qed.

Lemma ai_reply_stored_before v env sid st :
  stored_before [] (ai_reply v env sid st).2.
Proof.
  pose proof (ai_reply_rows v env sid st) as Hrows. revert Hrows.
  unfold ai_reply.
  destruct (_ && _); [|done].
  destruct (reply env) as [code|content]; [done|].
  destruct (Js.truthy _).
  - destruct (createMessage _ _ _) as [[d aiSaved]|e] eqn:Hc; [|done].
    intros Hrows.
    destruct (Hrows aiSaved) as (Hflag & Hty & Hname & Hurl & Htype & Hid & _);
      [by left|].
    assert (aiMessageData sid aiSaved = messageData sid admin aiSaved) as Hmd.
    { unfold aiMessageData, messageData. by rewrite Hflag, Hname, Hurl, Htype. }
    simpl. rewrite Hmd.
    split; [|split; [|done]]; exists aiSaved;
      (split; [by left|]); simpl; by rewrite Hty.
  - by destruct v.
Qed.

Lemma handle_stored_before v env c ev st : stored_before [] (handle v env c ev st).2.
Proof.
  destruct ev as [s ip ua|data|data| |s ty|s ty|s| |event]; unfold handle.
  - unfold on_user_connect. by destruct (createOrUpdateSession _ _ _).
  - unfold on_message_user. destruct (invalid data); [done|].
    destruct (createMessage _ _ _) as [[d saved]|e] eqn:Hc; [|done].
    pose proof (ai_reply_stored_before v env (text (sessionId data)) (set_db st d)) as Hai.
    destruct (ai_reply v env (text (sessionId data)) (set_db st d)) as [st' ai].
    apply createMessage_row in Hc as (Hid & _ & _ & Hty & _). simpl in *.
    split; [|split]; try (exists saved; split; [by left|]; simpl; by rewrite Hty).
    by apply (stored_before_mono []); [intros m []|].
  - unfold on_message_admin. destruct (invalid data); [done|].
    destruct (createMessage _ _ _) as [[d saved]|e] eqn:Hc; [|done].
    apply createMessage_row in Hc as (Hid & _ & _ & Hty & _). simpl in *.
    split; [|split; [|done]]; exists saved;
      (split; [by left|]); simpl; by rewrite Hty.
  - done.
  - unfold on_typing_start. destruct (_ || _); [done|]. by destruct (bool_decide _).
  - unfold on_typing_stop. destruct (_ || _); [done|]. by destruct (bool_decide _).
  - unfold on_session_close. destruct (Js.truthy s); [|done].
    by destruct (updateSessionStatus _ _ _ _).
  - by rewrite close_connection_eq.
  - by destruct event.
Qed.

End StoredBeforeSent.

(** X24. Nothing is sent that was not stored first: along every run, each
    [message:new], [message:received] and [message:sent] event carries a
    message that was written to the store earlier in the run, with exactly
    the body, author, author class, automated flag, attachment fields and
    creation time of the stored row, under the session id of which the row
    holds the stored form. *)
Theorem run_sends_only_stored_messages
    (v : Variant) (evs : list (Env * nat * Inbound)) (st : State) :
  stored_before [] (run v evs st).2.
Proof.
  revert st. induction evs as [|[[env c] ev] rest IH]; intros st; simpl; [done|].
  pose proof (handle_stored_before v env c ev st) as H1.
  destruct (handle v env c ev st) as [st1 t1]. simpl in *.
  destruct (thrown t1); [done|].
  specialize (IH st1). destruct (run v rest st1) as [st2 t2]. simpl in *.
  by apply stored_before_app.
Qed.
